(** * The OSS backend of cubeb ([src/cubeb_oss.c]): streams, sample
      conversion and the duplex I/O routine.

    The development follows the C file, for an LP64 little-endian host
    ([int] and [unsigned] of 32 bits, [long], [size_t] and [ssize_t] of
    64 bits).  Machine integers are [Z] with the wrap-around of each C
    type written out; sample buffers are byte lists ([void * buf] viewed
    through [uint8_t *], [int16_t *], [int32_t *] and [float *]);
    [float] and [double] are the binary32 and binary64 instances of the
    Standard Library's [SpecFloat]; C operations whose behaviour is
    undefined return [None].  Calls into libc, the device and the
    application are answered by an environment record and logged as
    events in program order.  The mutex only brackets the accesses to
    [running], [volume] and [frames_written]; the I/O routine reads the
    first two through its environment, since the control thread writes
    them concurrently. *)

From Stdlib Require Import String.
From Stdlib Require Import ZArith List Bool Lia.
From Stdlib Require Import Floats.SpecFloat.
Import ListNotations.

Local Open Scope Z_scope.

(** ** Machine integers *)

Definition u32 (x : Z) : Z := x mod 2 ^ 32.
Definition u64 (x : Z) : Z := x mod 2 ^ 64.
Definition s16 (x : Z) : Z := (x + 2 ^ 15) mod 2 ^ 16 - 2 ^ 15.
Definition s32 (x : Z) : Z := (x + 2 ^ 31) mod 2 ^ 32 - 2 ^ 31.

Definition INT32_MAX : Z := 2 ^ 31 - 1.
Definition INT32_MIN : Z := - 2 ^ 31.
Definition INT64_MAX : Z := 2 ^ 63 - 1.
Definition INT64_MIN : Z := - 2 ^ 63.

Definition in_int32 (x : Z) : bool := (INT32_MIN <=? x) && (x <=? INT32_MAX).
Definition in_int64 (x : Z) : bool := (INT64_MIN <=? x) && (x <=? INT64_MAX).

(** Option as the monad of possibly undefined C computations. *)
Definition obind {A B : Type} (m : option A) (k : A -> option B) : option B :=
  match m with
  | Some a => k a
  | None => None
  end.

Notation "x <- m ;; k" := (obind m (fun x => k))
  (at level 61, m at next level, right associativity).

(** ** Memory: byte buffers, little-endian (the native order of the
       amd64 and aarch64 hosts the backend is built for) *)

Definition byte := Z.

Definition store16 (v : Z) : list byte :=
  [v mod 256; (v / 256) mod 256].

Definition store32 (v : Z) : list byte :=
  [v mod 256; (v / 256) mod 256; (v / 65536) mod 256; (v / 16777216) mod 256].

Definition load16 (b0 b1 : byte) : Z := b0 + 256 * b1.

Definition load32 (b0 b1 b2 b3 : byte) : Z :=
  b0 + 256 * b1 + 65536 * b2 + 16777216 * b3.

(** The [i]-th 32-bit word of a buffer, as an unsigned value. *)
Definition word32_at (buf : list byte) (i : nat) : Z :=
  match skipn (4 * i) buf with
  | b0 :: b1 :: b2 :: b3 :: _ => load32 b0 b1 b2 b3
  | _ => 0
  end.

(** ** IEEE 754 binary32, the C type [float], and binary64, [double] *)

Definition float := spec_float.

Definition f32mul : float -> float -> float := SFmul 24 128.
Definition f64mul : spec_float -> spec_float -> spec_float := SFmul 53 1024.

(** Conversion of an integer to [float] and to [double]. *)
Definition f32_of_Z (i : Z) : float := binary_normalize 24 128 i 0 false.
Definition f64_of_Z (i : Z) : spec_float := binary_normalize 53 1024 i 0 false.

(** Narrowing of a [double] to [float]. *)
Definition f32_of_f64 (d : spec_float) : float :=
  match d with
  | S754_finite s m e => binary_round 24 128 s m e
  | other => other
  end.

(** The bit pattern of a [float] and back. *)
Definition bits_to_float (w : Z) : float :=
  let s := Z.testbit w 31 in
  let e := Z.land (Z.shiftr w 23) 255 in
  let m := Z.land w (2 ^ 23 - 1) in
  if e =? 0 then
    match m with
    | Zpos p => S754_finite s p (-149)
    | _ => S754_zero s
    end
  else if e =? 255 then
    if m =? 0 then S754_infinity s else S754_nan
  else
    match m + 2 ^ 23 with
    | Zpos p => S754_finite s p (e - 150)
    | _ => S754_nan
    end.

Definition sign_bit (s : bool) : Z := if s then 2 ^ 31 else 0.

Definition float_to_bits (x : float) : Z :=
  match x with
  | S754_zero s => sign_bit s
  | S754_infinity s => sign_bit s + 255 * 2 ^ 23
  | S754_nan => 255 * 2 ^ 23 + 2 ^ 22
  | S754_finite s m e =>
      if Zpos m <? 2 ^ 23 then sign_bit s + Zpos m
      else sign_bit s + (e + 150) * 2 ^ 23 + (Zpos m - 2 ^ 23)
  end.

(** Truncation of a floating value towards zero, as a C conversion to a
    signed integer type does it. *)
Definition float_trunc (x : spec_float) : option Z :=
  match x with
  | S754_zero _ => Some 0
  | S754_finite s m e =>
      let a := if 0 <=? e then Zpos m * 2 ^ e else Zpos m / 2 ^ (- e) in
      Some (if s then - a else a)
  | _ => None
  end.

(** [(int64_t) x] and [(int32_t) x]: undefined when the truncated value
    is not representable (C11 6.3.1.4), and for infinities and NaN. *)
Definition float_to_int64 (x : spec_float) : option Z :=
  v <- float_trunc x ;; if in_int64 v then Some v else None.

Definition float_to_int32 (x : spec_float) : option Z :=
  v <- float_trunc x ;; if in_int32 v then Some v else None.

(** ** Sample converters *)

(** [int64_t f = *(in++) * vol * 0x80000000;]: two [float] products,
    the constant being converted to [float], then the conversion to
    [int64_t]. *)
Definition scale_to_linear32 (x vol : float) : option Z :=
  float_to_int64 (f32mul (f32mul x vol) (f32_of_Z 2147483648)).

(** The two comparisons against [INT32_MAX]. *)
Definition clamp_linear32 (f : Z) : Z :=
  if f <? - INT32_MAX then - INT32_MAX
  else if INT32_MAX <? f then INT32_MAX
  else f.

(** [oss_float_to_linear32]: [in] and [out] walk the same memory, one
    4-byte sample at a time; running past the end of the buffer is
    undefined. *)
Fixpoint float_to_linear32_loop (buf : list byte) (count : nat) (vol : float)
  {struct count} : option (list byte) :=
  match count with
  | O => Some buf
  | S count' =>
      match buf with
      | b0 :: b1 :: b2 :: b3 :: rest =>
          f <- scale_to_linear32 (bits_to_float (load32 b0 b1 b2 b3)) vol ;;
          rest' <- float_to_linear32_loop rest count' vol ;;
          Some (store32 (u32 (clamp_linear32 f)) ++ rest')
      | _ => None
      end
  end.

Definition oss_float_to_linear32 (buf : list byte) (sample_count : Z) (vol : float)
  : option (list byte) :=
  float_to_linear32_loop buf (Z.to_nat sample_count) vol.

(** [*(out++) = (1.0 / 0x80000000) * *(in++);]: the product is taken in
    [double] and narrowed to [float] by the assignment. *)
Definition linear32_to_float_sample (w : Z) : float :=
  f32_of_f64 (f64mul (S754_finite false 4503599627370496 (-83)) (f64_of_Z (s32 w))).

Fixpoint linear32_to_float_loop (buf : list byte) (count : nat)
  {struct count} : option (list byte) :=
  match count with
  | O => Some buf
  | S count' =>
      match buf with
      | b0 :: b1 :: b2 :: b3 :: rest =>
          rest' <- linear32_to_float_loop rest count' ;;
          Some (store32 (float_to_bits (linear32_to_float_sample (load32 b0 b1 b2 b3)))
                  ++ rest')
      | _ => None
      end
  end.

Definition oss_linear32_to_float (buf : list byte) (sample_count : Z)
  : option (list byte) :=
  linear32_to_float_loop buf (Z.to_nat sample_count).

(** [oss_linear16_set_vol]: [multiplier = vol * 0x8000] is converted to
    [int32_t]; the product is an [int], shifted arithmetically and
    narrowed to [int16_t]. *)
Fixpoint linear16_set_vol_loop (buf : list byte) (count : nat) (multiplier : Z)
  {struct count} : option (list byte) :=
  match count with
  | O => Some buf
  | S count' =>
      match buf with
      | b0 :: b1 :: rest =>
          let p := s16 (load16 b0 b1) * multiplier in
          if in_int32 p then
            rest' <- linear16_set_vol_loop rest count' multiplier ;;
            Some (store16 (s16 (Z.shiftr p 15) mod 2 ^ 16) ++ rest')
          else None
      | _ => None
      end
  end.

Definition oss_linear16_set_vol (buf : list byte) (sample_count : Z) (vol : float)
  : option (list byte) :=
  multiplier <- float_to_int32 (f32mul vol (f32_of_Z 32768)) ;;
  linear16_set_vol_loop buf (Z.to_nat sample_count) multiplier.

(** The sample at index [i] converts without undefined behaviour. *)
Definition sample_defined (vol : float) (buf : list byte) (i : nat) : Prop :=
  scale_to_linear32 (bits_to_float (word32_at buf i)) vol <> None.

(** ** Result codes, states and formats *)

(** Modelled from the spec: the result codes of [cubeb.h], which is not
    under [src/], with the values of that header; [CUBEB_ERROR] is also
    the error sentinel of the data callback. *)
Definition CUBEB_OK : Z := 0.
Definition CUBEB_ERROR : Z := -1.
Definition CUBEB_ERROR_INVALID_FORMAT : Z := -2.
Definition CUBEB_ERROR_NOT_SUPPORTED : Z := -4.
Definition CUBEB_ERROR_DEVICE_UNAVAILABLE : Z := -5.

(** Modelled from the spec: the preference bit of [cubeb.h] that asks
    for loopback. *)
Definition CUBEB_STREAM_PREF_LOOPBACK : Z := 1.

(** Modelled from the spec: the hardware format codes and the size of a
    device node name of [sys/soundcard.h], which is not under [src/]. *)
Definition AFMT_S16_LE : Z := 16.
Definition AFMT_S16_BE : Z := 32.
Definition AFMT_S32_NE : Z := 4096.
Definition OSS_DEVNODE_SIZE : nat := 32.

Definition OSS_DEFAULT_NFRAMES : Z := 32.

(** Modelled from the spec: the states of the state notification
    contract ([cubeb_state] of [cubeb.h]). *)
Inductive cubeb_state : Type :=
| CUBEB_STATE_STARTED
| CUBEB_STATE_STOPPED
| CUBEB_STATE_DRAINED
| CUBEB_STATE_ERROR.

Definition cubeb_state_eqb (a b : cubeb_state) : bool :=
  match a, b with
  | CUBEB_STATE_STARTED, CUBEB_STATE_STARTED
  | CUBEB_STATE_STOPPED, CUBEB_STATE_STOPPED
  | CUBEB_STATE_DRAINED, CUBEB_STATE_DRAINED
  | CUBEB_STATE_ERROR, CUBEB_STATE_ERROR => true
  | _, _ => false
  end.

(** Modelled from the spec: the sample-format tags of [cubeb.h]; the
    native floating format is the little-endian one on the hosts
    considered. *)
Inductive cubeb_sample_format : Type :=
| CUBEB_SAMPLE_S16LE
| CUBEB_SAMPLE_S16BE
| CUBEB_SAMPLE_FLOAT32LE
| CUBEB_SAMPLE_FLOAT32BE.

Definition CUBEB_SAMPLE_FLOAT32NE : cubeb_sample_format := CUBEB_SAMPLE_FLOAT32LE.

Definition format_eqb (a b : cubeb_sample_format) : bool :=
  match a, b with
  | CUBEB_SAMPLE_S16LE, CUBEB_SAMPLE_S16LE
  | CUBEB_SAMPLE_S16BE, CUBEB_SAMPLE_S16BE
  | CUBEB_SAMPLE_FLOAT32LE, CUBEB_SAMPLE_FLOAT32LE
  | CUBEB_SAMPLE_FLOAT32BE, CUBEB_SAMPLE_FLOAT32BE => true
  | _, _ => false
  end.

(** Modelled from the spec: the requested stream parameters
    ([cubeb_stream_params] of [cubeb.h]), without the channel layout,
    which the backend does not read. *)
Record cubeb_stream_params : Type := {
  p_format : cubeb_sample_format;
  p_rate : Z;
  p_channels : Z;
  p_prefs : Z
}.

(** ** The stream *)

Record stream_info : Type := {
  channels : Z;
  sample_rate : Z;
  fmt : Z;
  precision : Z
}.

(** One direction of a stream; [buf] is [None] for the null pointer. *)
Record oss_stream : Type := {
  name : string;
  fd : Z;
  buf : option (list byte);
  info : stream_info;
  frame_size : Z;
  floating : bool
}.

(** The stream, without the context, the callbacks and the user
    pointer, which the environment stands for; [thread] is the
    identifier of the I/O thread. *)
Record cubeb_stream : Type := {
  thread : Z;
  running : bool;
  volume : float;
  play : oss_stream;
  record : oss_stream;
  frames_written : Z;
  blocks_written : Z;
  nfr : Z
}.

Definition bytes_of (b : option (list byte)) : list byte :=
  match b with
  | Some l => l
  | None => []
  end.

Definition set_fd (e : oss_stream) (v : Z) : oss_stream :=
  {| name := name e; fd := v; buf := buf e; info := info e;
     frame_size := frame_size e; floating := floating e |}.

Definition set_buf (e : oss_stream) (v : option (list byte)) : oss_stream :=
  {| name := name e; fd := fd e; buf := v; info := info e;
     frame_size := frame_size e; floating := floating e |}.

Definition set_info (e : oss_stream) (v : stream_info) : oss_stream :=
  {| name := name e; fd := fd e; buf := buf e; info := v;
     frame_size := frame_size e; floating := floating e |}.

Definition set_frame_size (e : oss_stream) (v : Z) : oss_stream :=
  {| name := name e; fd := fd e; buf := buf e; info := info e;
     frame_size := v; floating := floating e |}.

Definition set_floating (e : oss_stream) (v : bool) : oss_stream :=
  {| name := name e; fd := fd e; buf := buf e; info := info e;
     frame_size := frame_size e; floating := v |}.

Definition set_thread (s : cubeb_stream) (v : Z) : cubeb_stream :=
  {| thread := v; running := running s; volume := volume s; play := play s;
     record := record s; frames_written := frames_written s;
     blocks_written := blocks_written s; nfr := nfr s |}.

Definition set_running (s : cubeb_stream) (v : bool) : cubeb_stream :=
  {| thread := thread s; running := v; volume := volume s; play := play s;
     record := record s; frames_written := frames_written s;
     blocks_written := blocks_written s; nfr := nfr s |}.

Definition set_volume (s : cubeb_stream) (v : float) : cubeb_stream :=
  {| thread := thread s; running := running s; volume := v; play := play s;
     record := record s; frames_written := frames_written s;
     blocks_written := blocks_written s; nfr := nfr s |}.

Definition set_play (s : cubeb_stream) (v : oss_stream) : cubeb_stream :=
  {| thread := thread s; running := running s; volume := volume s; play := v;
     record := record s; frames_written := frames_written s;
     blocks_written := blocks_written s; nfr := nfr s |}.

Definition set_record (s : cubeb_stream) (v : oss_stream) : cubeb_stream :=
  {| thread := thread s; running := running s; volume := volume s; play := play s;
     record := v; frames_written := frames_written s;
     blocks_written := blocks_written s; nfr := nfr s |}.

Definition set_frames_written (s : cubeb_stream) (v : Z) : cubeb_stream :=
  {| thread := thread s; running := running s; volume := volume s; play := play s;
     record := record s; frames_written := v;
     blocks_written := blocks_written s; nfr := nfr s |}.

Definition set_nfr (s : cubeb_stream) (v : Z) : cubeb_stream :=
  {| thread := thread s; running := running s; volume := volume s; play := play s;
     record := record s; frames_written := frames_written s;
     blocks_written := blocks_written s; nfr := v |}.

(** ** Observable events: the calls the backend makes to libc, to the
       device and to the application, in program order *)

Inductive resource : Type :=
| RStream
| RPlayBuf
| RRecordBuf
| RFd (d : Z)
| RMutex.

Inductive event : Type :=
| EvCalloc (r : resource)
| EvFree (r : resource)
| EvOpen (d : Z)
| EvClose (d : Z)
| EvMutexInit
| EvMutexDestroy
| EvMutexLock
| EvMutexUnlock
| EvThreadCreate (tid : Z)
| EvThreadJoin (tid : Z)
| EvStateCb (st : cubeb_state)
| EvDataCb (input : list byte) (nframes ret : Z)
| EvWrite (requested : Z) (data : list byte)
| EvRead (requested : Z) (data : list byte).

Definition resource_eqb (a b : resource) : bool :=
  match a, b with
  | RStream, RStream | RPlayBuf, RPlayBuf | RRecordBuf, RRecordBuf
  | RMutex, RMutex => true
  | RFd x, RFd y => x =? y
  | _, _ => false
  end.

Definition acquired (e : event) : option resource :=
  match e with
  | EvCalloc r => Some r
  | EvOpen d => Some (RFd d)
  | EvMutexInit => Some RMutex
  | _ => None
  end.

Definition released (e : event) : option resource :=
  match e with
  | EvFree r => Some r
  | EvClose d => Some (RFd d)
  | EvMutexDestroy => Some RMutex
  | _ => None
  end.

Fixpoint remove_one (r : resource) (l : list resource) : list resource :=
  match l with
  | [] => []
  | x :: l' => if resource_eqb r x then l' else x :: remove_one r l'
  end.

(** The resources still held after a sequence of events. *)
Fixpoint held_after (held : list resource) (tr : list event) : list resource :=
  match tr with
  | [] => held
  | e :: tr' =>
      let held1 := match acquired e with Some r => r :: held | None => held end in
      let held2 := match released e with Some r => remove_one r held1 | None => held1 end in
      held_after held2 tr'
  end.

Definition is_join (e : event) : bool :=
  match e with EvThreadJoin _ => true | _ => false end.

Definition is_close_or_free (e : event) : bool :=
  match e with
  | EvClose _ | EvFree _ => true
  | _ => false
  end.

Definition is_mutex_destroy (e : event) : bool :=
  match e with EvMutexDestroy => true | _ => false end.

(** Nothing matching [what] happens in [tr] before the first join. *)
Fixpoint none_before_join (what : event -> bool) (tr : list event) : bool :=
  match tr with
  | [] => true
  | e :: tr' => is_join e || (negb (what e) && none_before_join what tr')
  end.

(** ** Stream control *)

Definition oss_stream_stop (s : cubeb_stream) : cubeb_stream * list event * Z :=
  if running s then
    (set_running s false,
     [EvMutexLock; EvMutexUnlock; EvThreadJoin (thread s)],
     CUBEB_OK)
  else
    (s, [EvMutexLock; EvMutexUnlock], CUBEB_OK).

Definition free_buf (r : resource) (b : option (list byte)) : list event :=
  match b with
  | Some _ => [EvFree r]
  | None => []
  end.

Definition oss_stream_destroy (s : cubeb_stream) : list event :=
  let '(s1, stop_events, _) := oss_stream_stop s in
  [EvMutexDestroy]
    ++ stop_events
    ++ (if fd (play s1) =? -1 then [] else [EvClose (fd (play s1))])
    ++ (if fd (record s1) =? -1 then [] else [EvClose (fd (record s1))])
    ++ free_buf RPlayBuf (buf (play s1))
    ++ free_buf RRecordBuf (buf (record s1))
    ++ [EvFree RStream].

(** [pthread_create] either yields a thread identifier or fails. *)
Definition oss_stream_start (pthread_create : option Z) (s : cubeb_stream)
  : cubeb_stream * list event * Z :=
  let s1 := set_running s true in
  match pthread_create with
  | Some tid => (set_thread s1 tid, [EvThreadCreate tid], CUBEB_OK)
  | None => (s1, [], CUBEB_ERROR)
  end.

Definition f32_zero : float := S754_zero false.
Definition f32_one : float := S754_finite false 8388608 (-23).

Definition f32_ltb : float -> float -> bool := SFltb.

Definition oss_stream_set_volume (s : cubeb_stream) (v : float)
  : cubeb_stream * list event * Z :=
  let v1 := if f32_ltb v f32_zero then f32_zero
            else if f32_ltb f32_one v then f32_one else v in
  (set_volume s v1, [EvMutexLock; EvMutexUnlock], CUBEB_OK).

Definition oss_stream_get_position (s : cubeb_stream) : Z * list event * Z :=
  (frames_written s, [EvMutexLock; EvMutexUnlock], CUBEB_OK).

(** ** Stream construction *)

(** Modelled from the spec: the access modes of [open], the three
    negotiation requests and the queue report of the device control
    interface ([fcntl.h] and [sys/soundcard.h], not under [src/]). *)
Inductive open_flag : Type := O_RDONLY | O_WRONLY.

Inductive dsp_request : Type :=
| SNDCTL_DSP_SETFMT
| SNDCTL_DSP_CHANNELS
| SNDCTL_DSP_SPEED.

Record audio_buf_info : Type := {
  fragments : Z;
  fragstotal : Z;
  fragsize : Z;
  bytes : Z
}.

(** What the system answers during construction.  [env_ioctl_set] gives
    the value the driver stores back through the argument pointer, or
    [None] when the ioctl returns -1; the two queue queries give the
    filled [audio_buf_info], or [None] when the ioctl does not return
    0. *)
Record init_env : Type := {
  env_calloc_stream : bool;
  env_open : string -> open_flag -> Z;
  env_ioctl_set : Z -> dsp_request -> Z -> option Z;
  env_mutex_init : bool;
  env_getospace : Z -> option audio_buf_info;
  env_getispace : Z -> option audio_buf_info;
  env_calloc_buf : resource -> Z -> Z -> bool
}.

Definition strlcpy (src : string) (size : nat) : string :=
  substring 0 (size - 1) src.

Definition OSS_DEFAULT_DEVICE : string := "/dev/dsp".

Definition set_format (i : stream_info) (f p : Z) : stream_info :=
  {| channels := channels i; sample_rate := sample_rate i; fmt := f; precision := p |}.

Definition oss_copy_params (env : init_env) (d : Z) (params : cubeb_stream_params)
  (sinfo : stream_info) : Z * stream_info :=
  let sinfo1 := {| channels := p_channels params; sample_rate := p_rate params;
                   fmt := fmt sinfo; precision := precision sinfo |} in
  let chosen :=
    match p_format params with
    | CUBEB_SAMPLE_S16LE => Some (AFMT_S16_LE, 16)
    | CUBEB_SAMPLE_S16BE => Some (AFMT_S16_BE, 16)
    | CUBEB_SAMPLE_FLOAT32LE => Some (AFMT_S32_NE, 32)
    | CUBEB_SAMPLE_FLOAT32BE => None
    end in
  match chosen with
  | None => (CUBEB_ERROR_INVALID_FORMAT, sinfo1)
  | Some (f, p) =>
      let sinfo2 := set_format sinfo1 f p in
      match env_ioctl_set env d SNDCTL_DSP_SETFMT (fmt sinfo2) with
      | None => (CUBEB_ERROR, sinfo2)
      | Some f' =>
          let sinfo3 := set_format sinfo2 f' p in
          match env_ioctl_set env d SNDCTL_DSP_CHANNELS (channels sinfo3) with
          | None => (CUBEB_ERROR, sinfo3)
          | Some c' =>
              let sinfo4 := {| channels := c'; sample_rate := sample_rate sinfo3;
                               fmt := fmt sinfo3; precision := precision sinfo3 |} in
              match env_ioctl_set env d SNDCTL_DSP_SPEED (sample_rate sinfo4) with
              | None => (CUBEB_ERROR, sinfo4)
              | Some r' =>
                  (CUBEB_OK,
                   {| channels := channels sinfo4; sample_rate := r';
                      fmt := fmt sinfo4; precision := precision sinfo4 |})
              end
          end
      end
  end.

(** The outcome of a stretch of [oss_stream_init]: [inl] for a jump to
    the [error:] label, [inr] for falling through; either way with the
    value of [ret], the stream as it stands and the events so far. *)
Definition init_step : Type :=
  (Z * cubeb_stream * list event) + (Z * cubeb_stream * list event).

(** The block guarded by [input_stream_params != NULL], and the one for
    the output; [get] and [set] select [s->record] or [s->play]. *)
Definition init_endpoint (env : init_env) (flag : open_flag)
  (params : option cubeb_stream_params)
  (get : cubeb_stream -> oss_stream)
  (set : cubeb_stream -> oss_stream -> cubeb_stream)
  (ret : Z) (s : cubeb_stream) (tr : list event) : init_step :=
  match params with
  | None => inr (ret, s, tr)
  | Some p =>
      if negb (Z.land (p_prefs p) CUBEB_STREAM_PREF_LOOPBACK =? 0) then
        inl (CUBEB_ERROR_NOT_SUPPORTED, s, tr)
      else
        let d := if fd (get s) =? -1 then env_open env (name (get s)) flag
                 else fd (get s) in
        let tr1 := if (fd (get s) =? -1) && negb (d =? -1) then tr ++ [EvOpen d]
                   else tr in
        let s1 := set s (set_fd (get s) d) in
        if d =? -1 then inl (CUBEB_ERROR_DEVICE_UNAVAILABLE, s1, tr1)
        else
          let '(ret1, sinfo) := oss_copy_params env d p (info (get s1)) in
          let s2 := set s1 (set_info (get s1) sinfo) in
          if negb (ret1 =? CUBEB_OK) then inl (ret1, s2, tr1)
          else
            inr (ret1,
                 set s2 (set_floating (get s2)
                           (format_eqb (p_format p) CUBEB_SAMPLE_FLOAT32NE)),
                 tr1)
  end.

(** [int] multiplication; overflow is undefined. *)
Definition imul (a b : Z) : option Z :=
  if in_int32 (a * b) then Some (a * b) else None.

(** [unsigned int nfr = bi.fragstotal * bi.fragsize / frame_size;]: the
    [int] product is converted to [unsigned] for the division. *)
Definition queue_frames (bi : audio_buf_info) (fsize : Z) : option Z :=
  p <- imul (fragstotal bi) (fragsize bi) ;;
  if fsize =? 0 then None else Some (u32 p / fsize).

(** The block guarded by [s->play.fd != -1] (and the one for record):
    [dirnfr] starts at 1 and is raised to the queue capacity. *)
Definition direction_nfr (query : option audio_buf_info) (fsize : Z) : option Z :=
  match query with
  | Some bi =>
      n <- queue_frames bi fsize ;;
      Some (if 1 <? n then n else 1)
  | None => Some 1
  end.

(** [frame_size = channels * (precision / 8)], stored in an [unsigned]. *)
Definition compute_frame_size (i : stream_info) : option Z :=
  p <- imul (channels i) (Z.quot (precision i) 8) ;; Some (u32 p).

Definition zero_info : stream_info :=
  {| channels := 0; sample_rate := 0; fmt := 0; precision := 0 |}.

(** The stream as [calloc] returns it. *)
Definition calloc_stream : cubeb_stream :=
  let e := {| name := EmptyString; fd := 0; buf := None; info := zero_info;
              frame_size := 0; floating := false |} in
  {| thread := 0; running := false; volume := f32_zero; play := e; record := e;
     frames_written := 0; blocks_written := 0; nfr := 0 |}.

Definition set_name (e : oss_stream) (v : string) : oss_stream :=
  {| name := v; fd := fd e; buf := buf e; info := info e;
     frame_size := frame_size e; floating := floating e |}.

Record init_result : Type := {
  i_ret : Z;
  i_stream : option cubeb_stream;
  i_trace : list event
}.

(** The [error:] label: [s] is never null when it is reached from
    below the first allocation. *)
Definition init_error (ret : Z) (s : option cubeb_stream) (tr : list event)
  : init_result :=
  {| i_ret := ret;
     i_stream := None;
     i_trace := tr ++ match s with
                      | Some s' => oss_stream_destroy s'
                      | None => []
                      end |}.

(** From the mutex creation to the end of [oss_stream_init]. *)
Definition init_finish (env : init_env) (ret : Z) (s : cubeb_stream)
  (tr : list event) : option init_result :=
  let s := set_volume s f32_one in
  if negb (env_mutex_init env) then Some (init_error ret (Some s) tr)
  else
    let tr := tr ++ [EvMutexInit] in
    pfs <- compute_frame_size (info (play s)) ;;
    let s := set_play s (set_frame_size (play s) pfs) in
    playnfr <- (if fd (play s) =? -1 then Some 1
                else direction_nfr (env_getospace env (fd (play s))) pfs) ;;
    rfs <- compute_frame_size (info (record s)) ;;
    let s := set_record s (set_frame_size (record s) rfs) in
    recnfr <- (if fd (record s) =? -1 then Some 1
               else direction_nfr (env_getispace env (fd (record s))) rfs) ;;
    let s :=
      if negb (fd (play s) =? -1) && negb (fd (record s) =? -1) then
        set_nfr s (if playnfr <? recnfr then playnfr else recnfr)
      else if negb (fd (play s) =? -1) then set_nfr s playnfr
      else if negb (fd (record s) =? -1) then set_nfr s recnfr
      else s in
    let zeros (n size : Z) := repeat 0 (Z.to_nat (n * size)) in
    let play_alloc :=
      if fd (play s) =? -1 then inr (s, tr)
      else if env_calloc_buf env RPlayBuf (nfr s) pfs then
        inr (set_play s (set_buf (play s) (Some (zeros (nfr s) pfs))),
             tr ++ [EvCalloc RPlayBuf])
      else inl (CUBEB_ERROR, s, tr) in
    match play_alloc with
    | inl (ret1, s1, tr1) => Some (init_error ret1 (Some s1) tr1)
    | inr (s1, tr1) =>
        if fd (record s1) =? -1 then
          Some {| i_ret := CUBEB_OK; i_stream := Some s1; i_trace := tr1 |}
        else if env_calloc_buf env RRecordBuf (nfr s1) rfs then
          Some {| i_ret := CUBEB_OK;
                  i_stream := Some (set_record s1
                                      (set_buf (record s1) (Some (zeros (nfr s1) rfs))));
                  i_trace := tr1 ++ [EvCalloc RRecordBuf] |}
        else Some (init_error CUBEB_ERROR (Some s1) tr1)
    end.

Definition oss_stream_init (env : init_env)
  (input_device : option string) (input_stream_params : option cubeb_stream_params)
  (output_device : option string) (output_stream_params : option cubeb_stream_params)
  : option init_result :=
  let ret := CUBEB_OK in
  if negb (env_calloc_stream env) then Some (init_error CUBEB_ERROR None [])
  else
    let tr := [EvCalloc RStream] in
    let s := calloc_stream in
    let s := set_record s (set_fd (record s) (-1)) in
    let s := set_play s (set_fd (play s) (-1)) in
    let s := set_nfr s OSS_DEFAULT_NFRAMES in
    let s := set_record s (set_name (record s)
               (strlcpy (match input_device with
                         | Some n => n
                         | None => OSS_DEFAULT_DEVICE
                         end) OSS_DEVNODE_SIZE)) in
    let s := set_play s (set_name (play s)
               (strlcpy (match output_device with
                         | Some n => n
                         | None => OSS_DEFAULT_DEVICE
                         end) OSS_DEVNODE_SIZE)) in
    match init_endpoint env O_RDONLY input_stream_params record set_record ret s tr with
    | inl (ret1, s1, tr1) => Some (init_error ret1 (Some s1) tr1)
    | inr (ret1, s1, tr1) =>
        match init_endpoint env O_WRONLY output_stream_params play set_play ret1 s1 tr1 with
        | inl (ret2, s2, tr2) => Some (init_error ret2 (Some s2) tr2)
        | inr (ret2, s2, tr2) => init_finish env ret2 s2 tr2
        end
    end.

(** ** The I/O routine *)

(** What the I/O thread meets while it runs.  The control thread writes
    [running] and [volume] concurrently, so the values the routine reads
    under the mutex in iteration [i] are given by [io_running i] and
    [io_volume i].  [io_data_cb i input nframes] is the application's
    data callback: its return value and the bytes it stores at the start
    of the output buffer, which it only writes.  [io_write k n] is the
    return value of the
    [k]-th [write] when [n] bytes are requested; [io_read k n] is the
    data the [k]-th [read] delivers, or [None] when it returns -1.  The
    system never transfers more than was requested. *)
Record io_env : Type := {
  io_running : nat -> bool;
  io_volume : nat -> float;
  io_data_cb : nat -> list byte -> Z -> Z * list byte;
  io_write : nat -> Z -> Z;
  io_read : nat -> Z -> option (list byte)
}.

(** The variables of the retry loop: [state], [to_write], [to_read],
    the two offsets, [s->frames_written], the record buffer, the number
    of device calls made so far and the events produced. *)
Record xfer : Type := {
  x_state : cubeb_state;
  x_to_write : Z;
  x_to_read : Z;
  x_write_ofs : Z;
  x_read_ofs : Z;
  x_frames_written : Z;
  x_record : list byte;
  x_writes : nat;
  x_reads : nat;
  x_events : list event
}.

Definition in_bounds (ofs n : Z) (b : list byte) : bool :=
  ofs + n <=? Z.of_nat (length b).

(** The bytes the callback stored, laid over the start of the buffer. *)
Definition overwrite (b out : list byte) : list byte :=
  firstn (length b) out ++ skipn (length out) b.

(** [n] bytes of [data] stored at offset [ofs]. *)
Definition store_at (b : list byte) (ofs : Z) (data : list byte) : list byte :=
  firstn (Z.to_nat ofs) b ++ data ++ skipn (Z.to_nat ofs + length data) b.

(** The [if (to_write > 0)] block. *)
Definition write_step (env : io_env) (pfs : Z) (playbuf : list byte) (x : xfer)
  : option xfer :=
  if 0 <? x_to_write x then
    let nbytes := u64 (x_to_write x * pfs) in
    if negb (in_bounds (x_write_ofs x) nbytes playbuf) then None
    else
      let n := Z.min (io_write env (x_writes x) nbytes) nbytes in
      if n <? 0 then
        Some {| x_state := CUBEB_STATE_ERROR;
                x_to_write := x_to_write x; x_to_read := x_to_read x;
                x_write_ofs := x_write_ofs x; x_read_ofs := x_read_ofs x;
                x_frames_written := x_frames_written x; x_record := x_record x;
                x_writes := S (x_writes x); x_reads := x_reads x;
                x_events := x_events x |}
      else if pfs =? 0 then None
      else
        let frames := Z.quot n pfs in
        Some {| x_state := x_state x;
                x_to_write := u64 (x_to_write x - frames);
                x_to_read := x_to_read x;
                x_write_ofs := u64 (x_write_ofs x + n);
                x_read_ofs := x_read_ofs x;
                x_frames_written := u64 (x_frames_written x + frames);
                x_record := x_record x;
                x_writes := S (x_writes x); x_reads := x_reads x;
                x_events := x_events x
                  ++ [EvWrite nbytes
                        (firstn (Z.to_nat n) (skipn (Z.to_nat (x_write_ofs x)) playbuf))] |}
  else Some x.

(** The [if (to_read > 0)] block. *)
Definition read_step (env : io_env) (rfs : Z) (x : xfer) : option xfer :=
  if 0 <? x_to_read x then
    let nbytes := u64 (x_to_read x * rfs) in
    if negb (in_bounds (x_read_ofs x) nbytes (x_record x)) then None
    else
      match io_read env (x_reads x) nbytes with
      | None =>
          Some {| x_state := CUBEB_STATE_ERROR;
                  x_to_write := x_to_write x; x_to_read := x_to_read x;
                  x_write_ofs := x_write_ofs x; x_read_ofs := x_read_ofs x;
                  x_frames_written := x_frames_written x; x_record := x_record x;
                  x_writes := x_writes x; x_reads := S (x_reads x);
                  x_events := x_events x |}
      | Some delivered =>
          let data := firstn (Z.to_nat nbytes) delivered in
          let n := Z.of_nat (length data) in
          if rfs =? 0 then None
          else
            let frames := Z.quot n rfs in
            Some {| x_state := x_state x;
                    x_to_write := x_to_write x;
                    x_to_read := u64 (x_to_read x - frames);
                    x_write_ofs := x_write_ofs x;
                    x_read_ofs := u64 (x_read_ofs x + n);
                    x_frames_written := x_frames_written x;
                    x_record := store_at (x_record x) (x_read_ofs x) data;
                    x_writes := x_writes x; x_reads := S (x_reads x);
                    x_events := x_events x ++ [EvRead nbytes data] |}
      end
  else Some x.

Definition is_error (st : cubeb_state) : bool :=
  cubeb_state_eqb st CUBEB_STATE_ERROR.

(** [while (to_write > 0 || to_read > 0)]: a failed call sets [state]
    and leaves the loop at once.  [fuel] bounds the number of rounds;
    [None] also stands for a run that needs more. *)
Fixpoint retry_loop (env : io_env) (pfs rfs : Z) (playbuf : list byte)
  (fuel : nat) (x : xfer) : option xfer :=
  if (0 <? x_to_write x) || (0 <? x_to_read x) then
    match fuel with
    | O => None
    | S fuel' =>
        w <- write_step env pfs playbuf x ;;
        if is_error (x_state w) then Some w
        else
          r <- read_step env rfs w ;;
          if is_error (x_state r) then Some r
          else retry_loop env pfs rfs playbuf fuel' r
    end
  else Some x.

(** What lives across iterations of the outer loop: the stream (its
    buffers and [frames_written]), [drain], the iteration number, the
    numbers of device calls made and the events so far.  The other
    locals are assigned in every iteration before they are read, and
    [state] is [CUBEB_STATE_STARTED] at the head of every iteration. *)
Record loop_state : Type := {
  l_stream : cubeb_stream;
  l_drain : bool;
  l_iter : nat;
  l_writes : nat;
  l_reads : nat;
  l_trace : list event
}.

(** A conversion applied through a buffer pointer; with a null pointer
    only a conversion of zero samples is defined. *)
Definition convert_buf (f : list byte -> option (list byte)) (b : option (list byte))
  : option (option (list byte)) :=
  match b with
  | Some l => l' <- f l ;; Some (Some l')
  | None => _ <- f [] ;; Some None
  end.

(** The conversion of the produced frames on the playback side. *)
Definition convert_play (e : oss_stream) (cb_nfr : Z) (vol : float)
  : option (option (list byte)) :=
  if floating e then
    convert_buf (fun b => oss_float_to_linear32 b (u32 (channels (info e) * cb_nfr)) vol)
      (buf e)
  else
    convert_buf (fun b => oss_linear16_set_vol b (u32 (channels (info e) * cb_nfr)) vol)
      (buf e).

(** The conversion of the record buffer before the callback sees it. *)
Definition convert_record (s : cubeb_stream) : option (option (list byte)) :=
  if negb (fd (record s) =? -1) && floating (record s) then
    convert_buf (fun b => oss_linear32_to_float b
                            (u32 (channels (info (record s)) * nfr s)))
      (buf (record s))
  else Some (buf (record s)).

(** One pass through the body of [while (state == CUBEB_STATE_STARTED)].
    The result is the value of [state] when the body is left (by a
    [break] or at its end) and the loop state then. *)
Definition io_iteration (env : io_env) (ifuel : nat) (l : loop_state)
  : option (cubeb_state * loop_state) :=
  let s := l_stream l in
  if negb (io_running env (l_iter l)) then Some (CUBEB_STATE_STOPPED, l)
  else if (fd (play s) =? -1) && (fd (record s) =? -1) then
    Some (CUBEB_STATE_STOPPED, l)
  else
    rb <- convert_record s ;;
    let s1 := set_record s (set_buf (record s) rb) in
    let '(cb_nfr, out) := io_data_cb env (l_iter l) (bytes_of rb) (nfr s1) in
    let s2 := set_play s1 (set_buf (play s1)
                             (option_map (fun b => overwrite b out) (buf (play s1)))) in
    let tr1 := l_trace l ++ [EvDataCb (bytes_of rb) (nfr s1) cb_nfr] in
    if cb_nfr =? CUBEB_ERROR then
      Some (CUBEB_STATE_ERROR,
            {| l_stream := s2; l_drain := l_drain l; l_iter := l_iter l;
               l_writes := l_writes l; l_reads := l_reads l; l_trace := tr1 |})
    else
      pb <- (if negb (fd (play s2) =? -1) then
               convert_play (play s2) cb_nfr (io_volume env (l_iter l))
             else Some (buf (play s2))) ;;
      let s3 := set_play s2 (set_buf (play s2) pb) in
      let short := cb_nfr <? nfr s3 in
      if short && (fd (play s3) =? -1) then
        Some (CUBEB_STATE_STOPPED,
              {| l_stream := s3; l_drain := l_drain l; l_iter := l_iter l;
                 l_writes := l_writes l; l_reads := l_reads l; l_trace := tr1 |})
      else
        let drain := if short then true else l_drain l in
        let x0 := {| x_state := CUBEB_STATE_STARTED;
                     x_to_write := if negb (fd (play s3) =? -1) then u64 cb_nfr else 0;
                     x_to_read := if negb (fd (record s3) =? -1) then nfr s3 else 0;
                     x_write_ofs := 0;
                     x_read_ofs := 0;
                     x_frames_written := frames_written s3;
                     x_record := bytes_of (buf (record s3));
                     x_writes := l_writes l;
                     x_reads := l_reads l;
                     x_events := [] |} in
        x <- retry_loop env (frame_size (play s3)) (frame_size (record s3))
               (bytes_of (buf (play s3))) ifuel x0 ;;
        let s4 := set_frames_written
                    (set_record s3
                       (set_buf (record s3)
                          (option_map (fun _ => x_record x) (buf (record s3)))))
                    (x_frames_written x) in
        let l' := {| l_stream := s4; l_drain := drain; l_iter := S (l_iter l);
                     l_writes := x_writes x; l_reads := x_reads x;
                     l_trace := tr1 ++ x_events x |} in
        if drain && negb (is_error (x_state x)) then Some (CUBEB_STATE_DRAINED, l')
        else Some (x_state x, l').

(** [while (state == CUBEB_STATE_STARTED)], for at most [fuel]
    iterations. *)
Fixpoint io_loop (env : io_env) (ifuel fuel : nat) (l : loop_state)
  : option (cubeb_state * loop_state) :=
  match fuel with
  | O => None
  | S fuel' =>
      r <- io_iteration env ifuel l ;;
      if cubeb_state_eqb (fst r) CUBEB_STATE_STARTED
      then io_loop env ifuel fuel' (snd r)
      else Some r
  end.

(** The loop from the head of an iteration to the return of the
    routine, with the final state notification. *)
Definition io_run (env : io_env) (ifuel fuel : nat) (l : loop_state)
  : option (cubeb_state * cubeb_stream * list event) :=
  r <- io_loop env ifuel fuel l ;;
  Some (fst r, l_stream (snd r), l_trace (snd r) ++ [EvStateCb (fst r)]).

(** The head of the first iteration: the locals as initialised and the
    [CUBEB_STATE_STARTED] notification made. *)
Definition loop_start (s : cubeb_stream) : loop_state :=
  {| l_stream := s; l_drain := false; l_iter := 0; l_writes := 0; l_reads := 0;
     l_trace := [EvStateCb CUBEB_STATE_STARTED] |}.

(** [oss_io_routine]; [ifuel] bounds the rounds of each retry loop and
    [fuel] the iterations of the outer loop. *)
Definition oss_io_routine (env : io_env) (ifuel fuel : nat) (s : cubeb_stream)
  : option (cubeb_state * cubeb_stream * list event) :=
  io_run env ifuel fuel (loop_start s).

(** ** Reading a trace *)

Definition written_data (e : event) : list byte :=
  match e with
  | EvWrite _ data => data
  | _ => []
  end.

Definition read_data (e : event) : list byte :=
  match e with
  | EvRead _ data => data
  | _ => []
  end.

(** All bytes the device accepted, in order, and all bytes it delivered. *)
Definition bytes_written (tr : list event) : list byte := flat_map written_data tr.
Definition bytes_read (tr : list event) : list byte := flat_map read_data tr.

Definition is_device_io (e : event) : bool :=
  match e with
  | EvWrite _ _ | EvRead _ _ => true
  | _ => false
  end.

Definition is_state_cb (e : event) : bool :=
  match e with
  | EvStateCb _ => true
  | _ => false
  end.

(** The record buffers handed to the data callback, in order. *)
Fixpoint callback_inputs (tr : list event) : list (list byte) :=
  match tr with
  | [] => []
  | EvDataCb input _ _ :: tr' => input :: callback_inputs tr'
  | _ :: tr' => callback_inputs tr'
  end.

(** A stretch of events without a state notification. *)
Definition quiet (evs : list event) : Prop :=
  Forall (fun e => is_state_cb e = false) evs.

(** ** The block size policy

    A direction's capacity is its queue in frames, at least one frame,
    and one frame when the queue query is not supported. *)
Definition floor_capacity (query : option audio_buf_info) (fsize : Z) : Z :=
  match query with
  | Some bi => Z.max 1 (fragstotal bi * fragsize bi / fsize)
  | None => 1
  end.

(** The block size in the words of the specification: the capacity of
    the one open direction, the smaller capacity when both are open,
    and the default when none is. *)
Definition spec_block_frames (env : init_env) (s : cubeb_stream) : Z :=
  let pcap := floor_capacity (env_getospace env (fd (play s))) (frame_size (play s)) in
  let rcap := floor_capacity (env_getispace env (fd (record s))) (frame_size (record s)) in
  match fd (play s) =? -1, fd (record s) =? -1 with
  | false, false => Z.min pcap rcap
  | false, true => pcap
  | true, false => rcap
  | true, true => OSS_DEFAULT_NFRAMES
  end.

(** The device reports sizes that are not negative. *)
Definition sane_queues (env : init_env) : Prop :=
  forall d bi,
    env_getospace env d = Some bi \/ env_getispace env d = Some bi ->
    0 <= fragstotal bi * fragsize bi.

(** The resources a stream under construction holds: its playback
    buffer, the mutex once created, its open handles and itself. *)
Definition holds (s : cubeb_stream) (mutex : bool) : list resource :=
  (match buf (play s) with Some _ => [RPlayBuf] | None => [] end)
    ++ (if mutex then [RMutex] else [])
    ++ (if fd (play s) =? -1 then [] else [RFd (fd (play s))])
    ++ (if fd (record s) =? -1 then [] else [RFd (fd (record s))])
    ++ [RStream].

(** A stream under construction: not started, no record buffer yet. *)
Definition under_construction (s : cubeb_stream) : Prop :=
  running s = false /\ buf (record s) = None.

(** ** Conditions on the device

    A writer that reports no error and accepts whole frames only, and a
    reader that reports no error and delivers whole frames only; both
    for a frame size that fits an [unsigned int]. *)
Definition good_writer (env : io_env) (pfs : Z) : Prop :=
  0 < pfs < 2 ^ 32
  /\ forall k n, 0 <= io_write env k n /\ (io_write env k n) mod pfs = 0.

Definition good_reader (env : io_env) (rfs : Z) : Prop :=
  0 < rfs < 2 ^ 32
  /\ forall k n, exists data,
       io_read env k n = Some data /\ Z.of_nat (length data) mod rfs = 0.

(** A device that moves at least one byte whenever it is asked to. *)
Definition progressing_writer (env : io_env) : Prop :=
  forall k n, 0 < n -> io_write env k n <> 0.

Definition progressing_reader (env : io_env) : Prop :=
  forall k n, 0 < n -> io_read env k n <> Some [].

(** The same surroundings with other volume readings. *)
Definition with_volume (env : io_env) (vol : nat -> float) : io_env :=
  {| io_running := io_running env;
     io_volume := vol;
     io_data_cb := io_data_cb env;
     io_write := io_write env;
     io_read := io_read env |}.

(** The start of the retry loop of an iteration that is to write
    [to_write] frames and read [to_read] frames. *)
Definition xfer_start (to_write to_read fw : Z) (rec : list byte)
  (writes reads : nat) : xfer :=
  {| x_state := CUBEB_STATE_STARTED;
     x_to_write := to_write; x_to_read := to_read;
     x_write_ofs := 0; x_read_ofs := 0;
     x_frames_written := fw; x_record := rec;
     x_writes := writes; x_reads := reads; x_events := [] |}.

(** What the retry loop has done when it is left without an error,
    having started in [x] and ended in [x']: both counts are used up,
    the offsets have advanced by the requested byte counts, the device
    has accepted exactly the requested slice of the playback buffer and
    delivered the requested number of bytes, and [frames_written] has
    grown by the frames written. *)
Definition retry_done (pfs rfs : Z) (playbuf : list byte) (x x' : xfer) : Prop :=
  x_state x' = CUBEB_STATE_STARTED
  /\ x_to_write x' = 0 /\ x_to_read x' = 0
  /\ x_write_ofs x' = x_write_ofs x + x_to_write x * pfs
  /\ x_read_ofs x' = x_read_ofs x + x_to_read x * rfs
  /\ x_frames_written x' = u64 (x_frames_written x + x_to_write x)
  /\ length (x_record x') = length (x_record x)
  /\ exists evs,
       x_events x' = x_events x ++ evs
       /\ Forall (fun e => is_device_io e = true) evs
       /\ bytes_written evs
          = firstn (Z.to_nat (x_to_write x * pfs))
              (skipn (Z.to_nat (x_write_ofs x)) playbuf)
       /\ Z.of_nat (length (bytes_written evs)) = x_to_write x * pfs
       /\ Z.of_nat (length (bytes_read evs)) = x_to_read x * rfs.

(** ** Two runs that differ in the playback samples only *)

Definition same_shape (a b : option (list byte)) : Prop :=
  option_map (@length byte) a = option_map (@length byte) b.

Definition play_alike (p q : oss_stream) : Prop :=
  fd p = fd q /\ info p = info q /\ frame_size p = frame_size q
  /\ floating p = floating q /\ same_shape (buf p) (buf q).

(** Two loop states that agree on everything the record side can
    depend on: the record endpoint, the shape of the playback endpoint,
    the counters, and the buffers the callback has been given so far. *)
Definition alike (l l' : loop_state) : Prop :=
  record (l_stream l) = record (l_stream l')
  /\ play_alike (play (l_stream l)) (play (l_stream l'))
  /\ nfr (l_stream l) = nfr (l_stream l')
  /\ frames_written (l_stream l) = frames_written (l_stream l')
  /\ l_drain l = l_drain l'
  /\ l_iter l = l_iter l'
  /\ l_writes l = l_writes l'
  /\ l_reads l = l_reads l'
  /\ callback_inputs (l_trace l) = callback_inputs (l_trace l').

Definition xfer_alike (x y : xfer) : Prop :=
  x_state x = x_state y
  /\ x_to_write x = x_to_write y
  /\ x_to_read x = x_to_read y
  /\ x_write_ofs x = x_write_ofs y
  /\ x_read_ofs x = x_read_ofs y
  /\ x_frames_written x = x_frames_written y
  /\ x_record x = x_record y
  /\ x_writes x = x_writes y
  /\ x_reads x = x_reads y
  /\ callback_inputs (x_events x) = callback_inputs (x_events y).

(** ** Concrete streams and environments used as test inputs *)

Definition c9_buffer : list byte :=
  store32 1065353216 ++ store32 3212836864 ++ store32 1056964608 ++ [1; 2; 3; 4].

Definition endpoint (d : Z) (b : option (list byte)) (ch prec fsize : Z) (fl : bool)
  : oss_stream :=
  {| name := OSS_DEFAULT_DEVICE; fd := d; buf := b;
     info := {| channels := ch; sample_rate := 48000; fmt := 0; precision := prec |};
     frame_size := fsize; floating := fl |}.

Definition no_endpoint : oss_stream := endpoint (-1) None 0 0 0 false.

(** A playback-only stream of two 16-bit channels and two frames per
    block; [r] is its [running] flag. *)
Definition play16_stream (r : bool) : cubeb_stream :=
  {| thread := 7; running := r; volume := f32_one;
     play := endpoint 4 (Some (repeat 0 8)) 2 16 4 false;
     record := no_endpoint;
     frames_written := 0; blocks_written := 0; nfr := 2 |}.

(** A duplex stream of the same shape. *)
Definition duplex16_stream (r : bool) : cubeb_stream :=
  {| thread := 7; running := r; volume := f32_one;
     play := endpoint 4 (Some (repeat 0 8)) 2 16 4 false;
     record := endpoint 3 (Some (repeat 0 8)) 2 16 4 false;
     frames_written := 0; blocks_written := 0; nfr := 2 |}.

(** A record-only stream of the same shape. *)
Definition record16_stream (r : bool) : cubeb_stream :=
  {| thread := 7; running := r; volume := f32_one;
     play := no_endpoint;
     record := endpoint 3 (Some (repeat 0 8)) 2 16 4 false;
     frames_written := 0; blocks_written := 0; nfr := 2 |}.

Definition params16 : cubeb_stream_params :=
  {| p_format := CUBEB_SAMPLE_S16LE; p_rate := 48000; p_channels := 2; p_prefs := 0 |}.

(** A system where every call of the construction succeeds, the record
    device is descriptor 3 and the playback device descriptor 4; the
    playback queue is [ospace] and the record queue [ispace]. *)
Definition good_env (mutex_ok : bool) (ospace ispace : option audio_buf_info)
  : init_env :=
  {| env_calloc_stream := true;
     env_open := fun _ f => match f with O_RDONLY => 3 | O_WRONLY => 4 end;
     env_ioctl_set := fun _ _ v => Some v;
     env_mutex_init := mutex_ok;
     env_getospace := fun _ => ospace;
     env_getispace := fun _ => ispace;
     env_calloc_buf := fun _ _ _ => true |}.

Definition queue (total size : Z) : audio_buf_info :=
  {| fragments := total; fragstotal := total; fragsize := size; bytes := total * size |}.

(** A device that accepts 3 bytes on the first [write] and everything it
    is offered afterwards; the application produces one frame per
    block. *)
Definition ragged_env : io_env :=
  {| io_running := fun _ => true;
     io_volume := fun _ => f32_one;
     io_data_cb := fun _ _ _ => (1, [9; 0; 9; 0]);
     io_write := fun k n => match k with O => 3 | _ => n end;
     io_read := fun _ _ => None |}.

(** A device that accepts and delivers one frame of 4 bytes per call;
    the application produces [k] frames per block. *)
Definition steady_env (k : Z) : io_env :=
  {| io_running := fun _ => true;
     io_volume := fun _ => f32_one;
     io_data_cb := fun _ _ _ => (k, [1; 0; 2; 0; 3; 0; 4; 0]);
     io_write := fun _ _ => 4;
     io_read := fun _ _ => Some [5; 6; 7; 8] |}.

(** The same device with a [read] that fails. *)
Definition failing_read_env (k : Z) : io_env :=
  {| io_running := fun _ => true;
     io_volume := fun _ => f32_one;
     io_data_cb := fun _ _ _ => (k, [1; 0; 2; 0; 3; 0; 4; 0]);
     io_write := fun _ _ => 4;
     io_read := fun _ _ => None |}.

Definition f32_half : float := S754_finite false 8388608 (-24).

(** Two full blocks, then the control thread has cleared [running]; the
    device delivers frames that tell the reads apart. *)
Definition two_block_env : io_env :=
  {| io_running := fun i => (i <? 2)%nat;
     io_volume := fun _ => f32_one;
     io_data_cb := fun _ _ _ => (2, [0; 1; 0; 2; 0; 3; 0; 4]);
     io_write := fun _ _ => 4;
     io_read := fun k _ => Some [Z.of_nat k; 6; 7; 8] |}.

(** * Further definitions: the shapes and surroundings that the
      properties of the later part of the development speak about *)

(** ** Constructed streams *)

Definition has_loopback (p : cubeb_stream_params) : bool :=
  negb (Z.land (p_prefs p) CUBEB_STREAM_PREF_LOOPBACK =? 0).

(** The name a device argument resolves to: the argument, or the default
    device for a null pointer, cut to the size of a device node name. *)
Definition resolved_name (device : option string) : string :=
  strlcpy (match device with
           | Some n => n
           | None => OSS_DEFAULT_DEVICE
           end) OSS_DEVNODE_SIZE.

(** The resources a constructed stream holds. *)
Definition owned (s : cubeb_stream) : list resource :=
  (match buf (record s) with Some _ => [RRecordBuf] | None => [] end)
    ++ holds s true.

(** One direction of a stream as construction leaves it for the
    parameters [p]: closed and untouched without parameters, open and
    negotiated with them. *)
Definition negotiated (env : init_env) (flag : open_flag)
  (p : option cubeb_stream_params) (nm : string) (e : oss_stream) : Prop :=
  name e = nm
  /\ match p with
     | None => fd e = -1 /\ info e = zero_info /\ floating e = false
     | Some q =>
         fd e = env_open env nm flag
         /\ fd e <> -1
         /\ has_loopback q = false
         /\ oss_copy_params env (fd e) q zero_info = (CUBEB_OK, info e)
         /\ floating e = format_eqb (p_format q) CUBEB_SAMPLE_FLOAT32NE
     end.

Definition zeros (n : Z) : list byte := repeat 0 (Z.to_nat n).

(** The buffer of a direction: null when closed, [nfr] zeroed frames
    when open. *)
Definition allocated (blk : Z) (e : oss_stream) : Prop :=
  buf e = if fd e =? -1 then None else Some (zeros (blk * frame_size e)).

(** The events of a successful construction. *)
Definition construction_events (s : cubeb_stream) : list event :=
  [EvCalloc RStream]
    ++ (if fd (record s) =? -1 then [] else [EvOpen (fd (record s))])
    ++ (if fd (play s) =? -1 then [] else [EvOpen (fd (play s))])
    ++ [EvMutexInit]
    ++ (if fd (play s) =? -1 then [] else [EvCalloc RPlayBuf])
    ++ (if fd (record s) =? -1 then [] else [EvCalloc RRecordBuf]).

(** The bytes of one sample of a direction. *)
Definition sample_bytes (e : oss_stream) : Z := if floating e then 4 else 2.

Definition is_open (e : event) : bool :=
  match e with EvOpen _ => true | _ => false end.

(** Parameters the backend does not support: a loopback request or
    big-endian float samples. *)
Definition unsupported (p : option cubeb_stream_params) : bool :=
  match p with
  | Some q => has_loopback q || format_eqb (p_format q) CUBEB_SAMPLE_FLOAT32BE
  | None => false
  end.

(** A system on which no device can be opened. *)
Definition no_device_env : init_env :=
  {| env_calloc_stream := true;
     env_open := fun _ _ => -1;
     env_ioctl_set := fun _ _ v => Some v;
     env_mutex_init := true;
     env_getospace := fun _ => None;
     env_getispace := fun _ => None;
     env_calloc_buf := fun _ _ _ => true |}.

Definition params_float : cubeb_stream_params :=
  {| p_format := CUBEB_SAMPLE_FLOAT32NE; p_rate := 44100; p_channels := 2; p_prefs := 0 |}.

Definition params_loopback : cubeb_stream_params :=
  {| p_format := CUBEB_SAMPLE_S16LE; p_rate := 48000; p_channels := 2;
     p_prefs := CUBEB_STREAM_PREF_LOOPBACK |}.

(** The values [oss_stream_init] can return. *)
Definition init_codes : list Z :=
  [CUBEB_OK; CUBEB_ERROR; CUBEB_ERROR_INVALID_FORMAT; CUBEB_ERROR_NOT_SUPPORTED;
   CUBEB_ERROR_DEVICE_UNAVAILABLE].

(** The format of one direction as construction leaves it for the
    parameters [p]: nothing without parameters; with them, the sample
    width follows the requested format, the channel count and the rate
    are the device's answers, and a frame is one sample per channel. *)
Definition direction_format (env : init_env) (p : option cubeb_stream_params)
  (e : oss_stream) : Prop :=
  match p with
  | None => info e = zero_info /\ floating e = false /\ frame_size e = 0
  | Some q =>
      floating e = format_eqb (p_format q) CUBEB_SAMPLE_FLOAT32NE
      /\ precision (info e) = 8 * sample_bytes e
      /\ env_ioctl_set env (fd e) SNDCTL_DSP_CHANNELS (p_channels q)
         = Some (channels (info e))
      /\ env_ioctl_set env (fd e) SNDCTL_DSP_SPEED (p_rate q)
         = Some (sample_rate (info e))
      /\ in_int32 (channels (info e) * sample_bytes e) = true
      /\ frame_size e = u32 (channels (info e) * sample_bytes e)
  end.

(** ** Reading sample buffers *)

(** The [i]-th 16-bit sample of a buffer, as a signed value. *)
Definition sample16_at (buf : list byte) (i : nat) : Z :=
  match skipn (2 * i) buf with
  | b0 :: b1 :: _ => s16 (load16 b0 b1)
  | _ => 0
  end.

(** The four bytes of the [i]-th 32-bit sample of a buffer. *)
Definition bytes32_at (buf : list byte) (i : nat) : list byte :=
  firstn 4 (skipn (4 * i) buf).

(** A buffer of octets. *)
Definition octets (buf : list byte) : Prop := Forall (fun b => 0 <= b < 256) buf.

(** Neither an infinity nor a NaN. *)
Definition finite_float (x : float) : bool :=
  match x with
  | S754_zero _ | S754_finite _ _ _ => true
  | _ => false
  end.

(** Four 16-bit samples followed by two bytes that belong to no sample. *)
Definition pcm16_buffer : list byte := [0; 64; 0; 192; 255; 127; 1; 0; 7; 9].

(** Three float samples, 0.5, -2.0 and the smallest subnormal, followed
    by a byte that belongs to no sample. *)
Definition float_buffer : list byte :=
  store32 1056964608 ++ store32 3221225472 ++ store32 1 ++ [5].

(** Three 32-bit fixed-point samples followed by a byte that belongs to
    no sample. *)
Definition linear32_buffer : list byte :=
  store32 1073741824 ++ store32 2147483648 ++ store32 4294967295 ++ [5].

(** A zero of either sign. *)
Definition is_zero_float (x : float) : bool :=
  match x with
  | S754_zero _ => true
  | _ => false
  end.

(** ** What a run of the I/O routine leaves alone, and what it counts *)

(** One direction with everything but the contents of its buffer. *)
Definition same_endpoint (e e' : oss_stream) : Prop :=
  name e' = name e /\ fd e' = fd e /\ info e' = info e
  /\ frame_size e' = frame_size e /\ floating e' = floating e
  /\ same_shape (buf e') (buf e).

(** A stream with everything but [frames_written] and the contents of
    its buffers. *)
Definition same_layout (s s' : cubeb_stream) : Prop :=
  thread s' = thread s /\ running s' = running s /\ volume s' = volume s
  /\ blocks_written s' = blocks_written s /\ nfr s' = nfr s
  /\ same_endpoint (play s) (play s')
  /\ same_endpoint (record s) (record s').

Definition is_write (e : event) : bool :=
  match e with EvWrite _ _ => true | _ => false end.

Definition is_read (e : event) : bool :=
  match e with EvRead _ _ => true | _ => false end.

(** The whole frames of [pfs] bytes in the bytes a [write] accepted. *)
Definition frames_in (pfs : Z) (e : event) : Z :=
  match e with
  | EvWrite _ data => Z.quot (Z.of_nat (length data)) pfs
  | _ => 0
  end.

(** The sum of these over a trace. *)
Definition frames_accepted (pfs : Z) (tr : list event) : Z :=
  fold_right (fun e acc => frames_in pfs e + acc) 0 tr.

(** A data callback that is handed [len] bytes of input and asked for
    [n] frames. *)
Definition asks_for (len : nat) (n : Z) (e : event) : Prop :=
  match e with
  | EvDataCb input nframes _ => length input = len /\ nframes = n
  | _ => True
  end.

(** A data callback that returns [CUBEB_ERROR]. *)
Definition is_cb_error (e : event) : bool :=
  match e with
  | EvDataCb _ _ ret => ret =? CUBEB_ERROR
  | _ => false
  end.

(** What one pass through the write and read blocks keeps, from [x] to
    [x']: the offsets stay non-negative, the record buffer keeps its
    length, a side with nothing to move stays so and is not touched, the
    state changes to [CUBEB_STATE_ERROR] or not at all, the new events
    are device transfers, and [frames_written] grows, modulo 2^64, by
    the whole frames accepted. *)
Definition xfer_kept (pfs : Z) (x x' : xfer) : Prop :=
  0 <= x_write_ofs x -> 0 <= x_read_ofs x ->
  0 <= x_write_ofs x' /\ 0 <= x_read_ofs x'
  /\ length (x_record x') = length (x_record x)
  /\ (x_state x' = x_state x \/ x_state x' = CUBEB_STATE_ERROR)
  /\ (0 <= x_frames_written x < 2 ^ 64 -> 0 <= x_frames_written x' < 2 ^ 64)
  /\ exists evs,
       x_events x' = x_events x ++ evs
       /\ Forall (fun e => is_device_io e = true) evs
       /\ u64 (x_frames_written x')
          = u64 (x_frames_written x + frames_accepted pfs evs)
       /\ (x_to_write x = 0 ->
           x_to_write x' = 0
           /\ Forall (fun e => is_write e = false) evs
           /\ x_frames_written x' = x_frames_written x)
       /\ (x_to_read x = 0 ->
           x_to_read x' = 0
           /\ Forall (fun e => is_read e = false) evs
           /\ x_record x' = x_record x).

(** What the iterations from [l] to [l'] keep, the last one leaving the
    loop body in state [st]. *)
Definition run_kept (l l' : loop_state) (st : cubeb_state) : Prop :=
  same_layout (l_stream l) (l_stream l')
  /\ (0 <= frames_written (l_stream l) < 2 ^ 64 ->
      0 <= frames_written (l_stream l') < 2 ^ 64)
  /\ exists evs,
       l_trace l' = l_trace l ++ evs
       /\ Forall (asks_for (length (bytes_of (buf (record (l_stream l)))))
                    (nfr (l_stream l))) evs
       /\ u64 (frames_written (l_stream l'))
          = u64 (frames_written (l_stream l)
                 + frames_accepted (frame_size (play (l_stream l))) evs)
       /\ (fd (play (l_stream l)) = -1 -> l_drain l = false ->
           l_drain l' = false
           /\ st <> CUBEB_STATE_DRAINED
           /\ Forall (fun e => is_write e = false) evs
           /\ frames_written (l_stream l') = frames_written (l_stream l))
       /\ (fd (record (l_stream l)) = -1 ->
           Forall (fun e => is_read e = false) evs
           /\ record (l_stream l') = record (l_stream l)).

(** A stream with no open direction. *)
Definition closed_stream : cubeb_stream :=
  {| thread := 7; running := true; volume := f32_one;
     play := no_endpoint; record := no_endpoint;
     frames_written := 0; blocks_written := 0; nfr := OSS_DEFAULT_NFRAMES |}.

(** One full block, then the application reports an error. *)
Definition failing_cb_env : io_env :=
  {| io_running := fun _ => true;
     io_volume := fun _ => f32_one;
     io_data_cb := fun i _ _ =>
       match i with
       | O => (2, [0; 1; 0; 2; 0; 3; 0; 4])
       | _ => (CUBEB_ERROR, [])
       end;
     io_write := fun _ n => n;
     io_read := fun _ n => Some (repeat 9 (Z.to_nat n)) |}.

(** ** Streams and surroundings on which the I/O routine is defined *)

(** One direction as construction leaves it: closed, or with a positive
    frame size of one sample per channel and a buffer of [blk] frames. *)
Definition ready_endpoint (blk : Z) (e : oss_stream) : Prop :=
  fd e = -1
  \/ (0 <= channels (info e)
      /\ frame_size e = channels (info e) * sample_bytes e
      /\ 0 < frame_size e < 2 ^ 32
      /\ exists b, buf e = Some b /\ Z.of_nat (length b) = blk * frame_size e).

(** A stream with 16-bit playback whose directions are laid out so. *)
Definition ready (s : cubeb_stream) : Prop :=
  1 <= nfr s < 2 ^ 32
  /\ 0 <= frames_written s < 2 ^ 64
  /\ ready_endpoint (nfr s) (play s)
  /\ ready_endpoint (nfr s) (record s)
  /\ floating (play s) = false.

(** An application that returns [CUBEB_ERROR] or between 0 and [nfr]
    frames, volumes whose 16-bit multiplier lies between 0 and 0x8000,
    and, for each open direction, a device that reports no error, moves
    whole frames and at least one byte per call. *)
Definition well_behaved (env : io_env) (s : cubeb_stream) : Prop :=
  (forall i input,
     fst (io_data_cb env i input (nfr s)) = CUBEB_ERROR
     \/ 0 <= fst (io_data_cb env i input (nfr s)) <= nfr s)
  /\ (forall i, exists m,
        float_to_int32 (f32mul (io_volume env i) (f32_of_Z 32768)) = Some m
        /\ 0 <= m <= 32768)
  /\ (fd (play s) <> -1 ->
      good_writer env (frame_size (play s)) /\ progressing_writer env)
  /\ (fd (record s) <> -1 ->
      good_reader env (frame_size (record s)) /\ progressing_reader env).

(** ** The current device *)

(** Modelled from the spec: [cubeb_device] of [cubeb.h], the two device
    names a stream reports, each a string or null. *)
Record cubeb_device : Type := {
  output_name : option string;
  input_name : option string
}.

(** [calloc_ok] tells whether the allocation of the [cubeb_device]
    succeeds, and [strdup] answers each duplication: the copy, or
    [None] for a null result, which the function stores unchecked. *)
Definition oss_get_current_device (calloc_ok : bool)
  (strdup : string -> option string) (stream : cubeb_stream)
  : Z * option cubeb_device :=
  if negb calloc_ok then (CUBEB_ERROR, None)
  else
    (CUBEB_OK,
     Some {| input_name := if negb (fd (record stream) =? -1)
                           then strdup (name (record stream)) else None;
             output_name := if negb (fd (play stream) =? -1)
                            then strdup (name (play stream)) else None |}).

(** ** Volumes *)

(** A value of the C type [float]: a zero, an infinity, a NaN, or a
    finite number in its normalised binary32 representation. *)
Definition is_float (x : float) : bool := valid_binary 24 128 x.

Definition is_nan (x : float) : bool :=
  match x with
  | S754_nan => true
  | _ => false
  end.

(** The 16-bit multiplier [vol * 0x8000] of a volume. *)
Definition multiplier16 (vol : float) : option Z :=
  float_to_int32 (f32mul vol (f32_of_Z 32768)).

Definition f32_three_quarters : float := S754_finite false 12582912 (-24).
Definition f32_minus_two : float := S754_finite true 8388608 (-22).

(** ** The way of the recorded samples *)

(** What the device has delivered since the last data callback, along a
    trace: [feed pending tr] gives, for every data callback in [tr], the
    bytes read before it and after the previous one ([pending] for the
    first), and the bytes read after the last callback. *)
Fixpoint feed (pending : list byte) (tr : list event)
  : list (list byte) * list byte :=
  match tr with
  | [] => ([], pending)
  | EvDataCb _ _ _ :: tr' =>
      let '(blocks, rest) := feed [] tr' in (pending :: blocks, rest)
  | EvRead _ data :: tr' => feed (pending ++ data) tr'
  | _ :: tr' => feed pending tr'
  end.

(** The record buffer as the data callback is given it: converted to
    float samples in place on a float stream, as it is otherwise. *)
Definition record_view (s : cubeb_stream) (raw : list byte) : option (list byte) :=
  if floating (record s) then
    oss_linear32_to_float raw (u32 (channels (info (record s)) * nfr s))
  else Some raw.

(** A duplex stream with float samples on the record side: one channel,
    two frames per block. *)
Definition float_record_stream : cubeb_stream :=
  {| thread := 7; running := true; volume := f32_one;
     play := endpoint 4 (Some (repeat 0 8)) 2 16 4 false;
     record := endpoint 3 (Some (repeat 0 8)) 1 32 4 true;
     frames_written := 0; blocks_written := 0; nfr := 2 |}.

(** Two blocks, then [running] is cleared; every [read] delivers one
    frame, the sample 0x40000000. *)
Definition float_record_env : io_env :=
  {| io_running := fun i => (i <? 2)%nat;
     io_volume := fun _ => f32_one;
     io_data_cb := fun _ _ _ => (2, [0; 1; 0; 2; 0; 3; 0; 4]);
     io_write := fun _ _ => 4;
     io_read := fun _ _ => Some [0; 0; 0; 64] |}.

(** The start of the record buffer holds what the reads of the retry
    loop have delivered so far. *)
Definition filled (x : xfer) (evs : list event) : Prop :=
  0 <= x_read_ofs x <= Z.of_nat (length (x_record x))
  /\ firstn (Z.to_nat (x_read_ofs x)) (x_record x) = bytes_read evs.

(** The trace [tr] of a run on the stream [s0] accounts for every
    callback input so far, and [rest] has been read since the last
    callback. *)
Definition accounted_for (s0 : cubeb_stream) (tr : list event) (rest : list byte)
  : Prop :=
  exists blocks,
    feed (bytes_of (buf (record s0))) tr = (blocks, rest)
    /\ Forall2 (fun raw input => record_view s0 raw = Some input)
         blocks (callback_inputs tr).

(** ** Latencies *)

Definition OSS_LATENCY_MS : Z := 40.

(** [oss_get_min_latency]: the product is taken in [unsigned]. *)
Definition oss_get_min_latency (params : cubeb_stream_params) : Z * Z :=
  (CUBEB_OK, u32 (OSS_LATENCY_MS * p_rate params) / 1000).

(** [oss_stream_get_latency]; [getodelay d] answers the
    [SNDCTL_DSP_GETODELAY] request on descriptor [d] with the number of
    queued bytes, or [None] when the ioctl returns -1.  The quotient is
    taken in [unsigned]; with a frame size of 0 it is undefined.  The
    result is the return value and what is stored through [latency]. *)
Definition oss_stream_get_latency (getodelay : Z -> option Z) (s : cubeb_stream)
  : option (Z * option Z) :=
  match getodelay (fd (play s)) with
  | None => Some (CUBEB_ERROR, None)
  | Some delay =>
      if frame_size (play s) =? 0 then None
      else Some (CUBEB_OK, Some (u32 delay / frame_size (play s)))
  end.

(** A system whose playback queue on descriptor 4 holds 1000 bytes. *)
Definition queued_1000 (d : Z) : option Z := if d =? 4 then Some 1000 else None.

(** ** Device enumeration, in the build for systems other than FreeBSD *)

(** Modelled from the spec: [cubeb_device_type] of [cubeb.h], used as a
    bit mask. *)
Definition CUBEB_DEVICE_TYPE_INPUT : Z := 1.
Definition CUBEB_DEVICE_TYPE_OUTPUT : Z := 2.

(** Modelled from the spec: the device states, preferences and formats
    of [cubeb.h]; the native 16-bit format is the little-endian one on
    the hosts considered. *)
Inductive cubeb_device_state : Type :=
| CUBEB_DEVICE_STATE_DISABLED
| CUBEB_DEVICE_STATE_UNPLUGGED
| CUBEB_DEVICE_STATE_ENABLED.

Inductive cubeb_device_pref : Type :=
| CUBEB_DEVICE_PREF_NONE
| CUBEB_DEVICE_PREF_MULTIMEDIA
| CUBEB_DEVICE_PREF_VOICE
| CUBEB_DEVICE_PREF_NOTIFICATION
| CUBEB_DEVICE_PREF_ALL.

Inductive cubeb_device_fmt : Type :=
| CUBEB_DEVICE_FMT_S16LE
| CUBEB_DEVICE_FMT_S16BE
| CUBEB_DEVICE_FMT_F32LE
| CUBEB_DEVICE_FMT_F32BE.

Definition CUBEB_DEVICE_FMT_S16NE : cubeb_device_fmt := CUBEB_DEVICE_FMT_S16LE.

Definition OSS_PREFER_RATE : Z := 48000.

(** A string on the heap: the [strdup] that made it, given by the index
    of the device and the number of the call for that device, and its
    text. *)
Record heap_string : Type := {
  hs_dev : Z;
  hs_call : nat;
  hs_text : string
}.

(** Modelled from the spec: [cubeb_device_info] of [cubeb.h]; [devid]
    is the interned identifier, which the context owns. *)
Record cubeb_device_info : Type := {
  devid : option string;
  device_id : option heap_string;
  friendly_name : option heap_string;
  group_id : option heap_string;
  vendor_name : option heap_string;
  type : Z;
  state : cubeb_device_state;
  preferred : cubeb_device_pref;
  format : cubeb_device_fmt;
  default_format : cubeb_device_fmt;
  max_channels : Z;
  default_rate : Z;
  max_rate : Z;
  min_rate : Z;
  latency_lo : Z;
  latency_hi : Z
}.

(** Modelled from the spec: the fields of [oss_audioinfo]
    ([sys/soundcard.h]) that the backend reads. *)
Record oss_audioinfo : Type := {
  ai_dev : Z;
  ai_enabled : Z;
  ai_caps : Z;
  ai_name : string;
  ai_devnode : string;
  ai_max_channels : Z;
  ai_min_rate : Z;
  ai_max_rate : Z
}.

(** What the system answers during an enumeration: the descriptor
    [open] returns for the mixer, or -1; [numaudios] of
    [SNDCTL_SYSINFO], or [None] when that ioctl does not return 0;
    whether [calloc] yields the array; the [oss_audioinfo] for a device
    index, or [None] when [SNDCTL_AUDIOINFO] does not return 0; the
    interned device identifier, or [None] for a null result; and
    whether the [strdup] with a given number for a given device
    succeeds. *)
Record enum_env : Type := {
  en_open_mixer : Z;
  en_sysinfo : option Z;
  en_calloc : Z -> bool;
  en_audioinfo : Z -> option oss_audioinfo;
  en_intern : string -> option string;
  en_strdup : Z -> nat -> bool
}.

Inductive enum_resource : Type :=
| EnMixer (d : Z)
| EnArray
| EnString (dev : Z) (call : nat).

Inductive enum_event : Type :=
| EnOpen (d : Z)
| EnClose (d : Z)
| EnCalloc
| EnFree
| EnStrdup (dev : Z) (call : nat)
| EnFreeString (dev : Z) (call : nat).

Definition enum_resource_eqb (a b : enum_resource) : bool :=
  match a, b with
  | EnMixer x, EnMixer y => x =? y
  | EnArray, EnArray => true
  | EnString i j, EnString i' j' => (i =? i') && Nat.eqb j j'
  | _, _ => false
  end.

Definition enum_acquired (e : enum_event) : option enum_resource :=
  match e with
  | EnOpen d => Some (EnMixer d)
  | EnCalloc => Some EnArray
  | EnStrdup i j => Some (EnString i j)
  | _ => None
  end.

Definition enum_released (e : enum_event) : option enum_resource :=
  match e with
  | EnClose d => Some (EnMixer d)
  | EnFree => Some EnArray
  | EnFreeString i j => Some (EnString i j)
  | _ => None
  end.

Fixpoint enum_remove_one (r : enum_resource) (l : list enum_resource)
  : list enum_resource :=
  match l with
  | [] => []
  | x :: l' => if enum_resource_eqb r x then l' else x :: enum_remove_one r l'
  end.

(** The resources still held after a sequence of events. *)
Fixpoint enum_held_after (held : list enum_resource) (tr : list enum_event)
  : list enum_resource :=
  match tr with
  | [] => held
  | e :: tr' =>
      let held1 := match enum_acquired e with Some r => r :: held | None => held end in
      let held2 := match enum_released e with
                   | Some r => enum_remove_one r held1
                   | None => held1
                   end in
      enum_held_after held2 tr'
  end.

(** [free] of a string pointer; nothing happens for a null pointer. *)
Definition free_string (p : option heap_string) : list enum_event :=
  match p with
  | Some h => [EnFreeString (hs_dev h) (hs_call h)]
  | None => []
  end.

(** [oss_free_cubeb_device_info_strings]: the events, and the entry
    with its three names null. *)
Definition oss_free_cubeb_device_info_strings (cdi : cubeb_device_info)
  : cubeb_device_info * list enum_event :=
  ({| devid := devid cdi; device_id := None; friendly_name := None;
      group_id := None; vendor_name := vendor_name cdi; type := type cdi;
      state := state cdi; preferred := preferred cdi; format := format cdi;
      default_format := default_format cdi; max_channels := max_channels cdi;
      default_rate := default_rate cdi; max_rate := max_rate cdi;
      min_rate := min_rate cdi; latency_lo := latency_lo cdi;
      latency_hi := latency_hi cdi |},
   free_string (device_id cdi) ++ free_string (friendly_name cdi)
     ++ free_string (group_id cdi)).

(** [strdup] of [text], as call number [call] for device [i]. *)
Definition strdup_for (env : enum_env) (i : Z) (call : nat) (text : string)
  : option heap_string * list enum_event :=
  if en_strdup env i call
  then (Some {| hs_dev := i; hs_call := call; hs_text := text |}, [EnStrdup i call])
  else (None, []).

(** What the body of the loop does with one device. *)
Inductive scan : Type :=
| ScanSkip (events : list enum_event)
| ScanTake (cdi : cubeb_device_info) (events : list enum_event)
| ScanFail
| ScanAbort.

Section Enumeration.

(** Modelled from the spec: the capability bits of [sys/soundcard.h],
    whose values differ between systems, and whether [assert] is
    compiled out. *)
Variables DSP_CAP_DUPLEX DSP_CAP_INPUT DSP_CAP_OUTPUT : Z.
Variable NDEBUG : bool.

(** The [switch] on the capabilities: whether the body goes on. *)
Definition caps_admit (caps type : Z) : bool :=
  let c := Z.land caps DSP_CAP_DUPLEX in
  if c =? DSP_CAP_INPUT then Z.land type CUBEB_DEVICE_TYPE_OUTPUT =? 0
  else if c =? DSP_CAP_OUTPUT then Z.land type CUBEB_DEVICE_TYPE_INPUT =? 0
  else negb (c =? 0).

Definition scan_device (env : enum_env) (type numaudios i : Z) : scan :=
  match en_audioinfo env i with
  | None => ScanFail
  | Some ai =>
      if negb NDEBUG && negb (ai_dev ai <? numaudios) then ScanAbort
      else if ai_enabled ai =? 0 then ScanSkip []
      else if negb (caps_admit (ai_caps ai) type) then ScanSkip []
      else
        let id := en_intern env (ai_devnode ai) in
        let '(s0, e0) := strdup_for env i 0 (ai_name ai) in
        let '(s1, e1) := strdup_for env i 1 (ai_name ai) in
        let '(s2, e2) := strdup_for env i 2 (ai_name ai) in
        let cdi := {| devid := None; device_id := s0; friendly_name := s1;
                      group_id := s2; vendor_name := None; type := type;
                      state := CUBEB_DEVICE_STATE_DISABLED;
                      preferred := CUBEB_DEVICE_PREF_NONE;
                      format := CUBEB_DEVICE_FMT_S16LE;
                      default_format := CUBEB_DEVICE_FMT_S16LE;
                      max_channels := 0; default_rate := 0; max_rate := 0;
                      min_rate := 0; latency_lo := 0; latency_hi := 0 |} in
        match id, s0, s1, s2 with
        | Some d, Some _, Some _, Some _ =>
            ScanTake
              {| devid := Some d; device_id := s0; friendly_name := s1;
                 group_id := s2; vendor_name := None; type := type;
                 state := CUBEB_DEVICE_STATE_ENABLED;
                 preferred := CUBEB_DEVICE_PREF_NONE;
                 format := CUBEB_DEVICE_FMT_S16NE;
                 default_format := CUBEB_DEVICE_FMT_S16NE;
                 max_channels := u32 (ai_max_channels ai);
                 default_rate := OSS_PREFER_RATE;
                 max_rate := u32 (ai_max_rate ai);
                 min_rate := u32 (ai_min_rate ai);
                 latency_lo := 0; latency_hi := 0 |}
              (e0 ++ e1 ++ e2)
        | _, _, _, _ =>
            ScanSkip ((e0 ++ e1 ++ e2)
                        ++ snd (oss_free_cubeb_device_info_strings cdi))
        end
  end.

(** The outcome of the loop: the entries stored, a jump to [fail], or
    a failed assertion. *)
Inductive scanned : Type :=
| Scanned (devices : list cubeb_device_info)
| ScanFailed
| ScanAborted.

(** [for (i = 0; i < si.numaudios; i++)], from index [i] on with
    [count] devices to go. *)
Fixpoint scan_devices (env : enum_env) (type numaudios : Z) (count : nat) (i : Z)
  (devices : list cubeb_device_info) (tr : list enum_event)
  : scanned * list enum_event :=
  match count with
  | O => (Scanned devices, tr)
  | S count' =>
      match scan_device env type numaudios i with
      | ScanFail => (ScanFailed, tr)
      | ScanAbort => (ScanAborted, tr)
      | ScanSkip ev =>
          scan_devices env type numaudios count' (i + 1) devices (tr ++ ev)
      | ScanTake cdi ev =>
          scan_devices env type numaudios count' (i + 1) (devices ++ [cdi]) (tr ++ ev)
      end
  end.

(** The result of [oss_enumerate_devices]: the return value and the
    collection handed out, or [None] when an assertion stopped the
    program; with the events. *)
Definition oss_enumerate_devices (env : enum_env) (type : Z)
  : option (Z * option (list cubeb_device_info)) * list enum_event :=
  let mixer_fd := en_open_mixer env in
  if mixer_fd =? -1 then (Some (CUBEB_ERROR, None), [])
  else
    let tr := [EnOpen mixer_fd] in
    match en_sysinfo env with
    | None => (Some (CUBEB_ERROR, None), tr ++ [EnClose mixer_fd])
    | Some numaudios =>
        if negb (en_calloc env numaudios) then
          (Some (CUBEB_ERROR, None), tr ++ [EnClose mixer_fd])
        else
          match scan_devices env type numaudios (Z.to_nat numaudios) 0 []
                  (tr ++ [EnCalloc]) with
          | (Scanned devices, tr1) =>
              (Some (CUBEB_OK, Some devices), tr1 ++ [EnClose mixer_fd])
          | (ScanFailed, tr1) =>
              (Some (CUBEB_ERROR, None), tr1 ++ [EnClose mixer_fd; EnFree])
          | (ScanAborted, tr1) => (None, tr1)
          end
    end.

End Enumeration.

(** [oss_device_collection_destroy]: the return value and the events;
    the collection is left empty. *)
Definition oss_device_collection_destroy (collection : list cubeb_device_info)
  : Z * list enum_event :=
  (0, flat_map (fun cdi => snd (oss_free_cubeb_device_info_strings cdi)) collection
        ++ [EnFree]).

(** The index of the device an entry was made for. *)
Definition entry_dev (cdi : cubeb_device_info) : Z :=
  match device_id cdi with
  | Some h => hs_dev h
  | None => -1
  end.

(** The indices [from], [from + 1], ..., [count] of them. *)
Fixpoint indices (from : Z) (count : nat) : list Z :=
  match count with
  | O => []
  | S count' => from :: indices (from + 1) count'
  end.

(** Whether the loop stores an entry for the device with index [i]:
    the device is enabled, its capabilities pass the [switch], and the
    interning and the three duplications succeed. *)
Definition listed (DSP_CAP_DUPLEX DSP_CAP_INPUT DSP_CAP_OUTPUT : Z)
  (env : enum_env) (type i : Z) : bool :=
  match en_audioinfo env i with
  | Some ai =>
      negb (ai_enabled ai =? 0)
      && caps_admit DSP_CAP_DUPLEX DSP_CAP_INPUT DSP_CAP_OUTPUT (ai_caps ai) type
      && (match en_intern env (ai_devnode ai) with Some _ => true | None => false end)
      && en_strdup env i 0 && en_strdup env i 1 && en_strdup env i 2
  | None => false
  end.

Definition text_of (p : option heap_string) : option string :=
  option_map hs_text p.

(** An entry as the loop fills it for the device with index [i]. *)
Definition describes (env : enum_env) (requested : Z) (i : Z)
  (cdi : cubeb_device_info) : Prop :=
  exists ai,
    en_audioinfo env i = Some ai
    /\ entry_dev cdi = i
    /\ type cdi = requested
    /\ devid cdi = en_intern env (ai_devnode ai) /\ devid cdi <> None
    /\ text_of (device_id cdi) = Some (ai_name ai)
    /\ text_of (friendly_name cdi) = Some (ai_name ai)
    /\ text_of (group_id cdi) = Some (ai_name ai)
    /\ vendor_name cdi = None
    /\ state cdi = CUBEB_DEVICE_STATE_ENABLED
    /\ preferred cdi = CUBEB_DEVICE_PREF_NONE
    /\ format cdi = CUBEB_DEVICE_FMT_S16NE
    /\ default_format cdi = CUBEB_DEVICE_FMT_S16NE
    /\ max_channels cdi = u32 (ai_max_channels ai)
    /\ default_rate cdi = OSS_PREFER_RATE
    /\ max_rate cdi = u32 (ai_max_rate ai)
    /\ min_rate cdi = u32 (ai_min_rate ai)
    /\ latency_lo cdi = 0 /\ latency_hi cdi = 0.

(** The heap strings of an entry, in the order in which they were made. *)
Definition strings_of (cdi : cubeb_device_info) : list enum_resource :=
  flat_map (fun p => match p with
                     | Some h => [EnString (hs_dev h) (hs_call h)]
                     | None => []
                     end)
    [device_id cdi; friendly_name cdi; group_id cdi].

Definition is_enum_string (r : enum_resource) : bool :=
  match r with
  | EnString _ _ => true
  | _ => false
  end.

(** A mixer with three devices: an enabled duplex one, a disabled one
    and an enabled one without capabilities; every call succeeds. *)
Definition three_devices : enum_env :=
  {| en_open_mixer := 5;
     en_sysinfo := Some 3;
     en_calloc := fun _ => true;
     en_audioinfo := fun i =>
       Some {| ai_dev := i;
               ai_enabled := if i =? 1 then 0 else 1;
               ai_caps := if i =? 0 then 256 else 0;
               ai_name := "pcm"; ai_devnode := "/dev/dsp0";
               ai_max_channels := 2; ai_min_rate := 8000; ai_max_rate := 96000 |};
     en_intern := fun n => Some n;
     en_strdup := fun _ _ => true |}.

(** The event that gives a resource back. *)
Definition release_event (r : enum_resource) : enum_event :=
  match r with
  | EnMixer d => EnClose d
  | EnArray => EnFree
  | EnString i j => EnFreeString i j
  end.

(** The three heap strings of the entry for device [i]. *)
Definition entry_strings (i : Z) : list enum_resource :=
  [EnString i 0; EnString i 1; EnString i 2].

(** * Properties *)

(** ** Machine integers and memory *)

Lemma u32_range (x : Z) : 0 <= u32 x < 2 ^ 32.
Proof. unfold u32. apply Z.mod_pos_bound. lia. Qed.

Lemma u64_range (x : Z) : 0 <= u64 x < 2 ^ 64.
Proof. unfold u64. apply Z.mod_pos_bound. lia. Qed.

Lemma u32_small (x : Z) : 0 <= x < 2 ^ 32 -> u32 x = x.
Proof. intros H. unfold u32. now apply Z.mod_small. Qed.

Lemma u64_small (x : Z) : 0 <= x < 2 ^ 64 -> u64 x = x.
Proof. intros H. unfold u64. now apply Z.mod_small. Qed.

Lemma s32_u32 (x : Z) : - 2 ^ 31 <= x < 2 ^ 31 -> s32 (u32 x) = x.
Proof.
  intros H. unfold s32, u32.
  rewrite Z.add_mod_idemp_l by lia.
  rewrite Z.mod_small by lia. lia.
Qed.

Lemma load32_store32 (x : Z) :
  0 <= x < 2 ^ 32 ->
  match store32 x with
  | [b0; b1; b2; b3] => load32 b0 b1 b2 b3 = x
  | _ => False
  end.
Proof.
  intros H. unfold store32, load32.
  assert (H3 : (x / 16777216) mod 256 = x / 16777216).
  { apply Z.mod_small. split.
    - apply Z.div_pos; lia.
    - apply Z.div_lt_upper_bound; lia. }
  rewrite H3.
  pose proof (Z.div_mod x 256 ltac:(lia)) as E0.
  pose proof (Z.div_mod (x / 256) 256 ltac:(lia)) as E1.
  pose proof (Z.div_mod (x / 65536) 256 ltac:(lia)) as E2.
  rewrite Z.div_div in E1 by lia.
  rewrite Z.div_div in E2 by lia.
  change (256 * 256) with 65536 in E1.
  change (65536 * 256) with 16777216 in E2.
  lia.
Qed.

Lemma word32_at_next (a b c d : byte) (l : list byte) (i : nat) :
  word32_at (a :: b :: c :: d :: l) (S i) = word32_at l i.
Proof.
  unfold word32_at.
  replace (4 * S i)%nat with (4 + 4 * i)%nat by lia.
  reflexivity.
Qed.

Lemma word32_at_store32 (x : Z) (l : list byte) :
  0 <= x < 2 ^ 32 -> word32_at (store32 x ++ l) 0 = x.
Proof.
  intros H. pose proof (load32_store32 x H) as L.
  unfold store32 in *. exact L.
Qed.

(** ** The clamp of the float-to-fixed converter *)

Lemma clamp_linear32_range (f : Z) : - INT32_MAX <= clamp_linear32 f <= INT32_MAX.
Proof.
  unfold clamp_linear32, INT32_MAX.
  destruct (f <? - (2 ^ 31 - 1)) eqn:E1; [lia|].
  destruct (2 ^ 31 - 1 <? f) eqn:E2; lia.
Qed.

Lemma clamp_linear32_cases (f : Z) :
  (f < - INT32_MAX /\ clamp_linear32 f = - INT32_MAX)
  \/ (INT32_MAX < f /\ clamp_linear32 f = INT32_MAX)
  \/ (- INT32_MAX <= f <= INT32_MAX /\ clamp_linear32 f = f).
Proof.
  unfold clamp_linear32, INT32_MAX.
  destruct (f <? - (2 ^ 31 - 1)) eqn:E1; [left; lia|].
  destruct (2 ^ 31 - 1 <? f) eqn:E2; [right; left; lia | right; right; lia].
Qed.

(** The stored 32-bit pattern reads back, as an [int32_t], as the
    clamped value: nothing wraps. *)
Lemma stored_sample_reads_back (f : Z) (l : list byte) :
  s32 (word32_at (store32 (u32 (clamp_linear32 f)) ++ l) 0) = clamp_linear32 f.
Proof.
  rewrite word32_at_store32 by apply u32_range.
  apply s32_u32.
  pose proof (clamp_linear32_range f). unfold INT32_MAX in *. lia.
Qed.

Section FloatToLinear32.

Variable vol : float.

Lemma float_to_linear32_loop_length (count : nat) :
  forall buf buf',
    float_to_linear32_loop buf count vol = Some buf' ->
    length buf' = length buf.
Proof.
  induction count as [|count IH]; intros buf buf' H; cbn [float_to_linear32_loop] in H.
  - injection H as <-; reflexivity.
  - destruct buf as [|b0 [|b1 [|b2 [|b3 rest]]]]; try discriminate.
    destruct (scale_to_linear32 _ vol) as [f|]; cbn [obind] in H; [|discriminate].
    destruct (float_to_linear32_loop rest count vol) as [rest'|] eqn:E;
      cbn [obind] in H; [|discriminate].
    inversion H; subst. cbn [store32 app length]. now rewrite (IH _ _ E).
Qed.

Lemma float_to_linear32_loop_defined (count : nat) :
  forall buf,
    (4 * count <= length buf)%nat ->
    (forall i, (i < count)%nat -> sample_defined vol buf i) ->
    exists buf', float_to_linear32_loop buf count vol = Some buf'.
Proof.
  induction count as [|count IH]; intros buf Hlen Hdef; cbn [float_to_linear32_loop].
  - now exists buf.
  - destruct buf as [|b0 [|b1 [|b2 [|b3 rest]]]]; simpl in Hlen; try lia.
    pose proof (Hdef 0%nat ltac:(lia)) as H0.
    unfold sample_defined, word32_at in H0. cbn [Nat.mul skipn] in H0.
    destruct (scale_to_linear32 _ vol) as [f|]; [|congruence]. cbn [obind].
    destruct (IH rest) as [rest' E].
    + lia.
    + intros i Hi. specialize (Hdef (S i) ltac:(lia)).
      unfold sample_defined in *. now rewrite word32_at_next in Hdef.
    + rewrite E. cbn [obind]. eauto.
Qed.

Lemma float_to_linear32_loop_tail (count : nat) :
  forall buf buf',
    float_to_linear32_loop buf count vol = Some buf' ->
    skipn (4 * count) buf' = skipn (4 * count) buf.
Proof.
  induction count as [|count IH]; intros buf buf' H; cbn [float_to_linear32_loop] in H.
  - injection H as <-; reflexivity.
  - destruct buf as [|b0 [|b1 [|b2 [|b3 rest]]]]; try discriminate.
    destruct (scale_to_linear32 _ vol) as [f|]; cbn [obind] in H; [|discriminate].
    destruct (float_to_linear32_loop rest count vol) as [rest'|] eqn:E;
      cbn [obind] in H; [|discriminate].
    inversion H; subst.
    replace (4 * S count)%nat with (4 + 4 * count)%nat by lia.
    cbn [store32 app Nat.add skipn]. now apply IH.
Qed.

Lemma float_to_linear32_loop_sample (count : nat) :
  forall buf buf' i,
    float_to_linear32_loop buf count vol = Some buf' ->
    (i < count)%nat ->
    exists f,
      scale_to_linear32 (bits_to_float (word32_at buf i)) vol = Some f
      /\ s32 (word32_at buf' i) = clamp_linear32 f.
Proof.
  induction count as [|count IH]; intros buf buf' i H Hi; [lia|].
  cbn [float_to_linear32_loop] in H.
  destruct buf as [|b0 [|b1 [|b2 [|b3 rest]]]]; try discriminate.
  destruct (scale_to_linear32 _ vol) as [f|] eqn:Ef; cbn [obind] in H; [|discriminate].
  destruct (float_to_linear32_loop rest count vol) as [rest'|] eqn:E;
    cbn [obind] in H; [|discriminate].
  inversion H; subst. destruct i as [|i].
  - exists f. split.
    + unfold word32_at. cbn [Nat.mul skipn]. exact Ef.
    + apply stored_sample_reads_back.
  - rewrite word32_at_next.
    change (store32 (u32 (clamp_linear32 f)) ++ rest')
      with (u32 (clamp_linear32 f) mod 256
            :: (u32 (clamp_linear32 f) / 256) mod 256
            :: (u32 (clamp_linear32 f) / 65536) mod 256
            :: (u32 (clamp_linear32 f) / 16777216) mod 256 :: rest').
    rewrite word32_at_next. apply (IH rest rest' i E). lia.
Qed.

End FloatToLinear32.



(** ** Stream control *)

(** C8.  On a stream whose [running] flag is false, [oss_stream_stop]
    changes nothing in the stream, joins nothing and returns
    [CUBEB_OK]; and after any stop a second stop is such a call, so two
    stops in a row leave the stream that one stop leaves. *)
Theorem oss_stream_stop_idempotent (s : cubeb_stream) :
  (running s = false ->
   oss_stream_stop s = (s, [EvMutexLock; EvMutexUnlock], CUBEB_OK))
  /\ (let '(s1, _, ret1) := oss_stream_stop s in
      ret1 = CUBEB_OK
      /\ running s1 = false
      /\ oss_stream_stop s1 = (s1, [EvMutexLock; EvMutexUnlock], CUBEB_OK)).
Proof.
  split.
  - intros H. unfold oss_stream_stop. now rewrite H.
  - unfold oss_stream_stop at 1. destruct (running s) eqn:R.
    + repeat split.
    + repeat split; [exact R|]. unfold oss_stream_stop. now rewrite R.
Qed.

Lemma oss_stream_stop_idempotent_witness :
  running (play16_stream false) = false
  /\ oss_stream_stop (play16_stream false)
     = (play16_stream false, [EvMutexLock; EvMutexUnlock], CUBEB_OK)
  /\ fst (fst (oss_stream_stop (fst (fst (oss_stream_stop (play16_stream true))))))
     = fst (fst (oss_stream_stop (play16_stream true))).
Proof.
  split; [reflexivity|]. split.
  - apply (proj1 (oss_stream_stop_idempotent (play16_stream false))). reflexivity.
  - reflexivity.
Defined.

(** C5.  When [pthread_create] fails, [oss_stream_start] returns
    [CUBEB_ERROR] but has already set [running]: the stream is left as a
    started one, and the next [oss_stream_stop] clears the flag and
    joins a thread that was never created. *)
Theorem oss_stream_start_failure_leaves_running (s : cubeb_stream) :
  oss_stream_start None s = (set_running s true, [], CUBEB_ERROR)
  /\ running (fst (fst (oss_stream_start None s))) = true
  /\ oss_stream_stop (fst (fst (oss_stream_start None s)))
     = (set_running s false,
        [EvMutexLock; EvMutexUnlock; EvThreadJoin (thread s)],
        CUBEB_OK).
Proof.
  repeat split.
Qed.

(** A start that fails on a stopped stream does not give the stream
    back as it was. *)
Lemma oss_stream_start_failure_changes_stream (s : cubeb_stream) :
  running s = false -> fst (fst (oss_stream_start None s)) <> s.
Proof.
  intros R E. cbn in E. apply (f_equal running) in E. cbn in E. congruence.
Qed.

(** C4.  [oss_stream_destroy] destroys the mutex first: on a running
    stream the lock is destroyed, then taken and released by the stop,
    and only then is the I/O thread joined.  The device handles and the
    buffers are released after the join. *)
Theorem oss_stream_destroy_mutex_before_join (s : cubeb_stream) :
  oss_stream_destroy (set_running s true)
  = [EvMutexDestroy; EvMutexLock; EvMutexUnlock; EvThreadJoin (thread s)]
      ++ (if fd (play s) =? -1 then [] else [EvClose (fd (play s))])
      ++ (if fd (record s) =? -1 then [] else [EvClose (fd (record s))])
      ++ free_buf RPlayBuf (buf (play s))
      ++ free_buf RRecordBuf (buf (record s))
      ++ [EvFree RStream]
  /\ none_before_join is_mutex_destroy (oss_stream_destroy (set_running s true)) = false.
Proof.
  split; reflexivity.
Qed.

(** The part of the destruction order that holds: no handle is closed
    and no buffer freed before the join. *)
Lemma oss_stream_destroy_join_before_close (s : cubeb_stream) :
  none_before_join is_close_or_free (oss_stream_destroy (set_running s true)) = true.
Proof. reflexivity. Qed.

(** ** Stream construction *)

Lemma direction_nfr_floor (q : option audio_buf_info) (fsize n : Z) :
  direction_nfr q fsize = Some n ->
  (forall bi, q = Some bi -> 0 <= fragstotal bi * fragsize bi) ->
  n = floor_capacity q fsize.
Proof.
  intros H Hq. destruct q as [bi|]; cbn in H.
  - specialize (Hq bi eq_refl).
    unfold queue_frames, imul, in_int32, INT32_MIN, INT32_MAX in H.
    destruct ((- 2 ^ 31 <=? fragstotal bi * fragsize bi)
              && (fragstotal bi * fragsize bi <=? 2 ^ 31 - 1)) eqn:R;
      cbn in H; [|discriminate].
    apply andb_prop in R. destruct R as [_ R]. apply Z.leb_le in R.
    destruct (fsize =? 0); cbn in H; [discriminate|].
    injection H as <-. rewrite u32_small by lia.
    cbn [floor_capacity].
    destruct (1 <? fragstotal bi * fragsize bi / fsize) eqn:C.
    + apply Z.ltb_lt in C. lia.
    + apply Z.ltb_ge in C. lia.
  - now injection H as <-.
Qed.

Lemma init_endpoint_record_keeps (env : init_env) (flag : open_flag)
  (p : option cubeb_stream_params) (ret : Z) (s : cubeb_stream) (tr : list event)
  (ret' : Z) (s' : cubeb_stream) (tr' : list event) :
  init_endpoint env flag p record set_record ret s tr = inr (ret', s', tr') ->
  nfr s' = nfr s /\ play s' = play s.
Proof.
  unfold init_endpoint. destruct p as [p|].
  - destruct (negb _); [discriminate|].
    destruct (_ =? -1) eqn:D; [discriminate|].
    destruct (oss_copy_params _ _ _ _) as [ret1 sinfo].
    destruct (negb _); [discriminate|].
    intros H. injection H as _ <- _. split; reflexivity.
  - intros H. injection H as _ <- _. split; reflexivity.
Qed.

Lemma init_endpoint_play_keeps (env : init_env) (flag : open_flag)
  (p : option cubeb_stream_params) (ret : Z) (s : cubeb_stream) (tr : list event)
  (ret' : Z) (s' : cubeb_stream) (tr' : list event) :
  init_endpoint env flag p play set_play ret s tr = inr (ret', s', tr') ->
  nfr s' = nfr s /\ record s' = record s.
Proof.
  unfold init_endpoint. destruct p as [p|].
  - destruct (negb _); [discriminate|].
    destruct (_ =? -1) eqn:D; [discriminate|].
    destruct (oss_copy_params _ _ _ _) as [ret1 sinfo].
    destruct (negb _); [discriminate|].
    intros H. injection H as _ <- _. split; reflexivity.
  - intros H. injection H as _ <- _. split; reflexivity.
Qed.

Lemma init_finish_block (env : init_env) (ret : Z) (s : cubeb_stream)
  (tr : list event) (r : init_result) (s' : cubeb_stream) :
  init_finish env ret s tr = Some r ->
  i_stream r = Some s' ->
  sane_queues env ->
  nfr s = OSS_DEFAULT_NFRAMES ->
  nfr s' = spec_block_frames env s'.
Proof.
  intros H Hs Hq Hn. unfold init_finish in H.
  destruct (negb (env_mutex_init env)).
  { injection H as <-. discriminate. }
  destruct (compute_frame_size (info (play (set_volume s f32_one)))) as [pfs|];
    cbn [obind] in H; [|discriminate].
  cbn [set_volume set_play set_frame_size set_record play record fd info] in H.
  destruct (if fd (play s) =? -1 then Some 1
            else direction_nfr (env_getospace env (fd (play s))) pfs)
    as [playnfr|] eqn:EP; cbn [obind] in H; [|discriminate].
  destruct (compute_frame_size (info (record s))) as [rfs|];
    cbn [obind] in H; [|discriminate].
  destruct (if fd (record s) =? -1 then Some 1
            else direction_nfr (env_getispace env (fd (record s))) rfs)
    as [recnfr|] eqn:ER; cbn [obind] in H; [|discriminate].
  assert (HP : (fd (play s) =? -1) = false -> playnfr
               = floor_capacity (env_getospace env (fd (play s))) pfs).
  { intros F. rewrite F in EP. apply direction_nfr_floor in EP; [exact EP|].
    intros bi Hbi. apply (Hq (fd (play s))). now left. }
  assert (HR : (fd (record s) =? -1) = false -> recnfr
               = floor_capacity (env_getispace env (fd (record s))) rfs).
  { intros F. rewrite F in ER. apply direction_nfr_floor in ER; [exact ER|].
    intros bi Hbi. apply (Hq (fd (record s))). now right. }
  clear EP ER.
  unfold spec_block_frames.
  destruct (fd (play s) =? -1) eqn:FP; destruct (fd (record s) =? -1) eqn:FR;
    cbn [negb andb set_play set_record set_nfr set_buf set_frame_size
           play record fd nfr frame_size] in H;
    rewrite ?FP, ?FR in H;
    cbn [negb andb set_play set_record set_nfr set_buf set_frame_size
           play record fd nfr frame_size] in H;
    rewrite ?FP, ?FR in H.
  - injection H as <-. cbn in Hs. injection Hs as <-. cbn. rewrite FP, FR. exact Hn.
  - destruct (env_calloc_buf env RRecordBuf _ _);
      [|injection H as <-; discriminate].
    injection H as <-. cbn in Hs. injection Hs as <-. cbn. rewrite FP, FR.
    now apply HR.
  - destruct (env_calloc_buf env RPlayBuf _ _);
      [|injection H as <-; discriminate].
    cbn [set_play set_record set_nfr set_buf set_frame_size
           play record fd nfr frame_size] in H.
    rewrite FR in H.
    injection H as <-. cbn in Hs. injection Hs as <-. cbn. rewrite FP, FR.
    now apply HP.
  - destruct (env_calloc_buf env RPlayBuf _ _);
      [|injection H as <-; discriminate].
    cbn [set_play set_record set_nfr set_buf set_frame_size
           play record fd nfr frame_size] in H.
    rewrite FR in H.
    destruct (env_calloc_buf env RRecordBuf _ _);
      [|injection H as <-; discriminate].
    injection H as <-. cbn in Hs. injection Hs as <-. cbn. rewrite FP, FR.
    rewrite <- (HP eq_refl), <- (HR eq_refl).
    destruct (playnfr <? recnfr) eqn:C.
    + apply Z.ltb_lt in C. lia.
    + apply Z.ltb_ge in C. lia.
Qed.


Lemma good_env_sane (mutex_ok : bool) (ototal osize : Z) :
  0 <= ototal * osize ->
  sane_queues (good_env mutex_ok (Some (queue ototal osize)) None).
Proof.
  intros H d bi [E|E]; cbn in E; [|discriminate].
  injection E as <-. exact H.
Qed.



(** C3.  When [pthread_mutex_init] fails, [oss_stream_init] jumps to
    [error] without assigning [ret]: the stream is torn down and not
    handed out, every handle is closed, and the function returns
    [CUBEB_OK]. *)
Theorem oss_stream_init_mutex_failure_returns_ok :
  exists r,
    oss_stream_init (good_env false None None)
      None (Some params16) None (Some params16) = Some r
    /\ i_ret r = CUBEB_OK
    /\ i_stream r = None
    /\ i_trace r = [EvCalloc RStream; EvOpen 3; EvOpen 4; EvMutexDestroy;
                    EvMutexLock; EvMutexUnlock; EvClose 4; EvClose 3;
                    EvFree RStream]
    /\ held_after [] (i_trace r) = [].
Proof.
  eexists. split; [vm_compute; reflexivity|]. repeat split.
Qed.

Lemma held_after_app (h : list resource) (a b : list event) :
  held_after h (a ++ b) = held_after (held_after h a) b.
Proof.
  revert h. induction a as [|e a IH]; intros h; [reflexivity|].
  cbn [app held_after]. apply IH.
Qed.

Lemma resource_eqb_refl (r : resource) : resource_eqb r r = true.
Proof. destruct r; cbn; try reflexivity. apply Z.eqb_refl. Qed.

Lemma remove_one_head (r : resource) (l : list resource) :
  remove_one r (r :: l) = l.
Proof. cbn [remove_one]. now rewrite resource_eqb_refl. Qed.

(** The [error:] path gives back whatever the stream holds. *)
Lemma oss_stream_destroy_releases (s : cubeb_stream) (mutex : bool)
  (tr : list event) :
  under_construction s ->
  held_after [] tr = holds s mutex ->
  held_after [] (tr ++ oss_stream_destroy s) = [].
Proof.
  intros [R B] H. rewrite held_after_app, H.
  unfold oss_stream_destroy, oss_stream_stop, holds. rewrite R, B.
  destruct (buf (play s)); destruct mutex;
    destruct (fd (play s) =? -1); destruct (fd (record s) =? -1);
    cbn [app held_after acquired released free_buf];
    repeat (rewrite ?remove_one_head, ?Z.eqb_refl;
            cbn [app held_after acquired released remove_one resource_eqb]);
    reflexivity.
Qed.

Lemma init_endpoint_record_holds (env : init_env)
  (p : option cubeb_stream_params) (ret : Z) (s : cubeb_stream) (tr : list event) :
  under_construction s ->
  buf (play s) = None -> fd (record s) = -1 -> fd (play s) = -1 ->
  held_after [] tr = holds s false ->
  ret = CUBEB_OK ->
  match init_endpoint env O_RDONLY p record set_record ret s tr with
  | inl (ret', s', tr') =>
      under_construction s' /\ held_after [] tr' = holds s' false
      /\ ret' <> CUBEB_OK
  | inr (ret', s', tr') =>
      under_construction s' /\ held_after [] tr' = holds s' false
      /\ ret' = CUBEB_OK /\ buf (play s') = None /\ fd (play s') = -1
  end.
Proof.
  intros [R B] Bp Fr Fp H Ret. unfold init_endpoint.
  destruct p as [p|]; [|repeat split; assumption].
  destruct (negb _).
  { repeat split; try assumption. unfold CUBEB_ERROR_NOT_SUPPORTED, CUBEB_OK. lia. }
  rewrite Fr. cbn [Z.eqb Pos.eqb andb].
  destruct (env_open env (name (record s)) O_RDONLY =? -1) eqn:D.
  - apply Z.eqb_eq in D. cbn [negb]. unfold under_construction, holds.
    cbn [set_record set_fd running record play buf fd].
    rewrite D, Bp, Fp. cbn [Z.eqb Pos.eqb app].
    repeat split; try assumption.
    + rewrite H. unfold holds. now rewrite Bp, Fp, Fr.
    + unfold CUBEB_ERROR_DEVICE_UNAVAILABLE, CUBEB_OK. lia.
  - cbn [negb].
    destruct (oss_copy_params _ _ _ _) as [ret1 sinfo].
    assert (Hh : held_after []
                   (tr ++ [EvOpen (env_open env (name (record s)) O_RDONLY)])
                 = [RFd (env_open env (name (record s)) O_RDONLY); RStream]).
    { rewrite held_after_app, H. unfold holds. now rewrite Bp, Fp, Fr. }
    destruct (ret1 =? CUBEB_OK) eqn:E; cbn [negb];
      unfold under_construction, holds;
      cbn [set_record set_fd set_info set_floating running record play buf fd];
      rewrite Bp, Fp, D; cbn [Z.eqb Pos.eqb app].
    + apply Z.eqb_eq in E. repeat split; assumption.
    + apply Z.eqb_neq in E. repeat split; assumption.
Qed.

Lemma init_endpoint_play_holds (env : init_env)
  (p : option cubeb_stream_params) (ret : Z) (s : cubeb_stream) (tr : list event) :
  under_construction s ->
  buf (play s) = None -> fd (play s) = -1 ->
  held_after [] tr = holds s false ->
  ret = CUBEB_OK ->
  match init_endpoint env O_WRONLY p play set_play ret s tr with
  | inl (ret', s', tr') =>
      under_construction s' /\ held_after [] tr' = holds s' false
      /\ ret' <> CUBEB_OK
  | inr (ret', s', tr') =>
      under_construction s' /\ held_after [] tr' = holds s' false
      /\ ret' = CUBEB_OK /\ buf (play s') = None
  end.
Proof.
  intros [R B] Bp Fp H Ret. unfold init_endpoint.
  destruct p as [p|]; [|repeat split; assumption].
  destruct (negb _).
  { repeat split; try assumption. unfold CUBEB_ERROR_NOT_SUPPORTED, CUBEB_OK. lia. }
  rewrite Fp. cbn [Z.eqb Pos.eqb andb].
  destruct (env_open env (name (play s)) O_WRONLY =? -1) eqn:D.
  - apply Z.eqb_eq in D. cbn [negb]. unfold under_construction, holds.
    cbn [set_play set_fd running record play buf fd].
    rewrite D, Bp. cbn [Z.eqb Pos.eqb app].
    repeat split; try assumption.
    + rewrite H. unfold holds. now rewrite Bp, Fp.
    + unfold CUBEB_ERROR_DEVICE_UNAVAILABLE, CUBEB_OK. lia.
  - cbn [negb].
    destruct (oss_copy_params _ _ _ _) as [ret1 sinfo].
    assert (Hh : held_after []
                   (tr ++ [EvOpen (env_open env (name (play s)) O_WRONLY)])
                 = RFd (env_open env (name (play s)) O_WRONLY)
                   :: (if fd (record s) =? -1 then [] else [RFd (fd (record s))])
                   ++ [RStream]).
    { rewrite held_after_app, H. unfold holds. now rewrite Bp, Fp. }
    destruct (ret1 =? CUBEB_OK) eqn:E; cbn [negb];
      unfold under_construction, holds;
      cbn [set_play set_fd set_info set_floating running record play buf fd];
      rewrite Bp, D; cbn [Z.eqb Pos.eqb app].
    + apply Z.eqb_eq in E. repeat split; assumption.
    + apply Z.eqb_neq in E. repeat split; assumption.
Qed.

Lemma init_finish_holds (env : init_env) (ret : Z) (s : cubeb_stream)
  (tr : list event) (r : init_result) :
  under_construction s ->
  buf (play s) = None ->
  held_after [] tr = holds s false ->
  ret = CUBEB_OK ->
  init_finish env ret s tr = Some r ->
  i_stream r = None ->
  held_after [] (i_trace r) = []
  /\ (env_mutex_init env = true -> i_ret r <> CUBEB_OK).
Proof.
  intros [R B] Bp H Ret F Hs. unfold init_finish in F.
  destruct (env_mutex_init env) eqn:M; cbn [negb] in F.
  2: { injection F as <-. cbn [i_trace init_error]. split; [|discriminate].
       apply (oss_stream_destroy_releases _ false); [split; assumption | exact H]. }
  destruct (compute_frame_size _) as [pfs|]; cbn [obind] in F; [|discriminate].
  match type of F with
  | obind ?c _ = _ => destruct c as [playnfr|]; cbn [obind] in F; [|discriminate]
  end.
  destruct (compute_frame_size _) as [rfs|]; cbn [obind] in F; [|discriminate].
  match type of F with
  | obind ?c _ = _ => destruct c as [recnfr|]; cbn [obind] in F; [|discriminate]
  end.
  cbn [set_volume set_play set_record set_frame_size set_nfr set_buf
         play record fd buf nfr] in F.
  assert (Hm : held_after [] (tr ++ [EvMutexInit]) = RMutex :: holds s false).
  { rewrite held_after_app, H. reflexivity. }
  destruct (fd (play s) =? -1) eqn:FP; destruct (fd (record s) =? -1) eqn:FR;
    cbn [negb andb set_volume set_play set_record set_frame_size set_nfr set_buf
           play record fd buf nfr] in F;
    rewrite ?FP, ?FR in F;
    cbn [negb andb set_volume set_play set_record set_frame_size set_nfr set_buf
           play record fd buf nfr] in F;
    rewrite ?FP, ?FR in F.
  - injection F as <-. discriminate.
  - destruct (env_calloc_buf env RRecordBuf _ _); injection F as <-;
      [discriminate|].
    cbn [i_trace i_ret init_error]. split; [|intros _; discriminate].
    apply (oss_stream_destroy_releases _ true); [split; assumption|].
    rewrite Hm. unfold holds.
    cbn [set_volume set_play set_record set_frame_size set_nfr set_buf
           play record fd buf nfr].
    now rewrite Bp, FP, FR.
  - destruct (env_calloc_buf env RPlayBuf _ _).
    + cbn [set_volume set_play set_record set_frame_size set_nfr set_buf
             play record fd buf nfr] in F.
      rewrite ?FR in F. injection F as <-. discriminate.
    + injection F as <-.
      cbn [i_trace i_ret init_error]. split; [|intros _; discriminate].
      apply (oss_stream_destroy_releases _ true); [split; assumption|].
      rewrite Hm. unfold holds.
      cbn [set_volume set_play set_record set_frame_size set_nfr set_buf
             play record fd buf nfr].
      now rewrite Bp, FP, FR.
  - destruct (env_calloc_buf env RPlayBuf _ _).
    + cbn [set_volume set_play set_record set_frame_size set_nfr set_buf
             play record fd buf nfr] in F.
      rewrite ?FR in F.
      destruct (env_calloc_buf env RRecordBuf _ _); injection F as <-;
        [discriminate|].
      cbn [i_trace i_ret init_error]. split; [|intros _; discriminate].
      apply (oss_stream_destroy_releases _ true); [split; assumption|].
      rewrite held_after_app, Hm. unfold holds.
      cbn [set_volume set_play set_record set_frame_size set_nfr set_buf
             play record fd buf nfr].
      now rewrite Bp, FP, FR.
    + injection F as <-.
      cbn [i_trace i_ret init_error]. split; [|intros _; discriminate].
      apply (oss_stream_destroy_releases _ true); [split; assumption|].
      rewrite Hm. unfold holds.
      cbn [set_volume set_play set_record set_frame_size set_nfr set_buf
             play record fd buf nfr].
      now rewrite Bp, FP, FR.
Qed.

(** Every failing construction releases what it acquired, and every
    failure other than that of the mutex creation returns an error
    code. *)
Lemma oss_stream_init_failure_releases (env : init_env)
  (input_device : option string) (input_stream_params : option cubeb_stream_params)
  (output_device : option string) (output_stream_params : option cubeb_stream_params)
  (r : init_result) :
  oss_stream_init env input_device input_stream_params
    output_device output_stream_params = Some r ->
  i_stream r = None ->
  held_after [] (i_trace r) = []
  /\ (env_mutex_init env = true -> i_ret r <> CUBEB_OK).
Proof.
  intros H Hs. unfold oss_stream_init in H.
  destruct (negb (env_calloc_stream env)).
  { injection H as <-. split; [reflexivity | discriminate]. }
  match type of H with
  | match init_endpoint ?e ?f ?p ?g ?st ?rt ?s0 ?t0 with _ => _ end = _ =>
      pose proof (init_endpoint_record_holds e p rt s0 t0) as E1;
      destruct (init_endpoint e f p g st rt s0 t0)
        as [[[ret1 s1] tr1]|[[ret1 s1] tr1]]
  end.
  - destruct E1 as [U [Hh Hr]]; try reflexivity; [split; reflexivity|].
    injection H as <-. cbn [i_trace i_ret init_error]. split; [|intros _; exact Hr].
    now apply (oss_stream_destroy_releases _ false).
  - destruct E1 as [U [Hh [Hr [Bp Fp]]]]; try reflexivity; [split; reflexivity|].
    match type of H with
    | match init_endpoint ?e ?f ?p ?g ?st ?rt ?s0 ?t0 with _ => _ end = _ =>
        pose proof (init_endpoint_play_holds e p rt s0 t0 U Bp Fp Hh Hr) as E2;
        destruct (init_endpoint e f p g st rt s0 t0)
          as [[[ret2 s2] tr2]|[[ret2 s2] tr2]]
    end.
    + destruct E2 as [U2 [Hh2 Hr2]].
      injection H as <-. cbn [i_trace i_ret init_error]. split; [|intros _; exact Hr2].
      now apply (oss_stream_destroy_releases _ false).
    + destruct E2 as [U2 [Hh2 [Hr2 Bp2]]].
      eapply init_finish_holds; eauto.
Qed.

(** A constructed stream owns, for each open handle, a zeroed buffer of
    [nfr] frames. *)
Lemma init_finish_buffers (env : init_env) (ret : Z) (s : cubeb_stream)
  (tr : list event) (r : init_result) (s' : cubeb_stream) :
  init_finish env ret s tr = Some r ->
  i_stream r = Some s' ->
  (fd (play s') <> -1 ->
   buf (play s') = Some (repeat 0 (Z.to_nat (nfr s' * frame_size (play s')))))
  /\ (fd (record s') <> -1 ->
      buf (record s')
      = Some (repeat 0 (Z.to_nat (nfr s' * frame_size (record s'))))).
Proof.
  intros H Hs. unfold init_finish in H.
  destruct (negb (env_mutex_init env)).
  { injection H as <-. discriminate. }
  destruct (compute_frame_size _) as [pfs|]; cbn [obind] in H; [|discriminate].
  match type of H with
  | obind ?c _ = _ => destruct c as [playnfr|]; cbn [obind] in H; [|discriminate]
  end.
  destruct (compute_frame_size _) as [rfs|]; cbn [obind] in H; [|discriminate].
  match type of H with
  | obind ?c _ = _ => destruct c as [recnfr|]; cbn [obind] in H; [|discriminate]
  end.
  cbn [set_volume set_play set_record set_frame_size set_nfr set_buf
         play record fd buf nfr] in H.
  destruct (fd (play s) =? -1) eqn:FP; destruct (fd (record s) =? -1) eqn:FR;
    cbn [negb andb set_volume set_play set_record set_frame_size set_nfr set_buf
           play record fd buf nfr] in H;
    rewrite ?FP, ?FR in H;
    cbn [negb andb set_volume set_play set_record set_frame_size set_nfr set_buf
           play record fd buf nfr] in H;
    rewrite ?FP, ?FR in H;
    pose proof FP as FP'; pose proof FR as FR';
    (apply Z.eqb_eq in FP' || apply Z.eqb_neq in FP');
    (apply Z.eqb_eq in FR' || apply Z.eqb_neq in FR').
  - injection H as <-. cbn in Hs. injection Hs as <-. cbn.
    split; intros; contradiction.
  - destruct (env_calloc_buf env RRecordBuf _ _);
      [|injection H as <-; discriminate].
    injection H as <-. cbn in Hs. injection Hs as <-. cbn.
    split; [intros; contradiction | reflexivity].
  - destruct (env_calloc_buf env RPlayBuf _ _);
      [|injection H as <-; discriminate].
    cbn [set_play set_record set_nfr set_buf set_frame_size
           play record fd nfr frame_size] in H.
    rewrite FR in H.
    injection H as <-. cbn in Hs. injection Hs as <-. cbn.
    split; [reflexivity | intros; contradiction].
  - destruct (env_calloc_buf env RPlayBuf _ _);
      [|injection H as <-; discriminate].
    cbn [set_play set_record set_nfr set_buf set_frame_size
           play record fd nfr frame_size] in H.
    rewrite FR in H.
    destruct (env_calloc_buf env RRecordBuf _ _);
      [|injection H as <-; discriminate].
    injection H as <-. cbn in Hs. injection Hs as <-. cbn.
    split; reflexivity.
Qed.

Lemma oss_stream_init_buffers (env : init_env)
  (input_device : option string) (input_stream_params : option cubeb_stream_params)
  (output_device : option string) (output_stream_params : option cubeb_stream_params)
  (r : init_result) (s : cubeb_stream) :
  oss_stream_init env input_device input_stream_params
    output_device output_stream_params = Some r ->
  i_stream r = Some s ->
  (fd (play s) <> -1 ->
   buf (play s) = Some (repeat 0 (Z.to_nat (nfr s * frame_size (play s)))))
  /\ (fd (record s) <> -1 ->
      buf (record s)
      = Some (repeat 0 (Z.to_nat (nfr s * frame_size (record s))))).
Proof.
  intros H Hs. unfold oss_stream_init in H.
  destruct (negb (env_calloc_stream env)).
  { injection H as <-. discriminate. }
  match type of H with
  | match ?e with _ => _ end = _ => destruct e as [[[ret1 s1] tr1]|[[ret1 s1] tr1]]
  end.
  { injection H as <-. discriminate. }
  match type of H with
  | match ?e with _ => _ end = _ => destruct e as [[[ret2 s2] tr2]|[[ret2 s2] tr2]]
  end.
  { injection H as <-. discriminate. }
  eapply init_finish_buffers; eauto.
Qed.

(** ** Slices of buffers *)

Lemma firstn_skipn_join {A : Type} (n m : nat) :
  forall l : list A,
    firstn n l ++ firstn m (skipn n l) = firstn (n + m) l.
Proof.
  induction n as [|n IH]; intros l; [reflexivity|].
  destruct l as [|a l]; cbn.
  - now rewrite firstn_nil.
  - now rewrite IH.
Qed.

Lemma slice_join {A : Type} (l : list A) (o n m : nat) :
  firstn n (skipn o l) ++ firstn m (skipn (o + n) l)
  = firstn (n + m) (skipn o l).
Proof.
  rewrite <- firstn_skipn_join. f_equal. f_equal.
  rewrite skipn_skipn. f_equal. lia.
Qed.

Lemma length_slice {A : Type} (l : list A) (o n : nat) :
  (o + n <= length l)%nat -> length (firstn n (skipn o l)) = n.
Proof.
  intros H. rewrite length_firstn, length_skipn. lia.
Qed.

Lemma store_at_length (b : list byte) (ofs : Z) (data : list byte) :
  0 <= ofs ->
  ofs + Z.of_nat (length data) <= Z.of_nat (length b) ->
  length (store_at b ofs data) = length b.
Proof.
  intros H0 H. unfold store_at.
  rewrite !length_app, length_firstn, length_skipn. lia.
Qed.

Lemma bytes_written_app (a b : list event) :
  bytes_written (a ++ b) = bytes_written a ++ bytes_written b.
Proof. unfold bytes_written. apply flat_map_app. Qed.

Lemma bytes_read_app (a b : list event) :
  bytes_read (a ++ b) = bytes_read a ++ bytes_read b.
Proof. unfold bytes_read. apply flat_map_app. Qed.

(** ** The retry loop *)

Lemma min_whole_frames (a t pfs : Z) :
  0 < pfs -> 0 <= a -> 0 <= t -> a mod pfs = 0 ->
  exists f, 0 <= f <= t /\ Z.min a (t * pfs) = f * pfs.
Proof.
  intros Hp Ha Ht Hm.
  apply Z.mod_divide in Hm; [|lia]. destruct Hm as [q Hq]. subst a.
  destruct (Z.le_ge_cases (q * pfs) (t * pfs)) as [L|G].
  - exists q. rewrite Z.min_l by lia. split; [|reflexivity]. nia.
  - exists t. rewrite Z.min_r by lia. split; [lia|reflexivity].
Qed.

Section RetryLoop.

Variable env : io_env.
Variables pfs rfs : Z.
Variable playbuf : list byte.

(** One write block on a good writer: [f] whole frames are accepted. *)
Lemma write_step_good (x w : xfer) :
  x_to_write x = 0 \/ good_writer env pfs ->
  0 <= x_to_write x -> 0 <= x_write_ofs x ->
  x_write_ofs x + x_to_write x * pfs < 2 ^ 64 ->
  0 <= x_frames_written x < 2 ^ 64 ->
  write_step env pfs playbuf x = Some w ->
  exists f,
    0 <= f <= x_to_write x
    /\ (0 < x_to_write x ->
        x_write_ofs x + x_to_write x * pfs <= Z.of_nat (length playbuf))
    /\ (0 < x_to_write x -> progressing_writer env -> 0 < f)
    /\ w = {| x_state := x_state x;
              x_to_write := x_to_write x - f;
              x_to_read := x_to_read x;
              x_write_ofs := x_write_ofs x + f * pfs;
              x_read_ofs := x_read_ofs x;
              x_frames_written := u64 (x_frames_written x + f);
              x_record := x_record x;
              x_writes := if 0 <? x_to_write x then S (x_writes x) else x_writes x;
              x_reads := x_reads x;
              x_events :=
                x_events x
                  ++ (if 0 <? x_to_write x
                      then [EvWrite (x_to_write x * pfs)
                              (firstn (Z.to_nat (f * pfs))
                                 (skipn (Z.to_nat (x_write_ofs x)) playbuf))]
                      else []) |}.
Proof.
  intros G Ht Ho Hb Hfw H. unfold write_step in H.
  destruct (0 <? x_to_write x) eqn:T.
  - apply Z.ltb_lt in T. destruct G as [G|[Hp Hw]]; [lia|].
    rewrite u64_small in H by nia.
    destruct (in_bounds (x_write_ofs x) (x_to_write x * pfs) playbuf) eqn:B;
      cbn [negb] in H; [|discriminate].
    unfold in_bounds in B. apply Z.leb_le in B.
    destruct (Hw (x_writes x) (x_to_write x * pfs)) as [N0 Nm].
    destruct (min_whole_frames (io_write env (x_writes x) (x_to_write x * pfs))
                (x_to_write x) pfs) as [f [Hf Ef]]; try lia.
    rewrite Ef in H.
    destruct (f * pfs <? 0) eqn:Neg; [apply Z.ltb_lt in Neg; nia|].
    destruct (pfs =? 0) eqn:Z0; [apply Z.eqb_eq in Z0; lia|].
    rewrite Z.quot_div_nonneg in H by nia.
    rewrite Z.div_mul in H by lia.
    injection H as <-. exists f. split; [exact Hf|]. split; [intros _; exact B|].
    split.
    + intros _ P. specialize (P (x_writes x) (x_to_write x * pfs) ltac:(nia)).
      destruct (Z.eq_dec f 0) as [->|]; [|lia].
      exfalso. apply P.
      destruct (Z.min_spec (io_write env (x_writes x) (x_to_write x * pfs))
                  (x_to_write x * pfs)) as [[_ E]|[_ E]]; nia.
    + f_equal; [apply u64_small; nia | apply u64_small; nia].
  - apply Z.ltb_ge in T. assert (x_to_write x = 0) as E by lia.
    injection H as <-. exists 0. split; [lia|]. split; [lia|]. split; [lia|].
    destruct x; cbn in *. subst. f_equal; try lia.
    + symmetry. rewrite Z.add_0_r. apply u64_small. lia.
    + now rewrite app_nil_r.
Qed.

(** One read block on a good reader: [f] whole frames are delivered. *)
Lemma read_step_good (x r : xfer) :
  x_to_read x = 0 \/ good_reader env rfs ->
  0 <= x_to_read x -> 0 <= x_read_ofs x ->
  x_read_ofs x + x_to_read x * rfs < 2 ^ 64 ->
  read_step env rfs x = Some r ->
  exists f data,
    0 <= f <= x_to_read x
    /\ Z.of_nat (length data) = f * rfs
    /\ (0 < x_to_read x ->
        x_read_ofs x + x_to_read x * rfs <= Z.of_nat (length (x_record x)))
    /\ (0 < x_to_read x -> progressing_reader env -> 0 < f)
    /\ r = {| x_state := x_state x;
              x_to_write := x_to_write x;
              x_to_read := x_to_read x - f;
              x_write_ofs := x_write_ofs x;
              x_read_ofs := x_read_ofs x + f * rfs;
              x_frames_written := x_frames_written x;
              x_record := if 0 <? x_to_read x
                          then store_at (x_record x) (x_read_ofs x) data
                          else x_record x;
              x_writes := x_writes x;
              x_reads := if 0 <? x_to_read x then S (x_reads x) else x_reads x;
              x_events :=
                x_events x
                  ++ (if 0 <? x_to_read x
                      then [EvRead (x_to_read x * rfs) data]
                      else []) |}.
Proof.
  intros G Ht Ho Hb H. unfold read_step in H.
  destruct (0 <? x_to_read x) eqn:T.
  - apply Z.ltb_lt in T. destruct G as [G|[Hp Hr]]; [lia|].
    rewrite u64_small in H by nia.
    destruct (in_bounds (x_read_ofs x) (x_to_read x * rfs) (x_record x)) eqn:B;
      cbn [negb] in H; [|discriminate].
    unfold in_bounds in B. apply Z.leb_le in B.
    destruct (Hr (x_reads x) (x_to_read x * rfs)) as [delivered [E Em]].
    rewrite E in H.
    destruct (rfs =? 0) eqn:Z0; [apply Z.eqb_eq in Z0; lia|].
    set (data := firstn (Z.to_nat (x_to_read x * rfs)) delivered) in *.
    assert (L : Z.of_nat (length data)
                = Z.min (Z.of_nat (length delivered)) (x_to_read x * rfs)).
    { unfold data. rewrite length_firstn. lia. }
    destruct (min_whole_frames (Z.of_nat (length delivered)) (x_to_read x) rfs)
      as [f [Hf Ef]]; try lia.
    rewrite Ef in L. rewrite L in H.
    rewrite Z.quot_div_nonneg in H by nia.
    rewrite Z.div_mul in H by lia.
    injection H as <-. exists f, data.
    split; [exact Hf|]. split; [exact L|]. split; [intros _; exact B|]. split.
    + intros _ P. specialize (P (x_reads x) (x_to_read x * rfs) ltac:(nia)).
      destruct (Z.eq_dec f 0) as [->|]; [|lia].
      exfalso. apply P. rewrite E. f_equal.
      destruct delivered as [|a delivered]; [reflexivity|].
      exfalso. revert L. unfold data.
      replace (Z.to_nat (x_to_read x * rfs))
        with (S (Z.to_nat (x_to_read x * rfs - 1))) by nia.
      cbn [firstn length]. lia.
    + f_equal; apply u64_small; nia.
  - apply Z.ltb_ge in T. assert (x_to_read x = 0) as E by lia.
    injection H as <-. exists 0, []. split; [lia|]. split; [reflexivity|].
    split; [lia|]. split; [lia|].
    destruct x; cbn in *. subst. f_equal; try lia.
    now rewrite app_nil_r.
Qed.

Lemma write_step_defined (x : xfer) :
  x_to_write x = 0
  \/ (good_writer env pfs
      /\ x_write_ofs x + x_to_write x * pfs <= Z.of_nat (length playbuf)) ->
  0 <= x_to_write x -> 0 <= x_write_ofs x ->
  x_write_ofs x + x_to_write x * pfs < 2 ^ 64 ->
  exists w, write_step env pfs playbuf x = Some w.
Proof.
  intros G Ht Ho Hb. unfold write_step.
  destruct (0 <? x_to_write x) eqn:T; [|eauto].
  apply Z.ltb_lt in T. destruct G as [G|[[Hp Hw] Hl]]; [lia|].
  rewrite u64_small by nia.
  unfold in_bounds. rewrite (proj2 (Z.leb_le _ _) Hl). cbn [negb].
  destruct (_ <? 0); [eauto|].
  destruct (pfs =? 0) eqn:Z0; [apply Z.eqb_eq in Z0; lia|]. eauto.
Qed.

Lemma read_step_defined (x : xfer) :
  x_to_read x = 0
  \/ (good_reader env rfs
      /\ x_read_ofs x + x_to_read x * rfs <= Z.of_nat (length (x_record x))) ->
  0 <= x_to_read x -> 0 <= x_read_ofs x ->
  x_read_ofs x + x_to_read x * rfs < 2 ^ 64 ->
  exists r, read_step env rfs x = Some r.
Proof.
  intros G Ht Ho Hb. unfold read_step.
  destruct (0 <? x_to_read x) eqn:T; [|eauto].
  apply Z.ltb_lt in T. destruct G as [G|[[Hp Hr] Hl]]; [lia|].
  rewrite u64_small by nia.
  unfold in_bounds. rewrite (proj2 (Z.leb_le _ _) Hl). cbn [negb].
  destruct (io_read env _ _); [|eauto].
  destruct (rfs =? 0) eqn:Z0; [apply Z.eqb_eq in Z0; lia|]. eauto.
Qed.

Lemma retry_done_at_once (x : xfer) :
  x_to_write x = 0 -> x_to_read x = 0 ->
  0 <= x_frames_written x < 2 ^ 64 ->
  x_state x = CUBEB_STATE_STARTED ->
  retry_done pfs rfs playbuf x x.
Proof.
  intros E1 E2 Fw St. unfold retry_done.
  rewrite E1, E2, !Z.mul_0_l, !Z.add_0_r.
  split; [exact St|]. split; [reflexivity|]. split; [reflexivity|].
  split; [reflexivity|]. split; [reflexivity|].
  split; [symmetry; apply u64_small; lia|]. split; [reflexivity|].
  exists []. rewrite app_nil_r. repeat split. constructor.
Qed.

(** Partial correctness of the retry loop on devices that report no
    error and move whole frames. *)
Lemma retry_loop_sound (fuel : nat) :
  forall x x',
    x_to_write x = 0 \/ good_writer env pfs ->
    x_to_read x = 0 \/ good_reader env rfs ->
    0 <= x_to_write x -> 0 <= x_write_ofs x ->
    x_write_ofs x + x_to_write x * pfs < 2 ^ 64 ->
    0 <= x_to_read x -> 0 <= x_read_ofs x ->
    x_read_ofs x + x_to_read x * rfs < 2 ^ 64 ->
    0 <= x_frames_written x < 2 ^ 64 ->
    x_state x = CUBEB_STATE_STARTED ->
    retry_loop env pfs rfs playbuf fuel x = Some x' ->
    retry_done pfs rfs playbuf x x'.
Proof.
  induction fuel as [|fuel IH]; intros x x' GW GR Tw Ow Bw Tr Or Br Fw St H;
    cbn [retry_loop] in H;
    destruct ((0 <? x_to_write x) || (0 <? x_to_read x)) eqn:C.
  1: discriminate.
  1, 3: apply orb_false_elim in C; destruct C as [C1 C2];
    apply Z.ltb_ge in C1; apply Z.ltb_ge in C2;
    injection H as <-; apply retry_done_at_once; (lia || assumption).
  destruct (write_step env pfs playbuf x) as [w|] eqn:W;
    cbn [obind] in H; [|discriminate].
  destruct (write_step_good x w GW Tw Ow Bw Fw W) as [f [Hf [Lw [_ ->]]]].
  cbn [x_state] in H. rewrite St in H. cbn [is_error cubeb_state_eqb] in H.
  match type of H with
  | obind (read_step env rfs ?w0) _ = _ =>
      destruct (read_step env rfs w0) as [r|] eqn:R;
      cbn [obind] in H; [|discriminate];
      destruct (read_step_good w0 r GR Tr Or Br R) as [g [data [Hg [Ld [Lr [_ ->]]]]]]
  end.
  cbn [x_state x_to_write x_to_read x_write_ofs x_read_ofs x_frames_written
         x_record x_writes x_reads x_events] in *.
  rewrite ?St in H. cbn [is_error cubeb_state_eqb] in H.
  assert (Pf : 0 <= f * pfs).
  { destruct GW as [E|[[? ?] _]]; [assert (f = 0) as -> by lia; lia | nia]. }
  assert (Pg : 0 <= g * rfs).
  { destruct GR as [E|[[? ?] _]]; [assert (g = 0) as -> by lia; lia | nia]. }
  apply IH in H;
    cbn [x_state x_to_write x_to_read x_write_ofs x_read_ofs x_frames_written
           x_record x_writes x_reads x_events] in *;
    try reflexivity; try nia; try (apply u64_range); try assumption.
  2: { destruct GW as [E|G]; [left; lia | right; exact G]. }
  2: { destruct GR as [E|G]; [left; lia | right; exact G]. }
  destruct H as [S' [W' [R' [OW [OR [FW [LR [evs [EV [IO [BW [LW LRd]]]]]]]]]]]].
  cbn [x_state x_to_write x_to_read x_write_ofs x_read_ofs x_frames_written
         x_record x_writes x_reads x_events] in *.
  unfold retry_done.
  split; [exact S'|]. split; [exact W'|]. split; [exact R'|].
  split; [lia|]. split; [lia|]. split.
  { rewrite FW. unfold u64. rewrite Z.add_mod_idemp_l by lia. f_equal. lia. }
  split.
  { rewrite LR. destruct (0 <? x_to_read x) eqn:T; [|reflexivity].
    apply Z.ltb_lt in T. apply store_at_length; lia. }
  exists ((if 0 <? x_to_write x
           then [EvWrite (x_to_write x * pfs)
                   (firstn (Z.to_nat (f * pfs))
                      (skipn (Z.to_nat (x_write_ofs x)) playbuf))]
           else [])
          ++ (if 0 <? x_to_read x then [EvRead (x_to_read x * rfs) data] else [])
          ++ evs).
  split. { rewrite EV, <- !app_assoc. reflexivity. }
  split.
  { apply Forall_app. split; [destruct (0 <? x_to_write x); repeat constructor|].
    apply Forall_app. split; [destruct (0 <? x_to_read x); repeat constructor|].
    exact IO. }
  assert (BWall :
    bytes_written
      ((if 0 <? x_to_write x
        then [EvWrite (x_to_write x * pfs)
                (firstn (Z.to_nat (f * pfs))
                   (skipn (Z.to_nat (x_write_ofs x)) playbuf))]
        else [])
       ++ (if 0 <? x_to_read x then [EvRead (x_to_read x * rfs) data] else [])
       ++ evs)
    = firstn (Z.to_nat (x_to_write x * pfs))
        (skipn (Z.to_nat (x_write_ofs x)) playbuf)).
  { rewrite !bytes_written_app, BW.
    replace (bytes_written
               (if 0 <? x_to_read x then [EvRead (x_to_read x * rfs) data] else []))
      with (@nil byte) by (destruct (0 <? x_to_read x); reflexivity).
    cbn [app].
    destruct (0 <? x_to_write x) eqn:T.
    - apply Z.ltb_lt in T. cbn [bytes_written flat_map written_data].
      rewrite app_nil_r.
      assert (0 < pfs) by (destruct GW as [E|[G _]]; lia).
      replace (Z.to_nat (x_write_ofs x + f * pfs))
        with (Z.to_nat (x_write_ofs x) + Z.to_nat (f * pfs))%nat by nia.
      rewrite slice_join. f_equal. nia.
    - apply Z.ltb_ge in T. assert (x_to_write x = 0) as E by lia.
      assert (f = 0) as -> by lia. rewrite E.
      cbn [bytes_written flat_map app].
      change (0 - 0) with 0. rewrite !Z.mul_0_l, Z.add_0_r.
      reflexivity. }
  split; [exact BWall|]. split.
  { rewrite BWall.
    destruct (0 <? x_to_write x) eqn:T.
    - apply Z.ltb_lt in T. specialize (Lw T).
      assert (0 < pfs) by (destruct GW as [E|[G _]]; lia).
      assert (0 <= x_to_write x * pfs) by nia.
      rewrite length_slice by lia. lia.
    - apply Z.ltb_ge in T. assert (x_to_write x = 0) as E by lia.
      rewrite E. cbn. reflexivity. }
  rewrite !bytes_read_app, !length_app, !Nat2Z.inj_add, LRd.
  replace (bytes_read
             (if 0 <? x_to_write x
              then [EvWrite (x_to_write x * pfs)
                      (firstn (Z.to_nat (f * pfs))
                         (skipn (Z.to_nat (x_write_ofs x)) playbuf))]
              else []))
    with (@nil byte) by (destruct (0 <? x_to_write x); reflexivity).
  destruct (0 <? x_to_read x) eqn:T.
  - cbn [bytes_read flat_map read_data length]. rewrite app_nil_r. cbn [length]. lia.
  - apply Z.ltb_ge in T. cbn [bytes_read flat_map length app].
    assert (g = 0) as -> by lia. assert (x_to_read x = 0) as -> by lia.
    reflexivity.
Qed.


(** Termination: on devices that also make progress, and with the
    requested bytes inside the buffers, the loop is left after at most
    one round per frame. *)
Lemma retry_loop_terminates (fuel : nat) :
  forall x,
    x_to_write x = 0
    \/ (good_writer env pfs /\ progressing_writer env
        /\ x_write_ofs x + x_to_write x * pfs <= Z.of_nat (length playbuf)) ->
    x_to_read x = 0
    \/ (good_reader env rfs /\ progressing_reader env
        /\ x_read_ofs x + x_to_read x * rfs <= Z.of_nat (length (x_record x))) ->
    0 <= x_to_write x -> 0 <= x_write_ofs x ->
    x_write_ofs x + x_to_write x * pfs < 2 ^ 64 ->
    0 <= x_to_read x -> 0 <= x_read_ofs x ->
    x_read_ofs x + x_to_read x * rfs < 2 ^ 64 ->
    0 <= x_frames_written x < 2 ^ 64 ->
    x_state x = CUBEB_STATE_STARTED ->
    (Z.to_nat (x_to_write x + x_to_read x) <= fuel)%nat ->
    exists x', retry_loop env pfs rfs playbuf fuel x = Some x'.
Proof.
  induction fuel as [|fuel IH]; intros x RW RR Tw Ow Bw Tr Or Br Fw St M;
    cbn [retry_loop];
    destruct ((0 <? x_to_write x) || (0 <? x_to_read x)) eqn:C; eauto.
  { apply orb_true_iff in C. destruct C as [C|C]; apply Z.ltb_lt in C; lia. }
  assert (GW : x_to_write x = 0 \/ good_writer env pfs)
    by (destruct RW as [E|[G _]]; [left|right]; assumption).
  assert (GR : x_to_read x = 0 \/ good_reader env rfs)
    by (destruct RR as [E|[G _]]; [left|right]; assumption).
  destruct (write_step_defined x) as [w W]; try assumption.
  { destruct RW as [E|[G [_ L]]]; [left|right]; auto. }
  rewrite W. cbn [obind].
  destruct (write_step_good x w GW Tw Ow Bw Fw W) as [f [Hf [Lw [Pw ->]]]].
  cbn [x_state]. rewrite St. cbn [is_error cubeb_state_eqb].
  match goal with
  | |- exists _, obind (read_step env rfs ?w0) _ = _ =>
      destruct (read_step_defined w0) as [r R];
      [ cbn [x_read_ofs x_to_read x_record];
        destruct RR as [E|[G [_ L]]]; [left|right]; auto
      | assumption | assumption | assumption
      | rewrite R; cbn [obind];
        destruct (read_step_good w0 r GR Tr Or Br R)
          as [g [data [Hg [Ld [Lr [Pr ->]]]]]] ]
  end.
  cbn [x_state x_to_write x_to_read x_write_ofs x_read_ofs x_frames_written
         x_record x_writes x_reads x_events] in *.
  rewrite ?St. cbn [is_error cubeb_state_eqb].
  assert (Pf : 0 <= f * pfs).
  { destruct GW as [E|[[? ?] _]]; [assert (f = 0) as -> by lia; lia | nia]. }
  assert (Pg : 0 <= g * rfs).
  { destruct GR as [E|[[? ?] _]]; [assert (g = 0) as -> by lia; lia | nia]. }
  apply IH;
    cbn [x_state x_to_write x_to_read x_write_ofs x_read_ofs x_frames_written
           x_record x_writes x_reads x_events];
    try reflexivity; try nia; try (apply u64_range).
  - destruct RW as [E|[G [P L]]]; [left; lia|].
    right. split; [exact G|]. split; [exact P|]. lia.
  - destruct RR as [E|[G [P L]]]; [left; lia|].
    right. split; [exact G|]. split; [exact P|].
    assert (0 < rfs) by (destruct G as [[? ?] _]; lia).
    assert (g * rfs <= x_to_read x * rfs) by nia.
    destruct (0 <? x_to_read x) eqn:T; [|nia].
    rewrite store_at_length; nia.
  - apply orb_true_iff in C.
    assert (0 < x_to_write x -> 0 < f).
    { intros T. destruct RW as [E|[_ [P _]]]; [lia|]. now apply Pw. }
    assert (0 < x_to_read x -> 0 < g).
    { intros T. destruct RR as [E|[_ [P _]]]; [lia|]. now apply Pr. }
    destruct C as [C|C]; apply Z.ltb_lt in C; lia.
Qed.

End RetryLoop.


Lemma steady_env_good_writer (k : Z) : good_writer (steady_env k) 4.
Proof.
  split; [lia|]. intros i n. cbn. split; [lia | reflexivity].
Qed.

Lemma steady_env_good_reader (k : Z) : good_reader (steady_env k) 4.
Proof.
  split; [lia|]. intros i n. exists [5; 6; 7; 8]. split; reflexivity.
Qed.

Lemma steady_env_progressing_writer (k : Z) : progressing_writer (steady_env k).
Proof. intros i n _. cbn. lia. Qed.

Lemma steady_env_progressing_reader (k : Z) : progressing_reader (steady_env k).
Proof. intros i n _. cbn. discriminate. Qed.



(** ** One iteration of the outer loop *)

Lemma callback_inputs_app (a b : list event) :
  callback_inputs (a ++ b) = callback_inputs a ++ callback_inputs b.
Proof.
  induction a as [|e a IH]; [reflexivity|].
  destruct e; cbn; rewrite ?IH; reflexivity.
Qed.

(** C6.  On a record-only stream, when the data callback returns a
    frame count [k] (not the error sentinel) below the block size, the
    routine ends in [CUBEB_STATE_STOPPED]: after the callback nothing
    is written to or read from a device, [frames_written] is as it was,
    and the state callback reports [CUBEB_STATE_STOPPED]. *)
Theorem record_only_short_block_stops
  (env : io_env) (ifuel fuel : nat) (l : loop_state)
  (rb : option (list byte)) (k : Z) (out : list byte) :
  io_running env (l_iter l) = true ->
  fd (play (l_stream l)) = -1 ->
  fd (record (l_stream l)) <> -1 ->
  convert_record (l_stream l) = Some rb ->
  io_data_cb env (l_iter l) (bytes_of rb) (nfr (l_stream l)) = (k, out) ->
  k <> CUBEB_ERROR ->
  k < nfr (l_stream l) ->
  exists s',
    io_run env ifuel (S fuel) l
    = Some (CUBEB_STATE_STOPPED, s',
            l_trace l ++ [EvDataCb (bytes_of rb) (nfr (l_stream l)) k;
                          EvStateCb CUBEB_STATE_STOPPED])
    /\ frames_written s' = frames_written (l_stream l)
    /\ fd (play s') = -1.
Proof.
  intros Run Pfd Rfd Conv Cb Kerr Kshort.
  unfold io_run. cbn [io_loop]. unfold io_iteration.
  rewrite Run. cbn [negb].
  rewrite Pfd. cbn [Z.eqb Pos.eqb andb].
  destruct (fd (record (l_stream l)) =? -1) eqn:R; [apply Z.eqb_eq in R; contradiction|].
  cbn [andb]. rewrite Conv. cbn [obind].
  cbn [set_record set_buf nfr play record fd]. rewrite Cb.
  destruct (k =? CUBEB_ERROR) eqn:E; [apply Z.eqb_eq in E; contradiction|].
  cbn [set_play set_record set_buf nfr play record fd]. rewrite Pfd.
  cbn [Z.eqb Pos.eqb negb obind].
  apply Z.ltb_lt in Kshort. rewrite Kshort. cbn [andb obind fst snd cubeb_state_eqb].
  eexists. split.
  - cbn [l_stream l_trace]. rewrite <- app_assoc. reflexivity.
  - split; [reflexivity | exact Pfd].
Qed.

Lemma record_only_short_block_stops_witness :
  exists s',
    io_run (steady_env 1) 0 1 (loop_start (record16_stream true))
    = Some (CUBEB_STATE_STOPPED, s',
            [EvStateCb CUBEB_STATE_STARTED; EvDataCb (repeat 0 8) 2 1;
             EvStateCb CUBEB_STATE_STOPPED])
    /\ frames_written s' = 0.
Proof.
  destruct (record_only_short_block_stops (steady_env 1) 0 0
              (loop_start (record16_stream true)) (Some (repeat 0 8)) 1
              [1; 0; 2; 0; 3; 0; 4; 0]) as [s' [E [F _]]].
  - reflexivity.
  - reflexivity.
  - cbn. lia.
  - reflexivity.
  - reflexivity.
  - unfold CUBEB_ERROR. lia.
  - cbn. lia.
  - exists s'. split; [exact E | exact F].
Defined.

(** C2 (amended).  On a stream with an open playback handle, when the
    data callback returns [k] frames with [0 <= k < nfr], and neither a
    [write] nor a [read] returns an error, every call moves a whole
    number of frames and at least one byte: the device accepts exactly
    the first [k * frame_size] bytes of the converted playback buffer,
    the routine returns in [CUBEB_STATE_DRAINED], [frames_written] has
    grown by [k], and after the callback the only events are device
    transfers followed by one state notification, [CUBEB_STATE_DRAINED],
    which comes last. *)
Theorem short_block_drains
  (env : io_env) (l : loop_state)
  (rb pb : option (list byte)) (k : Z) (out : list byte) :
  io_running env (l_iter l) = true ->
  fd (play (l_stream l)) <> -1 ->
  convert_record (l_stream l) = Some rb ->
  io_data_cb env (l_iter l) (bytes_of rb) (nfr (l_stream l)) = (k, out) ->
  0 <= k < nfr (l_stream l) ->
  nfr (l_stream l) < 2 ^ 32 ->
  convert_play
    (set_buf (play (l_stream l))
       (option_map (fun b => overwrite b out) (buf (play (l_stream l)))))
    k (io_volume env (l_iter l)) = Some pb ->
  good_writer env (frame_size (play (l_stream l))) ->
  progressing_writer env ->
  k * frame_size (play (l_stream l)) <= Z.of_nat (length (bytes_of pb)) ->
  fd (record (l_stream l)) = -1
  \/ (good_reader env (frame_size (record (l_stream l)))
      /\ progressing_reader env
      /\ nfr (l_stream l) * frame_size (record (l_stream l))
         <= Z.of_nat (length (bytes_of rb))) ->
  0 <= frames_written (l_stream l) < 2 ^ 64 ->
  forall ifuel fuel,
    (Z.to_nat (k + nfr (l_stream l)) <= ifuel)%nat ->
    exists s' evs,
      io_run env ifuel (S fuel) l
      = Some (CUBEB_STATE_DRAINED, s',
              l_trace l ++ [EvDataCb (bytes_of rb) (nfr (l_stream l)) k]
                ++ evs ++ [EvStateCb CUBEB_STATE_DRAINED])
      /\ Forall (fun e => is_device_io e = true) evs
      /\ bytes_written evs
         = firstn (Z.to_nat (k * frame_size (play (l_stream l)))) (bytes_of pb)
      /\ Z.of_nat (length (bytes_written evs)) = k * frame_size (play (l_stream l))
      /\ frames_written s' = u64 (frames_written (l_stream l) + k).
Proof.
  intros Run Pfd Conv Cb Kr Nr Cp GW PW Lp Rec Fw ifuel fuel Fuel.
  set (s := l_stream l) in *.
  set (pfs := frame_size (play s)) in *.
  set (rfs := frame_size (record s)) in *.
  set (tr := if negb (fd (record s) =? -1) then nfr s else 0).
  set (x0 := xfer_start k tr (frames_written s) (bytes_of rb)
               (l_writes l) (l_reads l)).
  assert (Pfd' : (fd (play s) =? -1) = false) by (apply Z.eqb_neq; exact Pfd).
  assert (Tr0 : 0 <= tr < 2 ^ 32) by (unfold tr; destruct (negb _); lia).
  assert (Trk : tr <= nfr s) by (unfold tr; destruct (negb _); lia).
  assert (GR : x_to_read x0 = 0 \/ good_reader env rfs).
  { cbn. unfold tr. destruct Rec as [E|[G _]]; [left; now rewrite E | right; exact G]. }
  assert (Bw : 0 + k * pfs < 2 ^ 64) by (destruct GW as [[? ?] _]; nia).
  assert (Br : 0 + tr * rfs < 2 ^ 64).
  { destruct Rec as [E|[[[? ?] _] _]]; [unfold tr; rewrite E; cbn; lia | nia]. }
  destruct (retry_loop_terminates env pfs rfs (bytes_of pb) ifuel x0) as [x X];
    cbn [x0 xfer_start x_state x_to_write x_to_read x_write_ofs x_read_ofs
           x_frames_written x_record];
    try lia; try reflexivity.
  { right. split; [exact GW|]. split; [exact PW|]. lia. }
  { unfold tr. destruct Rec as [E|[G [P L]]]; [left; now rewrite E|].
    right. split; [exact G|]. split; [exact P|].
    destruct (negb _); lia. }
  pose proof X as Done.
  apply retry_loop_sound in Done;
    cbn [x0 xfer_start x_state x_to_write x_to_read x_write_ofs x_read_ofs
           x_frames_written x_record];
    try lia; try reflexivity; [|right; exact GW | exact GR].
  destruct Done as [S' [_ [_ [_ [_ [FW [_ [evs [EV [IO [BW [LW _]]]]]]]]]]]].
  cbn [x0 xfer_start x_state x_to_write x_to_read x_write_ofs x_read_ofs
         x_frames_written x_record x_events app] in *.
  change (Z.to_nat 0) with 0%nat in BW. cbn [skipn] in BW.
  exists (set_frames_written
            (set_record
               (set_play (set_play (set_record s (set_buf (record s) rb))
                            (set_buf (play s)
                               (option_map (fun b => overwrite b out) (buf (play s)))))
                  (set_buf (set_buf (play s)
                              (option_map (fun b => overwrite b out) (buf (play s))))
                     pb))
               (set_buf (set_buf (record s) rb)
                  (option_map (fun _ => x_record x) rb)))
            (x_frames_written x)), evs.
  split; [|repeat split; assumption].
  unfold io_run. cbn [io_loop]. unfold io_iteration. fold s.
  rewrite Run. cbn [negb]. rewrite Pfd'. cbn [andb].
  rewrite Conv. cbn [obind].
  cbn [set_record set_buf nfr play record fd]. rewrite Cb.
  destruct (k =? CUBEB_ERROR) eqn:E;
    [apply Z.eqb_eq in E; unfold CUBEB_ERROR in E; lia|].
  cbn [set_play set_record set_buf nfr play record fd frame_size frames_written
         info floating buf].
  rewrite ?Pfd'. cbn [negb]. rewrite Cp. cbn [obind].
  cbn [set_play set_record set_buf nfr play record fd frame_size frames_written
         info floating buf].
  rewrite ?Pfd'. cbn [negb andb].
  assert (Short : (k <? nfr s) = true) by (apply Z.ltb_lt; lia).
  rewrite Short. rewrite andb_false_r.
  rewrite (u64_small k) by lia.
  match goal with
  | |- context [retry_loop ?a ?b ?c ?d ?e ?f] =>
      replace (retry_loop a b c d e f) with (Some x) by (symmetry; exact X)
  end.
  cbn [obind]. rewrite S'.
  cbn [is_error cubeb_state_eqb negb andb obind fst snd l_stream l_trace].
  rewrite EV. f_equal. f_equal. rewrite <- !app_assoc. reflexivity.
Qed.

Lemma short_block_drains_witness :
  exists s' evs,
    io_run (steady_env 1) 3 1 (loop_start (duplex16_stream true))
    = Some (CUBEB_STATE_DRAINED, s',
            [EvStateCb CUBEB_STATE_STARTED] ++ [EvDataCb (repeat 0 8) 2 1]
              ++ evs ++ [EvStateCb CUBEB_STATE_DRAINED])
    /\ bytes_written evs = [1; 0; 2; 0]
    /\ frames_written s' = 1.
Proof.
  destruct (short_block_drains (steady_env 1) (loop_start (duplex16_stream true))
              (Some (repeat 0 8)) (Some [1; 0; 2; 0; 3; 0; 4; 0]) 1
              [1; 0; 2; 0; 3; 0; 4; 0])
    with (ifuel := 3%nat) (fuel := 0%nat) as [s' [evs [E [_ [B [_ F]]]]]].
  - reflexivity.
  - cbn. lia.
  - reflexivity.
  - reflexivity.
  - cbn. lia.
  - cbn. lia.
  - vm_compute. reflexivity.
  - apply steady_env_good_writer.
  - apply steady_env_progressing_writer.
  - cbn. lia.
  - right. split; [apply steady_env_good_reader|].
    split; [apply steady_env_progressing_reader | cbn; lia].
  - cbn. lia.
  - cbn. lia.
  - exists s', evs. split; [exact E|]. split; [exact B | exact F].
Defined.

(** C2 as worded fails in two ways.  On a duplex stream a failing
    [read] ends the routine in [CUBEB_STATE_ERROR] although no [write]
    has failed; and on a device that accepts part of a frame, more than
    the [k] produced frames reach the device (7 bytes for one frame of
    4) before [CUBEB_STATE_DRAINED] is reported. *)
Lemma short_block_not_always_flushed_and_drained :
  (exists s',
     (forall i n, 0 <= io_write (failing_read_env 1) i n)
     /\ fd (play (duplex16_stream true)) <> -1
     /\ io_data_cb (failing_read_env 1) 0 (repeat 0 8) 2 = (1, [1; 0; 2; 0; 3; 0; 4; 0])
     /\ io_run (failing_read_env 1) 3 1 (loop_start (duplex16_stream true))
        = Some (CUBEB_STATE_ERROR, s',
                [EvStateCb CUBEB_STATE_STARTED; EvDataCb (repeat 0 8) 2 1;
                 EvWrite 4 [1; 0; 2; 0]; EvStateCb CUBEB_STATE_ERROR]))
  /\ (exists s' tr,
        (forall i n, 0 <= n -> 0 <= io_write ragged_env i n)
        /\ io_run ragged_env 3 1 (loop_start (play16_stream true))
           = Some (CUBEB_STATE_DRAINED, s', tr)
        /\ bytes_written tr = [9; 0; 9; 0; 0; 0; 0]
        /\ Z.of_nat (length (bytes_written tr))
           <> 1 * frame_size (play (play16_stream true))).
Proof.
  split.
  - eexists. split; [intros i n; cbn; lia|]. split; [cbn; lia|].
    split; [reflexivity|]. vm_compute. reflexivity.
  - eexists. eexists. split; [intros i n Hn; cbn; destruct i; lia|].
    split; [vm_compute; reflexivity|]. split; [reflexivity|]. cbn. lia.
Qed.

(** ** The record side does not see the volume *)

Lemma linear16_set_vol_loop_length (m : Z) (count : nat) :
  forall buf buf',
    linear16_set_vol_loop buf count m = Some buf' ->
    length buf' = length buf.
Proof.
  induction count as [|count IH]; intros buf buf' H;
    cbn [linear16_set_vol_loop] in H.
  - injection H as <-; reflexivity.
  - destruct buf as [|b0 [|b1 rest]]; try discriminate.
    destruct (in_int32 _); [|discriminate].
    destruct (linear16_set_vol_loop rest count m) as [rest'|] eqn:E;
      cbn [obind] in H; [|discriminate].
    injection H as <-. cbn [store16 app length]. now rewrite (IH _ _ E).
Qed.

Lemma overwrite_length (b out : list byte) :
  length (overwrite b out) = length b.
Proof.
  unfold overwrite. rewrite length_app, length_firstn, length_skipn. lia.
Qed.

Lemma convert_buf_shape (f : list byte -> option (list byte))
  (b b' : option (list byte)) :
  (forall l l', f l = Some l' -> length l' = length l) ->
  convert_buf f b = Some b' ->
  same_shape b' b.
Proof.
  intros Hf H. unfold convert_buf in H. destruct b as [l|].
  - destruct (f l) as [l'|] eqn:E; cbn [obind] in H; [|discriminate].
    injection H as <-. unfold same_shape. cbn. f_equal. now apply Hf.
  - destruct (f []); cbn [obind] in H; [|discriminate].
    injection H as <-. reflexivity.
Qed.

Lemma convert_play_shape (e : oss_stream) (k : Z) (vol : float)
  (pb : option (list byte)) :
  convert_play e k vol = Some pb -> same_shape pb (buf e).
Proof.
  unfold convert_play. destruct (floating e); apply convert_buf_shape.
  - intros l l'. unfold oss_float_to_linear32.
    apply float_to_linear32_loop_length.
  - intros l l'. unfold oss_linear16_set_vol.
    destruct (float_to_int32 _) as [m|]; cbn [obind]; [|discriminate].
    apply linear16_set_vol_loop_length.
Qed.

Lemma same_shape_bytes (a b : option (list byte)) :
  same_shape a b -> length (bytes_of a) = length (bytes_of b).
Proof.
  unfold same_shape. destruct a, b; cbn; congruence.
Qed.

Section VolumeIndependence.

Variable env : io_env.
Variable vol' : nat -> float.

Local Abbreviation env' := (with_volume env vol').

Lemma xfer_alike_refl (x : xfer) : xfer_alike x x.
Proof. unfold xfer_alike. repeat split. Qed.

Ltac split_alike H :=
  destruct H as (?Est & ?Etw & ?Etr & ?Eow & ?Eor & ?Efw & ?Erec & ?Ewr & ?Erd & ?Eev).

Lemma write_step_alike (pfs : Z) (pb pb' : list byte) (x y w w' : xfer) :
  length pb = length pb' ->
  xfer_alike x y ->
  write_step env pfs pb x = Some w ->
  write_step env' pfs pb' y = Some w' ->
  xfer_alike w w'.
Proof.
  intros L A H H'. split_alike A.
  unfold write_step, in_bounds in H, H'. cbn [with_volume io_write] in H'.
  rewrite <- Etw, <- Eow, <- Ewr, <- L in H'.
  destruct (0 <? x_to_write x).
  - destruct (negb _); [discriminate|].
    destruct (_ <? 0).
    + injection H as <-. injection H' as <-. unfold xfer_alike. cbn.
      repeat split; congruence.
    + destruct (pfs =? 0); [discriminate|].
      injection H as <-. injection H' as <-. unfold xfer_alike. cbn.
      repeat split; try congruence.
      rewrite !callback_inputs_app. cbn. now rewrite Eev.
  - injection H as <-. injection H' as <-. unfold xfer_alike.
    repeat split; assumption.
Qed.

Lemma read_step_alike (rfs : Z) (x y r r' : xfer) :
  xfer_alike x y ->
  read_step env rfs x = Some r ->
  read_step env' rfs y = Some r' ->
  xfer_alike r r'.
Proof.
  intros A H H'. split_alike A.
  unfold read_step, in_bounds in H, H'. cbn [with_volume io_read] in H'.
  rewrite <- Etr, <- Eor, <- Erd, <- Erec in H'.
  destruct (0 <? x_to_read x).
  - destruct (negb _); [discriminate|].
    destruct (io_read env _ _) as [delivered|].
    + destruct (rfs =? 0); [discriminate|].
      injection H as <-. injection H' as <-. unfold xfer_alike. cbn.
      repeat split; try congruence.
      rewrite !callback_inputs_app. cbn. now rewrite Eev.
    + injection H as <-. injection H' as <-. unfold xfer_alike. cbn.
      repeat split; congruence.
  - injection H as <-. injection H' as <-. unfold xfer_alike.
    repeat split; assumption.
Qed.

Lemma retry_loop_alike (pfs rfs : Z) (pb pb' : list byte) (fuel : nat) :
  length pb = length pb' ->
  forall x y x1 y1,
    xfer_alike x y ->
    retry_loop env pfs rfs pb fuel x = Some x1 ->
    retry_loop env' pfs rfs pb' fuel y = Some y1 ->
    xfer_alike x1 y1.
Proof.
  intros L. induction fuel as [|fuel IH]; intros x y x1 y1 A H H';
    cbn [retry_loop] in H, H';
    pose proof A as A0; split_alike A0;
    rewrite <- Etw, <- Etr in H';
    destruct ((0 <? x_to_write x) || (0 <? x_to_read x));
    try discriminate;
    try (injection H as <-; injection H' as <-; exact A).
  destruct (write_step env pfs pb x) as [w|] eqn:W; cbn [obind] in H; [|discriminate].
  destruct (write_step env' pfs pb' y) as [w'|] eqn:W'; cbn [obind] in H'; [|discriminate].
  pose proof (write_step_alike pfs pb pb' x y w w' L A W W') as Aw.
  pose proof Aw as Aw0. destruct Aw0 as [Esw _]. rewrite <- Esw in H'.
  destruct (is_error (x_state w)).
  { injection H as <-. injection H' as <-. exact Aw. }
  destruct (read_step env rfs w) as [r|] eqn:R; cbn [obind] in H; [|discriminate].
  destruct (read_step env' rfs w') as [r'|] eqn:R'; cbn [obind] in H'; [|discriminate].
  pose proof (read_step_alike rfs w w' r r' Aw R R') as Ar.
  pose proof Ar as Ar0. destruct Ar0 as [Esr _]. rewrite <- Esr in H'.
  destruct (is_error (x_state r)).
  { injection H as <-. injection H' as <-. exact Ar. }
  exact (IH _ _ _ _ Ar H H').
Qed.


Lemma same_shape_overwrite (b b' : option (list byte)) (out : list byte) :
  same_shape b b' ->
  same_shape (option_map (fun l => overwrite l out) b)
    (option_map (fun l => overwrite l out) b').
Proof.
  unfold same_shape. destruct b, b'; cbn; try congruence.
  rewrite !overwrite_length. congruence.
Qed.

Lemma same_shape_trans (a b c : option (list byte)) :
  same_shape a b -> same_shape b c -> same_shape a c.
Proof. unfold same_shape. congruence. Qed.

Lemma same_shape_sym (a b : option (list byte)) :
  same_shape a b -> same_shape b a.
Proof. unfold same_shape. congruence. Qed.

(** One iteration on two alike states leaves the loop in the same
    state and gives alike states again. *)
Lemma io_iteration_alike (ifuel : nat) (l l' : loop_state)
  (st st' : cubeb_state) (l1 l1' : loop_state) :
  alike l l' ->
  io_iteration env ifuel l = Some (st, l1) ->
  io_iteration env' ifuel l' = Some (st', l1') ->
  st = st' /\ alike l1 l1'.
Proof.
  intros A H H'.
  destruct l as [s d i w r tr], l' as [s' d' i' w' r' tr'].
  destruct s as [t rn v p rc fw bw n], s' as [t' rn' v' p' rc' fw' bw' n'].
  destruct p as [pn pfd pbuf pinfo pfs pfl], p' as [pn' pfd' pbuf' pinfo' pfs' pfl'].
  unfold alike, play_alike in A.
  cbn [l_stream l_drain l_iter l_writes l_reads l_trace play record nfr
         frames_written fd info frame_size floating buf] in A.
  destruct A as (Er & (Efd & Einfo & Efs & Efl & Esh) & En & Efw & Ed & Ei
                 & Ew & Erd & Ecb).
  subst rc' pfd' pinfo' pfs' pfl' n' fw' d' i' w' r'.
  unfold io_iteration in H, H'.
  cbn [with_volume io_running io_data_cb io_volume] in H'.
  cbn [l_stream l_drain l_iter l_writes l_reads l_trace play record nfr
         frames_written fd info frame_size floating buf
         set_record set_play set_buf set_frames_written] in H, H'.
  destruct (io_running env i); cbn [negb] in H, H'.
  2: { injection H as <- <-. injection H' as <- <-. split; [reflexivity|].
       unfold alike, play_alike. cbn. repeat split; assumption. }
  destruct ((pfd =? -1) && (fd rc =? -1)).
  { injection H as <- <-. injection H' as <- <-. split; [reflexivity|].
    unfold alike, play_alike. cbn. repeat split; assumption. }
  unfold convert_record in H, H'.
  cbn [play record nfr fd info frame_size floating buf] in H, H'.
  match type of H with
  | obind ?c _ = _ => destruct c as [rb|]; cbn [obind] in H, H'; [|discriminate]
  end.
  destruct (io_data_cb env i (bytes_of rb) n) as [k out].
  assert (Ecb1 : callback_inputs (tr ++ [EvDataCb (bytes_of rb) n k])
                 = callback_inputs (tr' ++ [EvDataCb (bytes_of rb) n k])).
  { rewrite !callback_inputs_app. now rewrite Ecb. }
  pose proof (same_shape_overwrite pbuf pbuf' out Esh) as Esh1.
  destruct (k =? CUBEB_ERROR).
  { injection H as <- <-. injection H' as <- <-. split; [reflexivity|].
    unfold alike, play_alike. cbn. repeat split; assumption. }
  destruct (pfd =? -1) eqn:P; cbn [negb obind andb] in H, H'.
  - (* no playback handle *)
    rewrite ?andb_true_r, ?andb_false_r in H, H'.
    destruct (k <? n).
    + injection H as <- <-. injection H' as <- <-. split; [reflexivity|].
      unfold alike, play_alike. cbn. repeat split; assumption.
    + match type of H with
      | obind ?c _ = _ => destruct c as [x|] eqn:X; cbn [obind] in H; [|discriminate]
      end.
      match type of H' with
      | obind ?c _ = _ => destruct c as [x'|] eqn:X'; cbn [obind] in H'; [|discriminate]
      end.
      assert (Ax : xfer_alike x x').
      { eapply (retry_loop_alike pfs (frame_size rc) _ _ ifuel);
          [ | | exact X | exact X' ].
        - apply same_shape_bytes. exact Esh1.
        - apply xfer_alike_refl. }
      destruct Ax as (Est & Etw & Etr & Eow & Eor & Efw & Erec & Ewr & Erd & Eev).
      rewrite <- Est in H'.
      assert (Al : alike
        {| l_stream :=
             {| thread := t; running := rn; volume := v;
                play := {| name := pn; fd := pfd;
                           buf := option_map (fun b => overwrite b out) pbuf;
                           info := pinfo; frame_size := pfs; floating := pfl |};
                record := set_buf (set_buf rc rb)
                            (option_map (fun _ => x_record x) rb);
                frames_written := x_frames_written x;
                blocks_written := bw; nfr := n |};
           l_drain := d; l_iter := S i; l_writes := x_writes x;
           l_reads := x_reads x;
           l_trace := (tr ++ [EvDataCb (bytes_of rb) n k]) ++ x_events x |}
        {| l_stream :=
             {| thread := t'; running := rn'; volume := v';
                play := {| name := pn'; fd := pfd;
                           buf := option_map (fun b => overwrite b out) pbuf';
                           info := pinfo; frame_size := pfs; floating := pfl |};
                record := set_buf (set_buf rc rb)
                            (option_map (fun _ => x_record x') rb);
                frames_written := x_frames_written x';
                blocks_written := bw'; nfr := n |};
           l_drain := d; l_iter := S i; l_writes := x_writes x';
           l_reads := x_reads x';
           l_trace := (tr' ++ [EvDataCb (bytes_of rb) n k]) ++ x_events x' |}).
      { unfold alike, play_alike. cbn.
        rewrite Erec, Efw, Ewr, Erd.
        rewrite (callback_inputs_app (tr ++ _)), (callback_inputs_app (tr' ++ _)).
        rewrite Ecb1, Eev. repeat split; assumption. }
      destruct (d && negb (is_error (x_state x))).
      * injection H as <- <-. injection H' as <- <-. split; [reflexivity | exact Al].
      * injection H as <- <-. injection H' as <- <-. split; [reflexivity | exact Al].
  - (* playback handle open: the two runs convert with their own volume *)
    match type of H with
    | obind ?c _ = _ => destruct c as [pb|] eqn:CP; cbn [obind] in H; [|discriminate]
    end.
    match type of H' with
    | obind ?c _ = _ => destruct c as [pb'|] eqn:CP'; cbn [obind] in H'; [|discriminate]
    end.
    apply convert_play_shape in CP. apply convert_play_shape in CP'.
    cbn [buf] in CP, CP'.
    assert (Esh2 : same_shape pb pb').
    { eapply same_shape_trans; [exact CP|].
      eapply same_shape_trans; [exact Esh1|]. apply same_shape_sym. exact CP'. }
    rewrite ?andb_true_r, ?andb_false_r in H, H'.
    match type of H with
    | obind ?c _ = _ => destruct c as [x|] eqn:X; cbn [obind] in H; [|discriminate]
    end.
    match type of H' with
    | obind ?c _ = _ => destruct c as [x'|] eqn:X'; cbn [obind] in H'; [|discriminate]
    end.
    assert (Ax : xfer_alike x x').
    { eapply (retry_loop_alike pfs (frame_size rc) _ _ ifuel);
        [ | | exact X | exact X' ].
      - apply same_shape_bytes. exact Esh2.
      - apply xfer_alike_refl. }
    destruct Ax as (Est & Etw & Etr & Eow & Eor & Efw & Erec & Ewr & Erd & Eev).
    rewrite <- Est in H'.
    assert (Al : alike
      {| l_stream :=
           {| thread := t; running := rn; volume := v;
              play := {| name := pn; fd := pfd; buf := pb;
                         info := pinfo; frame_size := pfs; floating := pfl |};
              record := set_buf (set_buf rc rb)
                          (option_map (fun _ => x_record x) rb);
              frames_written := x_frames_written x;
              blocks_written := bw; nfr := n |};
         l_drain := if k <? n then true else d; l_iter := S i;
         l_writes := x_writes x; l_reads := x_reads x;
         l_trace := (tr ++ [EvDataCb (bytes_of rb) n k]) ++ x_events x |}
      {| l_stream :=
           {| thread := t'; running := rn'; volume := v';
              play := {| name := pn'; fd := pfd; buf := pb';
                         info := pinfo; frame_size := pfs; floating := pfl |};
              record := set_buf (set_buf rc rb)
                          (option_map (fun _ => x_record x') rb);
              frames_written := x_frames_written x';
              blocks_written := bw'; nfr := n |};
         l_drain := if k <? n then true else d; l_iter := S i;
         l_writes := x_writes x'; l_reads := x_reads x';
         l_trace := (tr' ++ [EvDataCb (bytes_of rb) n k]) ++ x_events x' |}).
    { unfold alike, play_alike. cbn.
      rewrite Erec, Efw, Ewr, Erd.
      rewrite (callback_inputs_app (tr ++ _)), (callback_inputs_app (tr' ++ _)).
      rewrite Ecb1, Eev. repeat split; assumption. }
    destruct ((if k <? n then true else d) && negb (is_error (x_state x))).
    * injection H as <- <-. injection H' as <- <-. split; [reflexivity | exact Al].
    * injection H as <- <-. injection H' as <- <-. split; [reflexivity | exact Al].
Qed.


Lemma io_loop_alike (ifuel fuel : nat) :
  forall l l' r r',
    alike l l' ->
    io_loop env ifuel fuel l = Some r ->
    io_loop env' ifuel fuel l' = Some r' ->
    fst r = fst r' /\ alike (snd r) (snd r').
Proof.
  induction fuel as [|fuel IH]; intros l l' r r' A H H';
    cbn [io_loop] in H, H'; [discriminate|].
  destruct (io_iteration env ifuel l) as [[st l1]|] eqn:I;
    cbn [obind] in H; [|discriminate].
  destruct (io_iteration env' ifuel l') as [[st' l1']|] eqn:I';
    cbn [obind] in H'; [|discriminate].
  destruct (io_iteration_alike ifuel l l' st st' l1 l1' A I I') as [<- A1].
  cbn [fst snd] in H, H'.
  destruct (cubeb_state_eqb st CUBEB_STATE_STARTED).
  - exact (IH _ _ _ _ A1 H H').
  - injection H as <-. injection H' as <-. split; [reflexivity | exact A1].
Qed.

End VolumeIndependence.

(** C10.  Two runs of the I/O routine that differ only in the volume
    (the value stored in the stream and the values read in each
    iteration) hand the same record buffers to the data callback, in
    the same order, end in the same state and leave the same record
    endpoint and frame count. *)
Theorem record_input_independent_of_volume
  (env : io_env) (vol' : nat -> float) (v0 : float) (ifuel fuel : nat)
  (s : cubeb_stream)
  (st st' : cubeb_state) (s1 s1' : cubeb_stream) (tr tr' : list event) :
  oss_io_routine env ifuel fuel s = Some (st, s1, tr) ->
  oss_io_routine (with_volume env vol') ifuel fuel (set_volume s v0)
  = Some (st', s1', tr') ->
  callback_inputs tr = callback_inputs tr'
  /\ record s1 = record s1'
  /\ st = st'
  /\ frames_written s1 = frames_written s1'.
Proof.
  unfold oss_io_routine, io_run. intros H H'.
  match type of H with
  | obind ?c _ = _ => destruct c as [r|] eqn:L; cbn [obind] in H; [|discriminate]
  end.
  match type of H' with
  | obind ?c _ = _ => destruct c as [r'|] eqn:L'; cbn [obind] in H'; [|discriminate]
  end.
  assert (A0 : alike (loop_start s) (loop_start (set_volume s v0))).
  { unfold alike, play_alike, same_shape. cbn. repeat split. }
  destruct (io_loop_alike env vol' ifuel fuel _ _ r r' A0 L L') as [Est A].
  injection H as <- <- <-. injection H' as <- <- <-.
  destruct A as (Er & _ & _ & Efw & _ & _ & _ & _ & Ecb).
  rewrite !callback_inputs_app, Ecb. cbn [callback_inputs].
  repeat split; assumption.
Qed.

(** The duplex test stream at volume 1.0 and at volume 0.5. *)
Lemma record_input_independent_of_volume_witness :
  exists st s1 tr st' s1' tr',
    oss_io_routine two_block_env 4 3 (duplex16_stream true) = Some (st, s1, tr)
    /\ oss_io_routine (with_volume two_block_env (fun _ => f32_half)) 4 3
         (set_volume (duplex16_stream true) f32_half) = Some (st', s1', tr')
    /\ bytes_written tr <> bytes_written tr'
    /\ callback_inputs tr = callback_inputs tr'
    /\ record s1 = record s1'.
Proof.
  do 6 eexists. split; [vm_compute; reflexivity|].
  split; [vm_compute; reflexivity|].
  split; [vm_compute; discriminate|].
  match goal with
  | |- callback_inputs ?a = callback_inputs ?b /\ record ?c = record ?d =>
      destruct (record_input_independent_of_volume two_block_env
                  (fun _ => f32_half) f32_half 4 3 (duplex16_stream true)
                  CUBEB_STATE_STOPPED CUBEB_STATE_STOPPED c d a b)
        as [A [B _]]
  end.
  - vm_compute. reflexivity.
  - vm_compute. reflexivity.
  - split; [exact A | exact B].
Defined.

(** ** State notifications *)

Section Notifications.

Variable env : io_env.

Lemma write_step_quiet (pfs : Z) (pb : list byte) (x w : xfer) :
  write_step env pfs pb x = Some w ->
  exists evs, x_events w = x_events x ++ evs /\ quiet evs.
Proof.
  unfold write_step. intros H.
  destruct (0 <? x_to_write x).
  - destruct (negb _); [discriminate|].
    destruct (_ <? 0).
    + injection H as <-. exists []. cbn. rewrite app_nil_r. split; [reflexivity|constructor].
    + destruct (pfs =? 0); [discriminate|].
      injection H as <-. eexists. cbn. split; [reflexivity|]. repeat constructor.
  - injection H as <-. exists []. rewrite app_nil_r. split; [reflexivity|constructor].
Qed.

Lemma read_step_quiet (rfs : Z) (x r : xfer) :
  read_step env rfs x = Some r ->
  exists evs, x_events r = x_events x ++ evs /\ quiet evs.
Proof.
  unfold read_step. intros H.
  destruct (0 <? x_to_read x).
  - destruct (negb _); [discriminate|].
    destruct (io_read env _ _).
    + destruct (rfs =? 0); [discriminate|].
      injection H as <-. eexists. cbn. split; [reflexivity|]. repeat constructor.
    + injection H as <-. exists []. cbn. rewrite app_nil_r. split; [reflexivity|constructor].
  - injection H as <-. exists []. rewrite app_nil_r. split; [reflexivity|constructor].
Qed.

Lemma retry_loop_quiet (pfs rfs : Z) (pb : list byte) (fuel : nat) :
  forall x x',
    retry_loop env pfs rfs pb fuel x = Some x' ->
    exists evs, x_events x' = x_events x ++ evs /\ quiet evs.
Proof.
  induction fuel as [|fuel IH]; intros x x' H; cbn [retry_loop] in H;
    destruct ((0 <? x_to_write x) || (0 <? x_to_read x));
    try discriminate;
    try (injection H as <-; exists []; rewrite app_nil_r;
         split; [reflexivity|constructor]).
  destruct (write_step env pfs pb x) as [w|] eqn:W; cbn [obind] in H; [|discriminate].
  destruct (write_step_quiet _ _ _ _ W) as [e1 [E1 Q1]].
  destruct (is_error (x_state w)).
  { injection H as <-. eauto. }
  destruct (read_step env rfs w) as [r|] eqn:R; cbn [obind] in H; [|discriminate].
  destruct (read_step_quiet _ _ _ R) as [e2 [E2 Q2]].
  destruct (is_error (x_state r)).
  { injection H as <-. exists (e1 ++ e2). rewrite E2, E1, app_assoc.
    split; [reflexivity|]. apply Forall_app. now split. }
  destruct (IH _ _ H) as [e3 [E3 Q3]].
  exists (e1 ++ e2 ++ e3). rewrite E3, E2, E1, <- !app_assoc.
  split; [reflexivity|]. apply Forall_app. split; [exact Q1|].
  apply Forall_app. now split.
Qed.

Lemma io_iteration_quiet (ifuel : nat) (l l' : loop_state) (st : cubeb_state) :
  io_iteration env ifuel l = Some (st, l') ->
  exists evs, l_trace l' = l_trace l ++ evs /\ quiet evs.
Proof.
  unfold io_iteration. intros H.
  assert (Q0 : exists evs, l_trace l = l_trace l ++ evs /\ quiet evs).
  { exists []. rewrite app_nil_r. split; [reflexivity|constructor]. }
  destruct (negb (io_running env (l_iter l))); [injection H as _ <-; exact Q0|].
  destruct (_ && _); [injection H as _ <-; exact Q0|].
  destruct (convert_record (l_stream l)) as [rb|]; cbn [obind] in H; [|discriminate].
  destruct (io_data_cb env _ _ _) as [k out].
  destruct (k =? CUBEB_ERROR).
  { injection H as _ <-. cbn [l_trace]. eexists. split; [reflexivity|].
    repeat constructor. }
  match type of H with
  | obind ?c _ = _ => destruct c as [pb|]; cbn [obind] in H; [|discriminate]
  end.
  destruct (_ && _).
  { injection H as _ <-. cbn [l_trace]. eexists. split; [reflexivity|].
    repeat constructor. }
  match type of H with
  | obind ?c _ = _ => destruct c as [x|] eqn:X; cbn [obind] in H; [|discriminate]
  end.
  destruct (retry_loop_quiet _ _ _ _ _ _ X) as [evs [E Q]]. cbn [x_events app] in E.
  assert (Q1 : exists evs',
             (l_trace l ++ [EvDataCb (bytes_of rb)
                              (nfr (set_record (l_stream l)
                                      (set_buf (record (l_stream l)) rb))) k])
             ++ x_events x = l_trace l ++ evs' /\ quiet evs').
  { eexists. rewrite <- app_assoc. split; [reflexivity|].
    rewrite E. constructor; [reflexivity | exact Q]. }
  destruct (_ && _); injection H as _ <-; exact Q1.
Qed.

Lemma io_loop_quiet (ifuel fuel : nat) :
  forall l r,
    io_loop env ifuel fuel l = Some r ->
    cubeb_state_eqb (fst r) CUBEB_STATE_STARTED = false
    /\ exists evs, l_trace (snd r) = l_trace l ++ evs /\ quiet evs.
Proof.
  induction fuel as [|fuel IH]; intros l r H; cbn [io_loop] in H; [discriminate|].
  destruct (io_iteration env ifuel l) as [[st l1]|] eqn:I;
    cbn [obind fst snd] in H; [|discriminate].
  destruct (io_iteration_quiet _ _ _ _ I) as [e1 [E1 Q1]].
  destruct (cubeb_state_eqb st CUBEB_STATE_STARTED) eqn:C.
  - destruct (IH _ _ H) as [N [e2 [E2 Q2]]]. split; [exact N|].
    exists (e1 ++ e2). rewrite E2, E1, app_assoc. split; [reflexivity|].
    apply Forall_app. now split.
  - injection H as <-. split; [exact C|]. eauto.
Qed.

(** X23.  Whenever the routine returns, the state callback has been invoked
    exactly twice: with [CUBEB_STATE_STARTED] before anything else, and
    with the final state, which is not [CUBEB_STATE_STARTED], after
    everything else. *)
Lemma oss_io_routine_notifies_start_and_end (ifuel fuel : nat) (s s' : cubeb_stream)
  (st : cubeb_state) (tr : list event) :
  oss_io_routine env ifuel fuel s = Some (st, s', tr) ->
  st <> CUBEB_STATE_STARTED
  /\ exists evs,
       tr = EvStateCb CUBEB_STATE_STARTED :: evs ++ [EvStateCb st] /\ quiet evs.
Proof.
  unfold oss_io_routine, io_run. intros H.
  destruct (io_loop env ifuel fuel (loop_start s)) as [r|] eqn:L;
    cbn [obind] in H; [|discriminate].
  injection H as <- _ <-.
  destruct (io_loop_quiet _ _ _ _ L) as [N [evs [E Q]]].
  split.
  - intros C. rewrite C in N. discriminate.
  - exists evs. rewrite E. cbn. split; [reflexivity | exact Q].
Qed.

End Notifications.

(** * Further properties of the backend: construction, conversion,
      control, the I/O routine, latencies and enumeration *)

(** ** Constructed streams *)

Lemma init_endpoint_record_shape (env : init_env)
  (p : option cubeb_stream_params) (ret : Z) (s : cubeb_stream) (tr : list event)
  (ret' : Z) (s' : cubeb_stream) (tr' : list event) :
  fd (record s) = -1 ->
  init_endpoint env O_RDONLY p record set_record ret s tr = inr (ret', s', tr') ->
  match p with
  | None => ret' = ret /\ s' = s /\ tr' = tr
  | Some q =>
      exists sinfo,
        env_open env (name (record s)) O_RDONLY <> -1
        /\ has_loopback q = false
        /\ oss_copy_params env (env_open env (name (record s)) O_RDONLY) q
             (info (record s)) = (CUBEB_OK, sinfo)
        /\ ret' = CUBEB_OK
        /\ tr' = tr ++ [EvOpen (env_open env (name (record s)) O_RDONLY)]
        /\ s' = set_record s
                  {| name := name (record s);
                     fd := env_open env (name (record s)) O_RDONLY;
                     buf := buf (record s); info := sinfo;
                     frame_size := frame_size (record s);
                     floating := format_eqb (p_format q) CUBEB_SAMPLE_FLOAT32NE |}
  end.
Proof.
  intros F. unfold init_endpoint. destruct p as [q|].
  - fold (has_loopback q). destruct (has_loopback q); [discriminate|].
    rewrite F. cbn [Z.eqb Pos.eqb andb].
    destruct (env_open env (name (record s)) O_RDONLY =? -1) eqn:D; [discriminate|].
    cbn [negb set_record set_fd record info].
    destruct (oss_copy_params _ _ _ _) as [ret1 sinfo] eqn:C.
    destruct (ret1 =? CUBEB_OK) eqn:E; cbn [negb]; [|discriminate].
    apply Z.eqb_eq in E. apply Z.eqb_neq in D. subst ret1.
    intros H. injection H as <- <- <-.
    exists sinfo. repeat split; try assumption.
  - intros H. injection H as <- <- <-. repeat split.
Qed.

Lemma init_endpoint_play_shape (env : init_env)
  (p : option cubeb_stream_params) (ret : Z) (s : cubeb_stream) (tr : list event)
  (ret' : Z) (s' : cubeb_stream) (tr' : list event) :
  fd (play s) = -1 ->
  init_endpoint env O_WRONLY p play set_play ret s tr = inr (ret', s', tr') ->
  match p with
  | None => ret' = ret /\ s' = s /\ tr' = tr
  | Some q =>
      exists sinfo,
        env_open env (name (play s)) O_WRONLY <> -1
        /\ has_loopback q = false
        /\ oss_copy_params env (env_open env (name (play s)) O_WRONLY) q
             (info (play s)) = (CUBEB_OK, sinfo)
        /\ ret' = CUBEB_OK
        /\ tr' = tr ++ [EvOpen (env_open env (name (play s)) O_WRONLY)]
        /\ s' = set_play s
                  {| name := name (play s);
                     fd := env_open env (name (play s)) O_WRONLY;
                     buf := buf (play s); info := sinfo;
                     frame_size := frame_size (play s);
                     floating := format_eqb (p_format q) CUBEB_SAMPLE_FLOAT32NE |}
  end.
Proof.
  intros F. unfold init_endpoint. destruct p as [q|].
  - fold (has_loopback q). destruct (has_loopback q); [discriminate|].
    rewrite F. cbn [Z.eqb Pos.eqb andb].
    destruct (env_open env (name (play s)) O_WRONLY =? -1) eqn:D; [discriminate|].
    cbn [negb set_play set_fd play info].
    destruct (oss_copy_params _ _ _ _) as [ret1 sinfo] eqn:C.
    destruct (ret1 =? CUBEB_OK) eqn:E; cbn [negb]; [|discriminate].
    apply Z.eqb_eq in E. apply Z.eqb_neq in D. subst ret1.
    intros H. injection H as <- <- <-.
    exists sinfo. repeat split; try assumption.
  - intros H. injection H as <- <- <-. repeat split.
Qed.

Lemma direction_nfr_range (q : option audio_buf_info) (fsize n : Z) :
  0 <= fsize ->
  direction_nfr q fsize = Some n -> 1 <= n < 2 ^ 32.
Proof.
  intros Hf H. destruct q as [bi|]; cbn [direction_nfr] in H.
  - unfold queue_frames in H.
    destruct (imul _ _) as [p|]; cbn [obind] in H; [|discriminate].
    destruct (fsize =? 0) eqn:Z0; cbn [obind] in H; [discriminate|].
    apply Z.eqb_neq in Z0. injection H as <-.
    pose proof (u32_range p) as R.
    assert (u32 p / fsize <= u32 p).
    { apply Z.div_le_upper_bound; [lia|]. nia. }
    destruct (1 <? u32 p / fsize) eqn:C; [apply Z.ltb_lt in C|]; lia.
  - injection H as <-. lia.
Qed.

Lemma compute_frame_size_range (i : stream_info) (f : Z) :
  compute_frame_size i = Some f -> 0 <= f < 2 ^ 32.
Proof.
  unfold compute_frame_size. destruct (imul _ _) as [p|]; cbn [obind]; [|discriminate].
  intros H. injection H as <-. apply u32_range.
Qed.

Ltac stream_norm :=
  unfold set_volume, set_play, set_record, set_frame_size, set_nfr, set_buf, set_fd,
    set_info, set_floating, set_name, set_running, set_thread, set_frames_written;
  cbn [i_ret i_trace i_stream play record frame_size nfr fd buf name info floating
         thread running volume frames_written blocks_written].

(** What the part of [oss_stream_init] from the mutex creation on makes
    of a stream when it succeeds. *)
Lemma init_finish_shape (env : init_env) (ret : Z) (s : cubeb_stream)
  (tr : list event) (r : init_result) (s' : cubeb_stream) :
  init_finish env ret s tr = Some r ->
  i_stream r = Some s' ->
  buf (play s) = None -> buf (record s) = None ->
  1 <= nfr s < 2 ^ 32 ->
  i_ret r = CUBEB_OK
  /\ env_mutex_init env = true
  /\ compute_frame_size (info (play s)) = Some (frame_size (play s'))
  /\ compute_frame_size (info (record s)) = Some (frame_size (record s'))
  /\ 1 <= nfr s' < 2 ^ 32
  /\ allocated (nfr s') (play s') /\ allocated (nfr s') (record s')
  /\ i_trace r
     = tr ++ [EvMutexInit]
         ++ (if fd (play s) =? -1 then [] else [EvCalloc RPlayBuf])
         ++ (if fd (record s) =? -1 then [] else [EvCalloc RRecordBuf])
  /\ s' = {| thread := thread s; running := running s; volume := f32_one;
             play := {| name := name (play s); fd := fd (play s);
                        buf := buf (play s'); info := info (play s);
                        frame_size := frame_size (play s');
                        floating := floating (play s) |};
             record := {| name := name (record s); fd := fd (record s);
                          buf := buf (record s'); info := info (record s);
                          frame_size := frame_size (record s');
                          floating := floating (record s) |};
             frames_written := frames_written s;
             blocks_written := blocks_written s; nfr := nfr s' |}.
Proof.
  intros H Hs Bp Br Hn. unfold init_finish in H.
  destruct (env_mutex_init env); cbn [negb] in H.
  2: { injection H as <-. discriminate. }
  destruct (compute_frame_size (info (play (set_volume s f32_one)))) as [pfs|] eqn:CP;
    cbn [obind] in H; [|discriminate].
  cbn [set_volume play info] in CP.
  match type of H with
  | obind ?c _ = _ => destruct c as [playnfr|] eqn:EP; cbn [obind] in H; [|discriminate]
  end.
  destruct (compute_frame_size _) as [rfs|] eqn:CR in H; cbn [obind] in H; [|discriminate].
  cbn [set_volume set_play set_frame_size record info] in CR.
  match type of H with
  | obind ?c _ = _ => destruct c as [recnfr|] eqn:ER; cbn [obind] in H; [|discriminate]
  end.
  cbn [set_volume set_play set_record set_frame_size set_nfr set_buf
         play record fd buf nfr] in H, EP, ER.
  pose proof (compute_frame_size_range _ _ CP) as RP.
  pose proof (compute_frame_size_range _ _ CR) as RR.
  assert (NP : 1 <= playnfr < 2 ^ 32).
  { destruct (fd (play s) =? -1); [injection EP as <-; lia|].
    eapply direction_nfr_range; [|exact EP]. lia. }
  assert (NR : 1 <= recnfr < 2 ^ 32).
  { destruct (fd (record s) =? -1); [injection ER as <-; lia|].
    eapply direction_nfr_range; [|exact ER]. lia. }
  clear EP ER.
  assert (NM : 1 <= (if playnfr <? recnfr then playnfr else recnfr) < 2 ^ 32)
    by (destruct (playnfr <? recnfr); lia).
  unfold allocated, zeros.
  destruct (fd (play s) =? -1) eqn:FP; destruct (fd (record s) =? -1) eqn:FR;
    cbn [negb andb set_volume set_play set_record set_frame_size set_nfr set_buf
           play record fd buf nfr] in H;
    rewrite ?FP, ?FR in H;
    cbn [negb andb set_volume set_play set_record set_frame_size set_nfr set_buf
           play record fd buf nfr] in H;
    rewrite ?FP, ?FR in H.
  - injection H as <-. cbn in Hs. injection Hs as <-. stream_norm.
    rewrite ?FP, ?FR, ?Bp, ?Br, ?app_nil_r. repeat split; try assumption; try lia; try reflexivity;
      try (cbn [app]; rewrite <- ?app_assoc; reflexivity).
  - destruct (env_calloc_buf env RRecordBuf _ _);
      [|injection H as <-; discriminate].
    injection H as <-. cbn in Hs. injection Hs as <-. stream_norm.
    rewrite ?FP, ?FR, ?Bp. repeat split; try assumption; try lia; try reflexivity;
      try (cbn [app]; rewrite <- ?app_assoc; reflexivity).
  - destruct (env_calloc_buf env RPlayBuf _ _);
      [|injection H as <-; discriminate].
    cbn [set_play set_record set_nfr set_buf set_frame_size
           play record fd nfr frame_size] in H.
    rewrite FR in H.
    injection H as <-. cbn in Hs. injection Hs as <-. stream_norm.
    rewrite ?FP, ?FR, ?Br, ?app_nil_r. repeat split; try assumption; try lia; try reflexivity;
      try (cbn [app]; rewrite <- ?app_assoc; reflexivity).
  - destruct (env_calloc_buf env RPlayBuf _ _);
      [|injection H as <-; discriminate].
    cbn [set_play set_record set_nfr set_buf set_frame_size
           play record fd nfr frame_size] in H.
    rewrite FR in H.
    destruct (env_calloc_buf env RRecordBuf _ _);
      [|injection H as <-; discriminate].
    injection H as <-. cbn in Hs. injection Hs as <-. stream_norm.
    rewrite ?FP, ?FR, <- ?app_assoc. repeat split; try assumption; try lia; try reflexivity;
      try (cbn [app]; rewrite <- ?app_assoc; reflexivity).
Qed.

(** A successful [oss_stream_init], spelled out. *)
Lemma oss_stream_init_success (env : init_env)
  (input_device : option string) (input_stream_params : option cubeb_stream_params)
  (output_device : option string) (output_stream_params : option cubeb_stream_params)
  (r : init_result) (s : cubeb_stream) :
  oss_stream_init env input_device input_stream_params
    output_device output_stream_params = Some r ->
  i_stream r = Some s ->
  i_ret r = CUBEB_OK
  /\ env_mutex_init env = true
  /\ (thread s = 0 /\ running s = false /\ volume s = f32_one
      /\ frames_written s = 0 /\ blocks_written s = 0)
  /\ negotiated env O_RDONLY input_stream_params (resolved_name input_device) (record s)
  /\ negotiated env O_WRONLY output_stream_params (resolved_name output_device) (play s)
  /\ compute_frame_size (info (play s)) = Some (frame_size (play s))
  /\ compute_frame_size (info (record s)) = Some (frame_size (record s))
  /\ 1 <= nfr s < 2 ^ 32
  /\ allocated (nfr s) (play s) /\ allocated (nfr s) (record s)
  /\ i_trace r = construction_events s.
Proof.
  intros H Hs. unfold oss_stream_init in H.
  destruct (negb (env_calloc_stream env)).
  { injection H as <-. discriminate. }
  match type of H with
  | match init_endpoint ?e ?f ?p ?g ?st ?rt ?s0 ?t0 with _ => _ end = _ =>
      destruct (init_endpoint e f p g st rt s0 t0)
        as [[[ret1 s1] tr1]|[[ret1 s1] tr1]] eqn:E1;
      [injection H as <-; discriminate|];
      apply init_endpoint_record_shape in E1; [|reflexivity]
  end.
  match type of H with
  | match init_endpoint ?e ?f ?p ?g ?st ?rt ?s0 ?t0 with _ => _ end = _ =>
      destruct (init_endpoint e f p g st rt s0 t0)
        as [[[ret2 s2] tr2]|[[ret2 s2] tr2]] eqn:E2;
      [injection H as <-; discriminate|];
      apply init_endpoint_play_shape in E2
  end.
  2: { destruct input_stream_params as [q|].
       - destruct E1 as [sinfo (_ & _ & _ & _ & _ & ->)]. reflexivity.
       - destruct E1 as (_ & -> & _). reflexivity. }
  unfold negotiated, construction_events, resolved_name.
  destruct input_stream_params as [qi|]; destruct output_stream_params as [qo|].
  - destruct E1 as [si (D1 & L1 & C1 & -> & -> & ->)].
    destruct E2 as [so (D2 & L2 & C2 & -> & -> & ->)].
    apply init_finish_shape with (s' := s) in H; try assumption;
      [|reflexivity|reflexivity|cbn; unfold OSS_DEFAULT_NFRAMES; lia].
    destruct H as (R & M & CP & CR & N & AP & AR & T & S).
    cbn [calloc_stream play record name fd info floating buf nfr frame_size thread
           running volume frames_written blocks_written
           set_record set_play set_fd set_nfr set_name] in *.
    rewrite S. cbn [play record name fd info floating buf nfr frame_size thread
           running volume frames_written blocks_written].
    rewrite S in AP, AR. cbn [play record fd buf frame_size nfr] in AP, AR.
    apply Z.eqb_neq in D1 as D1'. apply Z.eqb_neq in D2 as D2'. rewrite D1', D2' in *.
    rewrite T, <- ?app_assoc.
    repeat split; try assumption; lia.
  - destruct E1 as [si (D1 & L1 & C1 & -> & -> & ->)].
    destruct E2 as (-> & -> & ->).
    apply init_finish_shape with (s' := s) in H; try assumption;
      [|reflexivity|reflexivity|cbn; unfold OSS_DEFAULT_NFRAMES; lia].
    destruct H as (R & M & CP & CR & N & AP & AR & T & S).
    cbn [calloc_stream play record name fd info floating buf nfr frame_size thread
           running volume frames_written blocks_written
           set_record set_play set_fd set_nfr set_name] in *.
    rewrite S. cbn [play record name fd info floating buf nfr frame_size thread
           running volume frames_written blocks_written].
    rewrite S in AP, AR. cbn [play record fd buf frame_size nfr] in AP, AR.
    apply Z.eqb_neq in D1 as D1'. rewrite D1' in *. cbn [Z.eqb] in *.
    rewrite T, <- ?app_assoc.
    repeat split; try assumption; lia.
  - destruct E1 as (-> & -> & ->).
    destruct E2 as [so (D2 & L2 & C2 & -> & -> & ->)].
    apply init_finish_shape with (s' := s) in H; try assumption;
      [|reflexivity|reflexivity|cbn; unfold OSS_DEFAULT_NFRAMES; lia].
    destruct H as (R & M & CP & CR & N & AP & AR & T & S).
    cbn [calloc_stream play record name fd info floating buf nfr frame_size thread
           running volume frames_written blocks_written
           set_record set_play set_fd set_nfr set_name] in *.
    rewrite S. cbn [play record name fd info floating buf nfr frame_size thread
           running volume frames_written blocks_written].
    rewrite S in AP, AR. cbn [play record fd buf frame_size nfr] in AP, AR.
    apply Z.eqb_neq in D2 as D2'. rewrite D2' in *. cbn [Z.eqb] in *.
    rewrite T, <- ?app_assoc.
    repeat split; try assumption; lia.
  - destruct E1 as (-> & -> & ->).
    destruct E2 as (-> & -> & ->).
    apply init_finish_shape with (s' := s) in H; try assumption;
      [|reflexivity|reflexivity|cbn; unfold OSS_DEFAULT_NFRAMES; lia].
    destruct H as (R & M & CP & CR & N & AP & AR & T & S).
    cbn [calloc_stream play record name fd info floating buf nfr frame_size thread
           running volume frames_written blocks_written
           set_record set_play set_fd set_nfr set_name] in *.
    rewrite S. cbn [play record name fd info floating buf nfr frame_size thread
           running volume frames_written blocks_written].
    rewrite S in AP, AR. cbn [play record fd buf frame_size nfr] in AP, AR.
    cbn [Z.eqb] in *.
    rewrite T, <- ?app_assoc.
    repeat split; try assumption; lia.
Qed.

Lemma construction_events_held (s : cubeb_stream) (n : Z) :
  allocated n (play s) -> allocated n (record s) ->
  held_after [] (construction_events s) = owned s.
Proof.
  unfold allocated, construction_events, owned, holds. intros -> ->.
  destruct (fd (play s) =? -1); destruct (fd (record s) =? -1); reflexivity.
Qed.

Lemma oss_stream_destroy_releases_owned (s : cubeb_stream) :
  held_after (owned s) (oss_stream_destroy s) = [].
Proof.
  unfold oss_stream_destroy, oss_stream_stop, owned, holds.
  destruct (running s); cbn [set_running play record fd buf];
    destruct (buf (record s)); destruct (buf (play s));
    destruct (fd (play s) =? -1); destruct (fd (record s) =? -1);
    cbn [app held_after acquired released free_buf];
    repeat (rewrite ?remove_one_head, ?Z.eqb_refl;
            cbn [app held_after acquired released remove_one resource_eqb]);
    reflexivity.
Qed.

Lemma length_substring_le (s : string) (n m : nat) :
  (String.length (substring n m s) <= m)%nat.
Proof.
  revert n m. induction s as [|c s IH]; intros n m.
  - destruct n, m; cbn; lia.
  - destruct n as [|n].
    + destruct m as [|m]; cbn; [lia|]. specialize (IH O m). lia.
    + cbn. apply IH.
Qed.

Lemma resolved_name_short (device : option string) :
  (String.length (resolved_name device) < OSS_DEVNODE_SIZE)%nat.
Proof.
  unfold resolved_name, strlcpy.
  match goal with
  | |- (String.length (substring 0 ?m ?s) < _)%nat =>
      pose proof (length_substring_le s 0 m) as L
  end.
  unfold OSS_DEVNODE_SIZE in *. lia.
Qed.

Lemma oss_copy_params_codes (env : init_env) (d : Z) (q : cubeb_stream_params)
  (i : stream_info) :
  In (fst (oss_copy_params env d q i))
     [CUBEB_OK; CUBEB_ERROR; CUBEB_ERROR_INVALID_FORMAT].
Proof.
  unfold oss_copy_params.
  destruct (p_format q); cbn [set_format fmt channels sample_rate precision];
    repeat match goal with
      | |- context [match env_ioctl_set ?e ?d ?r ?v with _ => _ end] =>
          destruct (env_ioctl_set e d r v)
      end; cbn [fst In]; auto.
Qed.

(** What a successful [oss_copy_params] stores, whatever [sinfo] held
    before. *)
Lemma oss_copy_params_ok (env : init_env) (d : Z) (q : cubeb_stream_params)
  (i si : stream_info) :
  oss_copy_params env d q i = (CUBEB_OK, si) ->
  format_eqb (p_format q) CUBEB_SAMPLE_FLOAT32BE = false
  /\ precision si
     = (if format_eqb (p_format q) CUBEB_SAMPLE_FLOAT32NE then 32 else 16)
  /\ env_ioctl_set env d SNDCTL_DSP_CHANNELS (p_channels q) = Some (channels si)
  /\ env_ioctl_set env d SNDCTL_DSP_SPEED (p_rate q) = Some (sample_rate si)
  /\ exists f, env_ioctl_set env d SNDCTL_DSP_SETFMT f = Some (fmt si).
Proof.
  unfold oss_copy_params.
  destruct (p_format q); cbn [set_format fmt channels sample_rate precision];
    try discriminate;
    match goal with
    | |- context [match env_ioctl_set ?e ?d ?r ?v with _ => _ end] =>
        destruct (env_ioctl_set e d r v) as [f'|] eqn:F; [|discriminate]
    end;
    cbn [set_format fmt channels sample_rate precision];
    destruct (env_ioctl_set env d SNDCTL_DSP_CHANNELS (p_channels q)) as [c'|] eqn:C;
    try discriminate;
    cbn [set_format fmt channels sample_rate precision];
    destruct (env_ioctl_set env d SNDCTL_DSP_SPEED (p_rate q)) as [r'|] eqn:R;
    try discriminate;
    intros H; injection H as <-;
    cbn [fmt channels sample_rate precision format_eqb CUBEB_SAMPLE_FLOAT32NE];
    (repeat split; try reflexivity); eexists; exact F.
Qed.

Lemma oss_copy_params_unsupported (env : init_env) (d : Z) (q : cubeb_stream_params)
  (i : stream_info) :
  format_eqb (p_format q) CUBEB_SAMPLE_FLOAT32BE = true ->
  fst (oss_copy_params env d q i) = CUBEB_ERROR_INVALID_FORMAT.
Proof.
  unfold oss_copy_params. destruct (p_format q); cbn [format_eqb]; try discriminate.
  reflexivity.
Qed.

Lemma init_endpoint_codes (env : init_env) (flag : open_flag)
  (p : option cubeb_stream_params) (get : cubeb_stream -> oss_stream)
  (set : cubeb_stream -> oss_stream -> cubeb_stream)
  (ret : Z) (s : cubeb_stream) (tr : list event) :
  In ret init_codes ->
  match init_endpoint env flag p get set ret s tr with
  | inl (ret', _, _) => In ret' init_codes /\ ret' <> CUBEB_OK
  | inr (ret', _, _) => In ret' init_codes
  end.
Proof.
  intros Hr. unfold init_endpoint. destruct p as [q|]; [|exact Hr].
  destruct (negb (Z.land (p_prefs q) CUBEB_STREAM_PREF_LOOPBACK =? 0)).
  { split; [cbn; auto|discriminate]. }
  match goal with
  | |- context [if ?d =? -1 then inl _ else _] => destruct (d =? -1)
  end.
  { split; [cbn; auto 6|discriminate]. }
  match goal with
  | |- context [oss_copy_params ?e ?d ?q ?i] =>
      pose proof (oss_copy_params_codes e d q i) as C;
      destruct (oss_copy_params e d q i) as [ret1 sinfo]
  end.
  cbn [fst] in C.
  assert (C' : In ret1 init_codes) by (cbn in C |- *; intuition).
  destruct (ret1 =? CUBEB_OK) eqn:E; cbn [negb].
  - exact C'.
  - split; [exact C'|]. now apply Z.eqb_neq.
Qed.

Lemma init_finish_codes (env : init_env) (ret : Z) (s : cubeb_stream)
  (tr : list event) (r : init_result) :
  In ret init_codes ->
  init_finish env ret s tr = Some r ->
  In (i_ret r) init_codes.
Proof.
  intros Hr H. unfold init_finish in H.
  destruct (negb (env_mutex_init env)).
  { injection H as <-. exact Hr. }
  repeat match type of H with
    | obind ?c _ = _ => destruct c; cbn [obind] in H; [|discriminate]
    end.
  repeat match type of H with
    | context [if ?c then _ else _] => destruct c
    end;
    injection H as <-; cbn; auto.
Qed.

(** Parameters the backend does not support end the construction at
    their direction. *)
Lemma init_endpoint_unsupported (env : init_env) (flag : open_flag)
  (p : option cubeb_stream_params) (get : cubeb_stream -> oss_stream)
  (set : cubeb_stream -> oss_stream -> cubeb_stream)
  (ret : Z) (s : cubeb_stream) (tr : list event) :
  unsupported p = true ->
  exists x, init_endpoint env flag p get set ret s tr = inl x.
Proof.
  unfold unsupported, init_endpoint, has_loopback. destruct p as [q|]; [|discriminate].
  intros U.
  destruct (negb (Z.land (p_prefs q) CUBEB_STREAM_PREF_LOOPBACK =? 0)); [eauto|].
  cbn [orb] in U.
  match goal with
  | |- context [if ?d =? -1 then inl _ else _] => destruct (d =? -1); [eauto|]
  end.
  match goal with
  | |- context [oss_copy_params ?e ?d ?q ?i] =>
      pose proof (oss_copy_params_unsupported e d q i U) as C;
      destruct (oss_copy_params e d q i) as [ret1 sinfo]
  end.
  cbn [fst] in C. subst ret1. cbn. eauto.
Qed.

(** X1.  A stream that [oss_stream_init] hands out holds the stream
    object, the mutex, one open handle and one buffer per active
    direction and nothing else; [oss_stream_destroy] gives all of it
    back, whether the stream was never started or was started in
    between, and in the latter case joins the thread that
    [oss_stream_start] created. *)
Theorem oss_stream_lifecycle_releases_everything (env : init_env)
  (input_device : option string) (input_stream_params : option cubeb_stream_params)
  (output_device : option string) (output_stream_params : option cubeb_stream_params)
  (r : init_result) (s : cubeb_stream) :
  oss_stream_init env input_device input_stream_params
    output_device output_stream_params = Some r ->
  i_stream r = Some s ->
  held_after [] (i_trace r) = owned s
  /\ held_after [] (i_trace r ++ oss_stream_destroy s) = []
  /\ forall tid,
       let '(s1, start_events, ret) := oss_stream_start (Some tid) s in
       ret = CUBEB_OK
       /\ held_after [] (i_trace r ++ start_events ++ oss_stream_destroy s1) = []
       /\ In (EvThreadJoin tid) (oss_stream_destroy s1).
Proof.
  intros H Hs.
  destruct (oss_stream_init_success _ _ _ _ _ _ _ H Hs)
    as (_ & _ & _ & _ & _ & _ & _ & _ & AP & AR & T).
  assert (O : held_after [] (i_trace r) = owned s).
  { rewrite T. eapply construction_events_held; eassumption. }
  split; [exact O|]. split.
  - rewrite held_after_app, O. apply oss_stream_destroy_releases_owned.
  - intros tid. cbn [oss_stream_start]. split; [reflexivity|]. split.
    + rewrite !held_after_app, O. cbn [held_after acquired released].
      apply (oss_stream_destroy_releases_owned (set_thread (set_running s true) tid)).
    + unfold oss_stream_destroy, oss_stream_stop.
      cbn [set_thread set_running running thread].
      apply in_or_app. right. apply in_or_app. left. cbn. auto.
Qed.

Lemma oss_stream_lifecycle_releases_everything_witness :
  exists r s,
    oss_stream_init (good_env true (Some (queue 4 256)) (Some (queue 2 64)))
      None (Some params16) None (Some params16) = Some r
    /\ i_stream r = Some s
    /\ owned s = [RRecordBuf; RPlayBuf; RMutex; RFd 4; RFd 3; RStream]
    /\ held_after [] (i_trace r) = owned s
    /\ held_after [] (i_trace r ++ oss_stream_destroy s) = []
    /\ forall tid,
         let '(s1, start_events, ret) := oss_stream_start (Some tid) s in
         ret = CUBEB_OK
         /\ held_after [] (i_trace r ++ start_events ++ oss_stream_destroy s1) = []
         /\ In (EvThreadJoin tid) (oss_stream_destroy s1).
Proof.
  eexists. eexists. split; [vm_compute; reflexivity|].
  split; [reflexivity|]. split; [reflexivity|].
  eapply (oss_stream_lifecycle_releases_everything
            (good_env true (Some (queue 4 256)) (Some (queue 2 64)))
            None (Some params16) None (Some params16)).
  - vm_compute. reflexivity.
  - reflexivity.
Defined.

(** X2.  Whatever [oss_stream_init] returns is one of five codes; a
    construction that hands out no stream has released everything it
    acquired; and as long as the mutex can be created the return value
    is [CUBEB_OK] exactly when a stream is handed out. *)
Theorem oss_stream_init_return_code (env : init_env)
  (input_device : option string) (input_stream_params : option cubeb_stream_params)
  (output_device : option string) (output_stream_params : option cubeb_stream_params)
  (r : init_result) :
  oss_stream_init env input_device input_stream_params
    output_device output_stream_params = Some r ->
  In (i_ret r) init_codes
  /\ (i_stream r = None -> held_after [] (i_trace r) = [])
  /\ (env_mutex_init env = true -> (i_ret r = CUBEB_OK <-> i_stream r <> None)).
Proof.
  intros H. split; [|split].
  - unfold oss_stream_init in H.
    destruct (negb (env_calloc_stream env)).
    { injection H as <-. cbn. auto. }
    match type of H with
    | match init_endpoint ?e ?f ?p ?g ?st ?rt ?s0 ?t0 with _ => _ end = _ =>
        pose proof (init_endpoint_codes e f p g st rt s0 t0) as C1;
        destruct (init_endpoint e f p g st rt s0 t0)
          as [[[ret1 s1] tr1]|[[ret1 s1] tr1]]
    end.
    { injection H as <-. apply C1. cbn. auto. }
    match type of H with
    | match init_endpoint ?e ?f ?p ?g ?st ?rt ?s0 ?t0 with _ => _ end = _ =>
        pose proof (init_endpoint_codes e f p g st rt s0 t0) as C2;
        destruct (init_endpoint e f p g st rt s0 t0)
          as [[[ret2 s2] tr2]|[[ret2 s2] tr2]]
    end.
    { injection H as <-. apply C2, C1. cbn. auto. }
    eapply init_finish_codes; [|exact H]. apply C2, C1. cbn. auto.
  - intros N. eapply oss_stream_init_failure_releases; eassumption.
  - intros M. split.
    + intros R N.
      destruct (oss_stream_init_failure_releases _ _ _ _ _ _ H N) as [_ F].
      exact (F M R).
    + intros N. destruct (i_stream r) as [s|] eqn:Hs; [|congruence].
      eapply oss_stream_init_success; eassumption.
Qed.

Lemma oss_stream_init_return_code_witness :
  exists r,
    oss_stream_init no_device_env None (Some params16) None (Some params16) = Some r
    /\ i_ret r = CUBEB_ERROR_DEVICE_UNAVAILABLE
    /\ In (i_ret r) init_codes
    /\ (i_stream r = None -> held_after [] (i_trace r) = [])
    /\ (env_mutex_init no_device_env = true
        -> (i_ret r = CUBEB_OK <-> i_stream r <> None)).
Proof.
  eexists. split; [vm_compute; reflexivity|]. split; [reflexivity|].
  eapply (oss_stream_init_return_code no_device_env
            None (Some params16) None (Some params16)).
  vm_compute. reflexivity.
Defined.

Lemma negotiated_format (env : init_env) (flag : open_flag)
  (p : option cubeb_stream_params) (nm : string) (e : oss_stream) :
  negotiated env flag p nm e ->
  compute_frame_size (info e) = Some (frame_size e) ->
  direction_format env p e.
Proof.
  unfold negotiated, direction_format, sample_bytes.
  intros [_ N] F. destruct p as [q|].
  - destruct N as (_ & _ & _ & C & Fl).
    apply oss_copy_params_ok in C. destruct C as (_ & P & Ch & Sp & _).
    rewrite Fl, P, Ch, Sp. unfold compute_frame_size, imul in F. rewrite P in F.
    destruct (format_eqb (p_format q) CUBEB_SAMPLE_FLOAT32NE);
      change (Z.quot 32 8) with 4 in F; change (Z.quot 16 8) with 2 in F;
      match type of F with
      | context [in_int32 ?x] => destruct (in_int32 x) eqn:I
      end; cbn [obind] in F; try discriminate;
      injection F as <-; repeat split; assumption.
  - destruct N as (_ & I & Fl). rewrite I in F |- *. cbn in F.
    injection F as <-. repeat split; assumption.
Qed.

(** X3.  After a successful construction a direction is open exactly
    when parameters were given for it: the record side is then the
    device opened read-only and the playback side the one opened
    write-only, each under the requested name, or [/dev/dsp] for a null
    name, cut to 31 characters; an open direction has a zeroed buffer of
    [nfr] frames and a closed one has none. *)
Theorem oss_stream_init_directions (env : init_env)
  (input_device : option string) (input_stream_params : option cubeb_stream_params)
  (output_device : option string) (output_stream_params : option cubeb_stream_params)
  (r : init_result) (s : cubeb_stream) :
  oss_stream_init env input_device input_stream_params
    output_device output_stream_params = Some r ->
  i_stream r = Some s ->
  (fd (record s) <> -1 <-> input_stream_params <> None)
  /\ (fd (play s) <> -1 <-> output_stream_params <> None)
  /\ (input_stream_params <> None ->
      fd (record s) = env_open env (name (record s)) O_RDONLY)
  /\ (output_stream_params <> None ->
      fd (play s) = env_open env (name (play s)) O_WRONLY)
  /\ name (record s) = resolved_name input_device
  /\ name (play s) = resolved_name output_device
  /\ (String.length (name (record s)) < OSS_DEVNODE_SIZE)%nat
  /\ (String.length (name (play s)) < OSS_DEVNODE_SIZE)%nat
  /\ buf (record s)
     = match input_stream_params with
       | Some _ => Some (zeros (nfr s * frame_size (record s)))
       | None => None
       end
  /\ buf (play s)
     = match output_stream_params with
       | Some _ => Some (zeros (nfr s * frame_size (play s)))
       | None => None
       end.
Proof.
  intros H Hs.
  destruct (oss_stream_init_success _ _ _ _ _ _ _ H Hs)
    as (_ & _ & _ & [NR R] & [NP P] & _ & _ & _ & AP & AR & _).
  unfold allocated in AP, AR.
  assert (LR := resolved_name_short input_device).
  assert (LP := resolved_name_short output_device).
  rewrite NR, NP.
  destruct input_stream_params as [qi|]; destruct output_stream_params as [qo|];
    repeat match goal with
      | H : _ /\ _ |- _ => destruct H
      end;
    repeat match goal with
      | H : fd ?e <> -1 |- _ => apply Z.eqb_neq in H as ?; clear H
      | H : fd ?e = -1 |- _ => apply Z.eqb_eq in H as ?; clear H
      end;
    repeat match goal with
      | H : (fd ?e =? -1) = _ |- _ => rewrite H in *
      end;
    repeat match goal with
      | H : (fd ?e =? -1) = false |- _ => apply Z.eqb_neq in H
      | H : (fd ?e =? -1) = true |- _ => apply Z.eqb_eq in H
      end;
    repeat split; try assumption; try congruence; try tauto.
Qed.

Lemma oss_stream_init_directions_witness :
  exists r s,
    oss_stream_init (good_env true (Some (queue 4 256)) None)
      None None (Some "/dev/dsp1.0_with_a_name_that_is_far_too_long"%string)
      (Some params16) = Some r
    /\ i_stream r = Some s
    /\ name (play s) = "/dev/dsp1.0_with_a_name_that_is"%string
    /\ ((fd (record s) <> -1 <-> @None cubeb_stream_params <> None)
        /\ (fd (play s) <> -1 <-> Some params16 <> None)
        /\ (@None cubeb_stream_params <> None ->
            fd (record s)
            = env_open (good_env true (Some (queue 4 256)) None)
                (name (record s)) O_RDONLY)
        /\ (Some params16 <> None ->
            fd (play s)
            = env_open (good_env true (Some (queue 4 256)) None)
                (name (play s)) O_WRONLY)
        /\ name (record s) = resolved_name None
        /\ name (play s)
           = resolved_name (Some "/dev/dsp1.0_with_a_name_that_is_far_too_long"%string)
        /\ (String.length (name (record s)) < OSS_DEVNODE_SIZE)%nat
        /\ (String.length (name (play s)) < OSS_DEVNODE_SIZE)%nat
        /\ buf (record s) = None
        /\ buf (play s) = Some (zeros (nfr s * frame_size (play s)))).
Proof.
  eexists. eexists. split; [vm_compute; reflexivity|].
  split; [reflexivity|]. split; [reflexivity|].
  eapply (oss_stream_init_directions (good_env true (Some (queue 4 256)) None)
            None None (Some "/dev/dsp1.0_with_a_name_that_is_far_too_long"%string)
            (Some params16)).
  - vm_compute. reflexivity.
  - reflexivity.
Defined.

(** X4.  A stream that [oss_stream_init] hands out is not running, at
    full volume and at position 0, with a block of at least one frame.
    For a direction with parameters the sample width is 32 bits for
    native float samples and 16 bits otherwise, whatever format the
    device answered; the channel count and the rate are the device's
    answers to the requested ones; and the frame size is the channel
    count times the sample width in bytes.  A direction without
    parameters keeps an all-zero format and a frame size of 0. *)
Theorem oss_stream_init_formats (env : init_env)
  (input_device : option string) (input_stream_params : option cubeb_stream_params)
  (output_device : option string) (output_stream_params : option cubeb_stream_params)
  (r : init_result) (s : cubeb_stream) :
  oss_stream_init env input_device input_stream_params
    output_device output_stream_params = Some r ->
  i_stream r = Some s ->
  running s = false /\ volume s = f32_one /\ frames_written s = 0
  /\ 1 <= nfr s < 2 ^ 32
  /\ direction_format env input_stream_params (record s)
  /\ direction_format env output_stream_params (play s).
Proof.
  intros H Hs.
  destruct (oss_stream_init_success _ _ _ _ _ _ _ H Hs)
    as (_ & _ & (_ & Ru & V & FW & _) & NR & NP & CP & CR & N & _).
  repeat split; try assumption; try lia.
  - eapply negotiated_format; eassumption.
  - eapply negotiated_format; eassumption.
Qed.

Lemma oss_stream_init_formats_witness :
  exists r s,
    oss_stream_init (good_env true (Some (queue 4 256)) (Some (queue 2 64)))
      None (Some params_float) None (Some params16) = Some r
    /\ i_stream r = Some s
    /\ frame_size (record s) = 8 /\ frame_size (play s) = 4 /\ nfr s = 16
    /\ (running s = false /\ volume s = f32_one /\ frames_written s = 0
        /\ 1 <= nfr s < 2 ^ 32
        /\ direction_format (good_env true (Some (queue 4 256)) (Some (queue 2 64)))
             (Some params_float) (record s)
        /\ direction_format (good_env true (Some (queue 4 256)) (Some (queue 2 64)))
             (Some params16) (play s)).
Proof.
  eexists. eexists. split; [vm_compute; reflexivity|].
  split; [reflexivity|]. repeat (split; [reflexivity|]).
  eapply (oss_stream_init_formats
            (good_env true (Some (queue 4 256)) (Some (queue 2 64)))
            None (Some params_float) None (Some params16)).
  - vm_compute. reflexivity.
  - reflexivity.
Defined.



(** ** The sample converters *)

Lemma s16_range (x : Z) : - 2 ^ 15 <= s16 x < 2 ^ 15.
Proof. unfold s16. pose proof (Z.mod_pos_bound (x + 2 ^ 15) (2 ^ 16)). lia. Qed.

Lemma s16_small (x : Z) : - 2 ^ 15 <= x < 2 ^ 15 -> s16 x = x.
Proof. intros H. unfold s16. rewrite Z.mod_small; lia. Qed.

Lemma s16_mod (x : Z) : s16 (x mod 2 ^ 16) = s16 x.
Proof.
  unfold s16. rewrite Zplus_mod_idemp_l. reflexivity.
Qed.

Lemma s16_pattern (x : Z) : s16 x mod 2 ^ 16 = x mod 2 ^ 16.
Proof.
  unfold s16. rewrite Zminus_mod_idemp_l.
  replace (x + 2 ^ 15 - 2 ^ 15) with x by lia. reflexivity.
Qed.

Lemma load16_store16 (x : Z) :
  0 <= x < 2 ^ 16 -> load16 (x mod 256) ((x / 256) mod 256) = x.
Proof.
  intros H. unfold load16.
  rewrite (Z.mod_small (x / 256) 256).
  - pose proof (Z.div_mod x 256). lia.
  - split; [apply Z.div_pos; lia|]. apply Z.div_lt_upper_bound; lia.
Qed.

Lemma store16_load16 (b0 b1 : byte) :
  0 <= b0 < 256 -> 0 <= b1 < 256 -> store16 (load16 b0 b1) = [b0; b1].
Proof.
  intros H0 H1. unfold store16, load16.
  replace (b0 + 256 * b1) with (b0 + b1 * 256) by lia.
  rewrite Z.mod_add, Z.div_add by lia.
  rewrite (Z.mod_small b0 256), (Z.div_small b0 256) by lia.
  cbn [Z.add]. rewrite Z.mod_small by lia. reflexivity.
Qed.

Lemma sample16_at_next (a b : byte) (l : list byte) (i : nat) :
  sample16_at (a :: b :: l) (S i) = sample16_at l i.
Proof.
  unfold sample16_at.
  replace (2 * S i)%nat with (2 + 2 * i)%nat by lia.
  reflexivity.
Qed.

Lemma bytes32_at_next (a b c d : byte) (l : list byte) (i : nat) :
  bytes32_at (a :: b :: c :: d :: l) (S i) = bytes32_at l i.
Proof.
  unfold bytes32_at.
  replace (4 * S i)%nat with (4 + 4 * i)%nat by lia.
  reflexivity.
Qed.

(** The product of a sample and a multiplier between 0 and 2^15, and
    what the shift makes of it. *)
Lemma scaled_sample_fits (x m : Z) :
  - 2 ^ 15 <= x < 2 ^ 15 -> 0 <= m <= 32768 ->
  in_int32 (x * m) = true
  /\ - 2 ^ 15 <= x * m / 2 ^ 15 < 2 ^ 15
  /\ Z.abs (x * m / 2 ^ 15) <= Z.abs x.
Proof.
  intros Hx Hm.
  assert (P : - 2 ^ 30 <= x * m <= 2 ^ 30) by nia.
  split; [|split].
  - unfold in_int32, INT32_MIN, INT32_MAX.
    apply andb_true_iff; split; apply Z.leb_le; lia.
  - split.
    + apply Z.div_le_lower_bound; nia.
    + apply Z.div_lt_upper_bound; nia.
  - destruct (Z_lt_le_dec x 0) as [N|N].
    + assert (x <= x * m / 2 ^ 15) by (apply Z.div_le_lower_bound; nia).
      assert (x * m / 2 ^ 15 <= 0).
      { assert (x * m / 2 ^ 15 < 1); [|lia]. apply Z.div_lt_upper_bound; nia. }
      lia.
    + assert (0 <= x * m / 2 ^ 15) by (apply Z.div_pos; nia).
      assert (x * m / 2 ^ 15 <= x).
      { assert (x * m / 2 ^ 15 < x + 1); [|lia]. apply Z.div_lt_upper_bound; nia. }
      lia.
Qed.

Lemma linear16_set_vol_loop_scales (m : Z) (count : nat) :
  0 <= m <= 32768 ->
  forall buf,
    (2 * count <= length buf)%nat ->
    exists out,
      linear16_set_vol_loop buf count m = Some out
      /\ length out = length buf
      /\ skipn (2 * count) out = skipn (2 * count) buf
      /\ forall i, (i < count)%nat ->
           sample16_at out i = sample16_at buf i * m / 2 ^ 15.
Proof.
  intros Hm. induction count as [|count IH]; intros buf Hl.
  - exists buf. cbn [linear16_set_vol_loop]. repeat split. intros i Hi. lia.
  - destruct buf as [|b0 [|b1 rest]]; cbn [length] in Hl; try lia.
    cbn [linear16_set_vol_loop].
    destruct (scaled_sample_fits (s16 (load16 b0 b1)) m (s16_range _) Hm)
      as (I & R & _).
    rewrite I.
    destruct (IH rest ltac:(lia)) as (rest' & E & L & T & Sm).
    rewrite E. cbn [obind]. eexists. split; [reflexivity|].
    split; [|split].
    + cbn [store16 app length]. now rewrite L.
    + replace (2 * S count)%nat with (2 + 2 * count)%nat by lia.
      cbn [store16 app]. exact T.
    + intros [|i] Hi.
      * unfold sample16_at. cbn [Nat.mul Nat.add skipn store16 app].
        rewrite Z.shiftr_div_pow2 by lia.
        rewrite load16_store16 by (apply Z.mod_pos_bound; lia).
        rewrite s16_mod, !(s16_small _ R). reflexivity.
      * cbn [store16 app]. rewrite !sample16_at_next. apply Sm. lia.
Qed.

(** X6.  For a volume whose 16-bit multiplier [vol * 0x8000] lies
    between 0 and 0x8000, [oss_linear16_set_vol] is defined on any
    buffer that holds the samples; it replaces each of the first
    [sample_count] samples [x] by [x * multiplier / 0x8000] rounded
    towards minus infinity, which is never larger in magnitude than
    [x], and it keeps the length of the buffer and the bytes after the
    samples. *)
Theorem oss_linear16_set_vol_attenuates (buf : list byte) (sample_count : Z)
  (vol : float) (multiplier : Z) :
  float_to_int32 (f32mul vol (f32_of_Z 32768)) = Some multiplier ->
  0 <= multiplier <= 32768 ->
  (2 * Z.to_nat sample_count <= length buf)%nat ->
  exists out,
    oss_linear16_set_vol buf sample_count vol = Some out
    /\ length out = length buf
    /\ skipn (2 * Z.to_nat sample_count) out = skipn (2 * Z.to_nat sample_count) buf
    /\ forall i, (i < Z.to_nat sample_count)%nat ->
         sample16_at out i = sample16_at buf i * multiplier / 2 ^ 15
         /\ Z.abs (sample16_at out i) <= Z.abs (sample16_at buf i).
Proof.
  intros M Hm Hl. unfold oss_linear16_set_vol. rewrite M. cbn [obind].
  destruct (linear16_set_vol_loop_scales multiplier (Z.to_nat sample_count) Hm buf Hl)
    as (out & E & L & T & Sm).
  exists out. repeat split; try assumption.
  - now apply Sm.
  - rewrite (Sm i H).
    assert (R : - 2 ^ 15 <= sample16_at buf i < 2 ^ 15).
    { unfold sample16_at. destruct (skipn (2 * i) buf) as [|b0 [|b1 l]]; try lia.
      apply s16_range. }
    apply (scaled_sample_fits _ _ R Hm).
Qed.

Lemma oss_linear16_set_vol_attenuates_witness :
  float_to_int32 (f32mul f32_half (f32_of_Z 32768)) = Some 16384
  /\ 0 <= 16384 <= 32768
  /\ (2 * Z.to_nat 4 <= length pcm16_buffer)%nat
  /\ exists out,
       oss_linear16_set_vol pcm16_buffer 4 f32_half = Some out
       /\ length out = length pcm16_buffer
       /\ skipn (2 * Z.to_nat 4) out = skipn (2 * Z.to_nat 4) pcm16_buffer
       /\ forall i, (i < Z.to_nat 4)%nat ->
            sample16_at out i = sample16_at pcm16_buffer i * 16384 / 2 ^ 15
            /\ Z.abs (sample16_at out i) <= Z.abs (sample16_at pcm16_buffer i).
Proof.
  split; [vm_compute; reflexivity|]. split; [lia|].
  split; [vm_compute; lia|].
  apply (oss_linear16_set_vol_attenuates pcm16_buffer 4 f32_half 16384).
  - vm_compute. reflexivity.
  - lia.
  - vm_compute. lia.
Defined.

Lemma octets_cons2 (b0 b1 : byte) (l : list byte) :
  octets (b0 :: b1 :: l) -> 0 <= b0 < 256 /\ 0 <= b1 < 256 /\ octets l.
Proof.
  unfold octets. intros H. inversion H as [|? ? H0 H']; subst.
  inversion H' as [|? ? H1 H'']; subst. auto.
Qed.

Lemma linear16_set_vol_loop_unit (count : nat) :
  forall buf,
    octets buf -> (2 * count <= length buf)%nat ->
    linear16_set_vol_loop buf count 32768 = Some buf.
Proof.
  induction count as [|count IH]; intros buf Ho Hl; [reflexivity|].
  destruct buf as [|b0 [|b1 rest]]; cbn [length] in Hl; try lia.
  destruct (octets_cons2 _ _ _ Ho) as (H0 & H1 & Hr).
  cbn [linear16_set_vol_loop].
  destruct (scaled_sample_fits (s16 (load16 b0 b1)) 32768 (s16_range _) ltac:(lia))
    as (I & _ & _).
  rewrite I, (IH rest Hr ltac:(lia)). cbn [obind].
  rewrite Z.shiftr_div_pow2 by lia.
  change (2 ^ 15) with 32768. rewrite Z.div_mul by lia.
  change (s16 (s16 (load16 b0 b1)) mod 2 ^ 16)
    with (s16 (s16 (load16 b0 b1)) mod 2 ^ 16).
  rewrite !s16_pattern.
  rewrite Z.mod_small by (unfold load16; lia).
  now rewrite store16_load16.
Qed.

Lemma linear16_set_vol_loop_zero (count : nat) :
  forall buf,
    (2 * count <= length buf)%nat ->
    linear16_set_vol_loop buf count 0
    = Some (repeat 0 (2 * count) ++ skipn (2 * count) buf).
Proof.
  induction count as [|count IH]; intros buf Hl; [reflexivity|].
  destruct buf as [|b0 [|b1 rest]]; cbn [length] in Hl; try lia.
  cbn [linear16_set_vol_loop]. rewrite Z.mul_0_r.
  change (in_int32 0) with true. cbv iota.
  rewrite (IH rest ltac:(lia)). cbn [obind].
  replace (2 * S count)%nat with (S (S (2 * count))) by lia.
  reflexivity.
Qed.

(** X7.  On a buffer of octets that holds the samples,
    [oss_linear16_set_vol] at volume 1.0 changes nothing, and at volume
    0.0 it zeroes the first [sample_count] samples and nothing else. *)
Theorem oss_linear16_set_vol_full_and_zero_volume (buf : list byte)
  (sample_count : Z) :
  octets buf ->
  (2 * Z.to_nat sample_count <= length buf)%nat ->
  oss_linear16_set_vol buf sample_count f32_one = Some buf
  /\ oss_linear16_set_vol buf sample_count f32_zero
     = Some (repeat 0 (2 * Z.to_nat sample_count)
               ++ skipn (2 * Z.to_nat sample_count) buf).
Proof.
  intros Ho Hl. unfold oss_linear16_set_vol. split.
  - change (float_to_int32 (f32mul f32_one (f32_of_Z 32768))) with (Some 32768).
    cbn [obind]. now apply linear16_set_vol_loop_unit.
  - change (float_to_int32 (f32mul f32_zero (f32_of_Z 32768))) with (Some 0).
    cbn [obind]. now apply linear16_set_vol_loop_zero.
Qed.

Lemma oss_linear16_set_vol_full_and_zero_volume_witness :
  octets pcm16_buffer
  /\ (2 * Z.to_nat 4 <= length pcm16_buffer)%nat
  /\ oss_linear16_set_vol pcm16_buffer 4 f32_one = Some pcm16_buffer
  /\ oss_linear16_set_vol pcm16_buffer 4 f32_zero
     = Some (repeat 0 (2 * Z.to_nat 4) ++ skipn (2 * Z.to_nat 4) pcm16_buffer).
Proof.
  assert (O : octets pcm16_buffer) by (repeat constructor; lia).
  assert (L : (2 * Z.to_nat 4 <= length pcm16_buffer)%nat) by (vm_compute; lia).
  split; [exact O|]. split; [exact L|].
  exact (oss_linear16_set_vol_full_and_zero_volume pcm16_buffer 4 O L).
Defined.

Lemma linear32_to_float_loop_defined (count : nat) :
  forall buf,
    (4 * count <= length buf)%nat <-> linear32_to_float_loop buf count <> None.
Proof.
  induction count as [|count IH]; intros buf.
  - cbn [linear32_to_float_loop]. split; [discriminate|lia].
  - destruct buf as [|b0 [|b1 [|b2 [|b3 rest]]]]; cbn [linear32_to_float_loop length];
      try (split; [lia|congruence]).
    specialize (IH rest).
    destruct (linear32_to_float_loop rest count); cbn [obind].
    + split; [discriminate|]. intros _.
      assert (4 * count <= length rest)%nat by (apply IH; discriminate). lia.
    + split; [|congruence]. intros H.
      assert (4 * count <= length rest)%nat by lia. tauto.
Qed.

Lemma linear32_to_float_loop_converts (count : nat) :
  forall buf out,
    linear32_to_float_loop buf count = Some out ->
    length out = length buf
    /\ skipn (4 * count) out = skipn (4 * count) buf
    /\ forall i, (i < count)%nat ->
         bytes32_at out i
         = store32 (float_to_bits (linear32_to_float_sample (word32_at buf i))).
Proof.
  induction count as [|count IH]; intros buf out H; cbn [linear32_to_float_loop] in H.
  - injection H as <-. repeat split. intros i Hi. lia.
  - destruct buf as [|b0 [|b1 [|b2 [|b3 rest]]]]; try discriminate.
    destruct (linear32_to_float_loop rest count) as [rest'|] eqn:E;
      cbn [obind] in H; [|discriminate].
    injection H as <-. destruct (IH rest rest' E) as (L & T & Sm).
    split; [|split].
    + cbn [store32 app length]. now rewrite L.
    + replace (4 * S count)%nat with (4 + 4 * count)%nat by lia.
      cbn [store32 app]. exact T.
    + intros [|i] Hi.
      * reflexivity.
      * cbn [store32 app]. rewrite bytes32_at_next, word32_at_next. apply Sm. lia.
Qed.

(** X8.  [oss_linear32_to_float] is defined exactly when the buffer
    holds [sample_count] 32-bit samples.  It then keeps the length of
    the buffer, stores in the place of every sample the bit pattern of
    [(1.0 / 0x80000000) * sample] narrowed to [float], each computed
    from the sample that was there, and leaves the bytes after the
    samples as they were. *)
Theorem oss_linear32_to_float_converts_in_place (buf : list byte) (sample_count : Z) :
  ((4 * Z.to_nat sample_count <= length buf)%nat
   <-> oss_linear32_to_float buf sample_count <> None)
  /\ forall out,
       oss_linear32_to_float buf sample_count = Some out ->
       length out = length buf
       /\ skipn (4 * Z.to_nat sample_count) out = skipn (4 * Z.to_nat sample_count) buf
       /\ forall i, (i < Z.to_nat sample_count)%nat ->
            bytes32_at out i
            = store32 (float_to_bits (linear32_to_float_sample (word32_at buf i))).
Proof.
  unfold oss_linear32_to_float. split.
  - apply linear32_to_float_loop_defined.
  - apply linear32_to_float_loop_converts.
Qed.

Lemma scale_to_linear32_of_zero (x vol : float) :
  finite_float x = true -> finite_float vol = true ->
  is_zero_float x || is_zero_float vol = true ->
  scale_to_linear32 x vol = Some 0.
Proof.
  destruct x as [sx|sx| |sx mx ex]; destruct vol as [sv|sv| |sv mv ev];
    cbn [finite_float is_zero_float orb]; try discriminate; intros _ _ _;
    try destruct sx; try destruct sv; reflexivity.
Qed.

Lemma float_to_linear32_loop_zero_volume (count : nat) :
  forall buf,
    (4 * count <= length buf)%nat ->
    (forall i, (i < count)%nat ->
       finite_float (bits_to_float (word32_at buf i)) = true) ->
    float_to_linear32_loop buf count f32_zero
    = Some (repeat 0 (4 * count) ++ skipn (4 * count) buf).
Proof.
  induction count as [|count IH]; intros buf Hl Hf; [reflexivity|].
  destruct buf as [|b0 [|b1 [|b2 [|b3 rest]]]]; cbn [length] in Hl; try lia.
  cbn [float_to_linear32_loop].
  assert (F0 := Hf O ltac:(lia)).
  change (word32_at (b0 :: b1 :: b2 :: b3 :: rest) 0) with (load32 b0 b1 b2 b3) in F0.
  rewrite (scale_to_linear32_of_zero _ f32_zero F0 eq_refl) by apply orb_true_r.
  cbn [obind]. rewrite (IH rest ltac:(lia)).
  - cbn [obind]. replace (4 * S count)%nat with (4 + 4 * count)%nat by lia.
    reflexivity.
  - intros i Hi. specialize (Hf (S i) ltac:(lia)).
    now rewrite word32_at_next in Hf.
Qed.

(** X9.  At volume 0.0 [oss_float_to_linear32] turns every sample that
    is neither an infinity nor a NaN into 0: the first [sample_count]
    samples of the buffer become zero bytes and the rest stays. *)
Theorem oss_float_to_linear32_zero_volume_mutes (buf : list byte) (sample_count : Z) :
  (4 * Z.to_nat sample_count <= length buf)%nat ->
  (forall i, (i < Z.to_nat sample_count)%nat ->
     finite_float (bits_to_float (word32_at buf i)) = true) ->
  oss_float_to_linear32 buf sample_count f32_zero
  = Some (repeat 0 (4 * Z.to_nat sample_count)
            ++ skipn (4 * Z.to_nat sample_count) buf).
Proof.
  intros Hl Hf. unfold oss_float_to_linear32.
  now apply float_to_linear32_loop_zero_volume.
Qed.

Lemma oss_float_to_linear32_zero_volume_mutes_witness :
  (4 * Z.to_nat 3 <= length float_buffer)%nat
  /\ (forall i, (i < Z.to_nat 3)%nat ->
        finite_float (bits_to_float (word32_at float_buffer i)) = true)
  /\ oss_float_to_linear32 float_buffer 3 f32_zero
     = Some (repeat 0 (4 * Z.to_nat 3) ++ skipn (4 * Z.to_nat 3) float_buffer).
Proof.
  assert (L : (4 * Z.to_nat 3 <= length float_buffer)%nat) by (vm_compute; lia).
  assert (F : forall i, (i < Z.to_nat 3)%nat ->
                finite_float (bits_to_float (word32_at float_buffer i)) = true).
  { intros i Hi. change (Z.to_nat 3) with 3%nat in Hi.
    destruct i as [|[|[|i]]]; try lia; vm_compute; reflexivity. }
  split; [exact L|]. split; [exact F|].
  exact (oss_float_to_linear32_zero_volume_mutes float_buffer 3 L F).
Defined.

Lemma float_to_linear32_loop_silence (vol : float) (count : nat) :
  finite_float vol = true ->
  float_to_linear32_loop (repeat 0 (4 * count)) count vol = Some (repeat 0 (4 * count)).
Proof.
  intros Hv. induction count as [|count IH]; [reflexivity|].
  replace (4 * S count)%nat with (4 + 4 * count)%nat by lia.
  cbn [repeat Nat.add float_to_linear32_loop].
  change (bits_to_float (load32 0 0 0 0)) with (S754_zero false).
  rewrite (scale_to_linear32_of_zero (S754_zero false) vol eq_refl Hv eq_refl).
  cbn [obind]. rewrite IH. reflexivity.
Qed.

Lemma linear32_to_float_loop_silence (count : nat) :
  linear32_to_float_loop (repeat 0 (4 * count)) count = Some (repeat 0 (4 * count)).
Proof.
  induction count as [|count IH]; [reflexivity|].
  replace (4 * S count)%nat with (4 + 4 * count)%nat by lia.
  cbn [repeat Nat.add linear32_to_float_loop]. rewrite IH. cbn [obind].
  change (store32 (float_to_bits (linear32_to_float_sample (load32 0 0 0 0))))
    with [0; 0; 0; 0].
  reflexivity.
Qed.

Lemma linear16_set_vol_loop_silence (m : Z) (count : nat) :
  linear16_set_vol_loop (repeat 0 (2 * count)) count m = Some (repeat 0 (2 * count)).
Proof.
  induction count as [|count IH]; [reflexivity|].
  replace (2 * S count)%nat with (2 + 2 * count)%nat by lia.
  cbn [repeat Nat.add linear16_set_vol_loop].
  change (s16 (load16 0 0)) with 0. rewrite Z.mul_0_l.
  change (in_int32 0) with true. cbv iota. rewrite IH. reflexivity.
Qed.

(** X10.  Silence stays silence: on a buffer of zero bytes each of the
    three converters returns the buffer unchanged, at any volume that is
    neither an infinity nor a NaN and, for the 16-bit samples, has a
    multiplier that fits an [int32_t]. *)
Theorem converters_keep_silence (count : nat) (vol : float) :
  finite_float vol = true ->
  oss_float_to_linear32 (repeat 0 (4 * count)) (Z.of_nat count) vol
  = Some (repeat 0 (4 * count))
  /\ oss_linear32_to_float (repeat 0 (4 * count)) (Z.of_nat count)
     = Some (repeat 0 (4 * count))
  /\ (float_to_int32 (f32mul vol (f32_of_Z 32768)) <> None ->
      oss_linear16_set_vol (repeat 0 (2 * count)) (Z.of_nat count) vol
      = Some (repeat 0 (2 * count))).
Proof.
  intros Hv.
  unfold oss_float_to_linear32, oss_linear32_to_float, oss_linear16_set_vol.
  rewrite Nat2Z.id. split; [|split].
  - now apply float_to_linear32_loop_silence.
  - apply linear32_to_float_loop_silence.
  - intros M. destruct (float_to_int32 _) as [m|]; [|congruence].
    cbn [obind]. apply linear16_set_vol_loop_silence.
Qed.

Lemma converters_keep_silence_witness :
  finite_float f32_half = true
  /\ oss_float_to_linear32 (repeat 0 (4 * 3)) (Z.of_nat 3) f32_half
     = Some (repeat 0 (4 * 3))
  /\ oss_linear32_to_float (repeat 0 (4 * 3)) (Z.of_nat 3) = Some (repeat 0 (4 * 3))
  /\ (float_to_int32 (f32mul f32_half (f32_of_Z 32768)) <> None ->
      oss_linear16_set_vol (repeat 0 (2 * 3)) (Z.of_nat 3) f32_half
      = Some (repeat 0 (2 * 3))).
Proof.
  split; [reflexivity|].
  exact (converters_keep_silence 3 f32_half eq_refl).
Defined.

Lemma oss_linear32_to_float_converts_in_place_witness :
  oss_linear32_to_float linear32_buffer 3
  = Some (store32 1056964608 ++ store32 3212836864 ++ store32 2952790016 ++ [5])
  /\ (((4 * Z.to_nat 3 <= length linear32_buffer)%nat
       <-> oss_linear32_to_float linear32_buffer 3 <> None)
      /\ forall out,
           oss_linear32_to_float linear32_buffer 3 = Some out ->
           length out = length linear32_buffer
           /\ skipn (4 * Z.to_nat 3) out = skipn (4 * Z.to_nat 3) linear32_buffer
           /\ forall i, (i < Z.to_nat 3)%nat ->
                bytes32_at out i
                = store32 (float_to_bits
                             (linear32_to_float_sample (word32_at linear32_buffer i)))).
Proof.
  split; [vm_compute; reflexivity|].
  exact (oss_linear32_to_float_converts_in_place linear32_buffer 3).
Defined.

(** ** What a run of the I/O routine keeps *)

Lemma u64_idem (x : Z) : u64 (u64 x) = u64 x.
Proof. unfold u64. apply Z.mod_mod. lia. Qed.

Lemma u64_add_l (x y : Z) : u64 (u64 x + y) = u64 (x + y).
Proof. unfold u64. apply Zplus_mod_idemp_l. Qed.

Lemma frames_accepted_app (pfs : Z) (a b : list event) :
  frames_accepted pfs (a ++ b) = frames_accepted pfs a + frames_accepted pfs b.
Proof.
  induction a as [|e a IH]; cbn [app frames_accepted fold_right]; [reflexivity|].
  fold (frames_accepted pfs (a ++ b)). fold (frames_accepted pfs a). lia.
Qed.

Lemma frames_accepted_no_write (pfs : Z) (evs : list event) :
  Forall (fun e => is_write e = false) evs -> frames_accepted pfs evs = 0.
Proof.
  induction 1 as [|e evs He _ IH]; [reflexivity|].
  cbn [frames_accepted fold_right]. fold (frames_accepted pfs evs). rewrite IH.
  destruct e; cbn in He |- *; try reflexivity. discriminate.
Qed.

Ltac xfer_norm :=
  cbn [x_state x_to_write x_to_read x_write_ofs x_read_ofs x_frames_written
         x_record x_writes x_reads x_events].

Lemma xfer_kept_refl (pfs : Z) (x : xfer) : xfer_kept pfs x x.
Proof.
  intros Ho Hr. split; [exact Ho|]. split; [exact Hr|]. split; [reflexivity|].
  split; [now left|]. split; [auto|].
  exists []. rewrite app_nil_r. cbn [frames_accepted fold_right]. rewrite Z.add_0_r.
  repeat split; try assumption; constructor.
Qed.

Lemma xfer_kept_trans (pfs : Z) (x y z : xfer) :
  xfer_kept pfs x y -> xfer_kept pfs y z -> xfer_kept pfs x z.
Proof.
  intros A B Ho Hr.
  destruct (A Ho Hr) as (Ho1 & Hr1 & L1 & S1 & G1 & e1 & E1 & D1 & F1 & W1 & R1).
  destruct (B Ho1 Hr1) as (Ho2 & Hr2 & L2 & S2 & G2 & e2 & E2 & D2 & F2 & W2 & R2).
  split; [exact Ho2|]. split; [exact Hr2|]. split; [congruence|].
  split; [destruct S2 as [S2|S2]; [rewrite S2; exact S1|now right]|].
  split; [auto|].
  exists (e1 ++ e2). split; [now rewrite E2, E1, app_assoc|].
  split; [apply Forall_app; now split|]. split.
  - rewrite F2, <- u64_add_l, F1, u64_add_l, frames_accepted_app. f_equal. lia.
  - split.
    + intros Z0. destruct (W1 Z0) as (Z1 & N1 & K1).
      destruct (W2 Z1) as (Z2 & N2 & K2).
      split; [exact Z2|]. split; [apply Forall_app; now split|]. congruence.
    + intros Z0. destruct (R1 Z0) as (Z1 & N1 & K1).
      destruct (R2 Z1) as (Z2 & N2 & K2).
      split; [exact Z2|]. split; [apply Forall_app; now split|]. congruence.
Qed.

Section Kept.

Variable env : io_env.

Lemma write_step_kept (pfs : Z) (pb : list byte) (x w : xfer) :
  write_step env pfs pb x = Some w -> xfer_kept pfs x w.
Proof.
  unfold write_step. intros H.
  destruct (0 <? x_to_write x) eqn:T.
  2: { injection H as <-. apply xfer_kept_refl. }
  apply Z.ltb_lt in T.
  destruct (in_bounds (x_write_ofs x) (u64 (x_to_write x * pfs)) pb) eqn:B;
    cbn [negb] in H; [|discriminate].
  unfold in_bounds in B. apply Z.leb_le in B.
  pose proof (u64_range (x_to_write x * pfs)) as Ub.
  set (n := Z.min (io_write env (x_writes x) (u64 (x_to_write x * pfs)))
              (u64 (x_to_write x * pfs))) in *.
  destruct (n <? 0) eqn:N.
  - injection H as <-. intros Ho Hr. xfer_norm.
    split; [exact Ho|]. split; [exact Hr|]. split; [reflexivity|].
    split; [now right|]. split; [auto|].
    exists []. rewrite app_nil_r. cbn [frames_accepted fold_right]. rewrite Z.add_0_r.
    repeat split; try constructor; lia.
  - apply Z.ltb_ge in N.
    destruct (pfs =? 0); [discriminate|].
    injection H as <-. intros Ho Hr. xfer_norm.
    split; [apply u64_range|]. split; [exact Hr|]. split; [reflexivity|].
    split; [now left|]. split; [intros _; apply u64_range|].
    eexists. split; [reflexivity|]. split; [repeat constructor|].
    split.
    + cbn [frames_accepted fold_right frames_in].
      rewrite length_slice by (unfold n in *; lia).
      rewrite Z2Nat.id by exact N. rewrite u64_idem, Z.add_0_r. reflexivity.
    + split; intros Z0; [lia|]. repeat split; try assumption. repeat constructor.
Qed.

Lemma read_step_kept (pfs rfs : Z) (x r : xfer) :
  read_step env rfs x = Some r -> xfer_kept pfs x r.
Proof.
  unfold read_step. intros H.
  destruct (0 <? x_to_read x) eqn:T.
  2: { injection H as <-. apply xfer_kept_refl. }
  apply Z.ltb_lt in T.
  destruct (in_bounds (x_read_ofs x) (u64 (x_to_read x * rfs)) (x_record x)) eqn:B;
    cbn [negb] in H; [|discriminate].
  unfold in_bounds in B. apply Z.leb_le in B.
  pose proof (u64_range (x_to_read x * rfs)) as Ub.
  destruct (io_read env (x_reads x) (u64 (x_to_read x * rfs))) as [delivered|].
  - destruct (rfs =? 0); [discriminate|].
    injection H as <-. intros Ho Hr. xfer_norm.
    split; [exact Ho|]. split; [apply u64_range|]. split.
    + apply store_at_length; [exact Hr|]. rewrite length_firstn. lia.
    + split; [now left|]. split; [auto|].
      eexists. split; [reflexivity|]. split; [repeat constructor|].
      cbn [frames_accepted fold_right frames_in]. rewrite Z.add_0_r.
      split; [reflexivity|].
      split; intros Z0; [|lia]. repeat split; try assumption. repeat constructor.
  - injection H as <-. intros Ho Hr. xfer_norm.
    split; [exact Ho|]. split; [exact Hr|]. split; [reflexivity|].
    split; [now right|]. split; [auto|].
    exists []. rewrite app_nil_r. cbn [frames_accepted fold_right]. rewrite Z.add_0_r.
    repeat split; try constructor; lia.
Qed.

Lemma retry_loop_kept (pfs rfs : Z) (pb : list byte) (fuel : nat) :
  forall x x',
    retry_loop env pfs rfs pb fuel x = Some x' -> xfer_kept pfs x x'.
Proof.
  induction fuel as [|fuel IH]; intros x x' H; cbn [retry_loop] in H;
    destruct ((0 <? x_to_write x) || (0 <? x_to_read x));
    try discriminate;
    try (injection H as <-; apply xfer_kept_refl).
  destruct (write_step env pfs pb x) as [w|] eqn:W; cbn [obind] in H; [|discriminate].
  apply write_step_kept in W.
  destruct (is_error (x_state w)).
  { injection H as <-. exact W. }
  destruct (read_step env rfs w) as [r|] eqn:R; cbn [obind] in H; [|discriminate].
  apply (read_step_kept pfs) in R.
  destruct (is_error (x_state r)).
  { injection H as <-. eapply xfer_kept_trans; eassumption. }
  eapply xfer_kept_trans; [exact W|]. eapply xfer_kept_trans; [exact R|].
  now apply IH.
Qed.

End Kept.

Lemma same_shape_refl (b : option (list byte)) : same_shape b b.
Proof. reflexivity. Qed.

Lemma overwrite_shape (b : option (list byte)) (out : list byte) :
  same_shape (option_map (fun l => overwrite l out) b) b.
Proof.
  unfold same_shape. destruct b as [l|]; cbn; [|reflexivity].
  now rewrite overwrite_length.
Qed.

Lemma set_buf_same (e : oss_stream) : set_buf e (buf e) = e.
Proof. now destruct e. Qed.

Lemma convert_record_shape (s : cubeb_stream) (rb : option (list byte)) :
  convert_record s = Some rb ->
  same_shape rb (buf (record s))
  /\ (fd (record s) = -1 -> rb = buf (record s)).
Proof.
  unfold convert_record. destruct (fd (record s) =? -1) eqn:F; cbn [negb andb].
  - intros H. injection H as <-. split; [reflexivity|]. reflexivity.
  - apply Z.eqb_neq in F. destruct (floating (record s)).
    + intros H. split; [|intros E; contradiction].
      eapply convert_buf_shape; [|exact H].
      intros b b' C. unfold oss_linear32_to_float in C.
      now apply linear32_to_float_loop_converts in C.
    + intros H. injection H as <-. split; [reflexivity|]. reflexivity.
Qed.

Lemma device_io_asks_for (len : nat) (n : Z) (evs : list event) :
  Forall (fun e => is_device_io e = true) evs -> Forall (asks_for len n) evs.
Proof.
  apply Forall_impl. intros e. destruct e; cbn; try discriminate; auto.
Qed.

Lemma same_endpoint_refl (e : oss_stream) : same_endpoint e e.
Proof. repeat split. Qed.

Lemma same_endpoint_trans (a b c : oss_stream) :
  same_endpoint a b -> same_endpoint b c -> same_endpoint a c.
Proof.
  intros (A1 & A2 & A3 & A4 & A5 & A6) (B1 & B2 & B3 & B4 & B5 & B6).
  repeat split; try congruence.
Qed.

Lemma same_layout_refl (s : cubeb_stream) : same_layout s s.
Proof. repeat split. Qed.

Lemma same_layout_trans (a b c : cubeb_stream) :
  same_layout a b -> same_layout b c -> same_layout a c.
Proof.
  intros (A1 & A2 & A3 & A4 & A5 & A6 & A7) (B1 & B2 & B3 & B4 & B5 & B6 & B7).
  split; [congruence|]. split; [congruence|]. split; [congruence|].
  split; [congruence|]. split; [congruence|].
  split; eapply same_endpoint_trans; eassumption.
Qed.

Lemma run_kept_refl (l : loop_state) (st : cubeb_state) :
  st <> CUBEB_STATE_DRAINED -> run_kept l l st.
Proof.
  intros N. split; [apply same_layout_refl|]. split; [auto|].
  exists []. rewrite app_nil_r. cbn [frames_accepted fold_right]. rewrite Z.add_0_r.
  repeat split; try assumption; constructor.
Qed.

Lemma run_kept_trans (a b c : loop_state) (st1 st2 : cubeb_state) :
  run_kept a b st1 -> run_kept b c st2 -> run_kept a c st2.
Proof.
  intros (LA & G1 & e1 & E1 & A1 & F1 & P1 & R1) (LB & G2 & e2 & E2 & A2 & F2 & P2 & R2).
  pose proof LA as (_ & _ & _ & _ & N & (_ & PF & _ & PS & _ & _)
                    & (_ & RF & _ & _ & _ & RS)).
  split; [eapply same_layout_trans; eassumption|]. split; [auto|].
  exists (e1 ++ e2). split; [now rewrite E2, E1, app_assoc|].
  split; [|split; [|split]].
  - apply Forall_app. split; [exact A1|].
    rewrite N, (same_shape_bytes _ _ RS) in A2. exact A2.
  - rewrite F2, <- u64_add_l, F1, u64_add_l, frames_accepted_app, PS.
    f_equal. lia.
  - intros Fd Dr. destruct (P1 Fd Dr) as (D1 & _ & W1 & K1).
    rewrite <- PF in Fd. destruct (P2 Fd D1) as (D2 & S2 & W2 & K2).
    split; [exact D2|]. split; [exact S2|].
    split; [apply Forall_app; now split|]. congruence.
  - intros Fd. destruct (R1 Fd) as (N1 & K1).
    rewrite <- RF in Fd. destruct (R2 Fd) as (N2 & K2).
    split; [apply Forall_app; now split|]. congruence.
Qed.

(** An iteration that ends after the callback, before any transfer. *)
Lemma run_kept_callback_only (l : loop_state) (s' : cubeb_stream)
  (st : cubeb_state) (rb : option (list byte)) (k : Z) (it w r : nat) :
  same_layout (l_stream l) s' ->
  frames_written s' = frames_written (l_stream l) ->
  same_shape rb (buf (record (l_stream l))) ->
  (fd (record (l_stream l)) = -1 -> record s' = record (l_stream l)) ->
  st <> CUBEB_STATE_DRAINED ->
  run_kept l
    {| l_stream := s'; l_drain := l_drain l; l_iter := it; l_writes := w;
       l_reads := r;
       l_trace := l_trace l ++ [EvDataCb (bytes_of rb) (nfr (l_stream l)) k] |}
    st.
Proof.
  intros L F S R N. split; [exact L|]. cbn [l_stream l_trace l_drain].
  split; [now rewrite F|].
  eexists. split; [reflexivity|].
  split; [|split; [|split]].
  - constructor; [|constructor]. cbn. split; [|reflexivity].
    now apply same_shape_bytes.
  - cbn [frames_accepted fold_right frames_in]. now rewrite F, Z.add_0_r.
  - intros _ D. repeat split; try assumption. repeat constructor.
  - intros Fd. split; [repeat constructor|]. now apply R.
Qed.

Section KeptRun.

Variable env : io_env.

Lemma io_iteration_kept (ifuel : nat) (l l' : loop_state) (st : cubeb_state) :
  io_iteration env ifuel l = Some (st, l') -> run_kept l l' st.
Proof.
  unfold io_iteration. intros H.
  destruct (negb (io_running env (l_iter l))).
  { injection H as <- <-. apply run_kept_refl. discriminate. }
  destruct ((fd (play (l_stream l)) =? -1) && (fd (record (l_stream l)) =? -1)).
  { injection H as <- <-. apply run_kept_refl. discriminate. }
  destruct (convert_record (l_stream l)) as [rb|] eqn:CR; cbn [obind] in H;
    [|discriminate].
  destruct (convert_record_shape _ _ CR) as [RS RE].
  destruct (io_data_cb env _ _ _) as [k out].
  set (s := l_stream l) in *.
  assert (L2 : same_layout s
                 (set_play (set_record s (set_buf (record s) rb))
                    (set_buf (play (set_record s (set_buf (record s) rb)))
                       (option_map (fun b => overwrite b out)
                          (buf (play (set_record s (set_buf (record s) rb)))))))).
  { repeat split; try exact RS. cbn. apply overwrite_shape. }
  assert (R2 : fd (record s) = -1 -> set_buf (record s) rb = record s).
  { intros E. rewrite (RE E). apply set_buf_same. }
  cbn [set_record set_play nfr play record] in H.
  destruct (k =? CUBEB_ERROR).
  { injection H as <- <-.
    apply run_kept_callback_only; try assumption; try reflexivity. discriminate. }
  match type of H with
  | obind ?c _ = _ => destruct c as [pb|] eqn:CP; cbn [obind] in H; [|discriminate]
  end.
  assert (PS : same_shape pb (buf (play s))).
  { cbn [set_buf fd buf] in CP.
    destruct (negb (fd (play s) =? -1)).
    - apply convert_play_shape in CP. cbn [set_buf buf] in CP.
      eapply same_shape_trans; [exact CP|]. apply overwrite_shape.
    - injection CP as <-. apply overwrite_shape. }
  assert (L3 : same_layout s
                 {| thread := thread s; running := running s; volume := volume s;
                    play := set_buf (play s) pb;
                    record := set_buf (record s) rb;
                    frames_written := frames_written s;
                    blocks_written := blocks_written s; nfr := nfr s |}).
  { repeat split; assumption. }
  cbn [set_record set_play set_buf nfr play record fd buf frame_size
         frames_written] in H.
  destruct ((k <? nfr s) && (fd (play s) =? -1)) eqn:SH.
  { injection H as <- <-.
    apply run_kept_callback_only; try assumption; try reflexivity. discriminate. }
  match type of H with
  | obind ?c _ = _ => destruct c as [x|] eqn:X; cbn [obind] in H; [|discriminate]
  end.
  apply retry_loop_kept in X.
  destruct (X ltac:(cbn; lia) ltac:(cbn; lia))
    as (_ & _ & XL & XS & XG & evs & XE & XD & XF & XW & XR).
  cbn [x_state x_to_write x_to_read x_frames_written x_record x_events app] in *.
  assert (ST : x_state x = CUBEB_STATE_STARTED \/ x_state x = CUBEB_STATE_ERROR)
    by tauto.
  assert (K : run_kept l
                {| l_stream :=
                     set_frames_written
                       {| thread := thread s; running := running s;
                          volume := volume s;
                          play := set_buf (play s) pb;
                          record :=
                            {| name := name (record s); fd := fd (record s);
                               buf := option_map (fun _ => x_record x) rb;
                               info := info (record s);
                               frame_size := frame_size (record s);
                               floating := floating (record s) |};
                          frames_written := frames_written s;
                          blocks_written := blocks_written s; nfr := nfr s |}
                       (x_frames_written x);
                   l_drain := if k <? nfr s then true else l_drain l;
                   l_iter := S (l_iter l); l_writes := x_writes x;
                   l_reads := x_reads x;
                   l_trace := (l_trace l ++ [EvDataCb (bytes_of rb) (nfr s) k])
                                ++ x_events x |}
                (if (if k <? nfr s then true else l_drain l)
                      && negb (is_error (x_state x))
                 then CUBEB_STATE_DRAINED else x_state x)).
  { split.
    - cbn [l_stream set_frames_written]. repeat split; try assumption.
      cbn [record buf]. eapply same_shape_trans; [|exact RS].
      unfold same_shape. destruct rb as [b|]; cbn in *; [|reflexivity].
      now rewrite XL.
    - cbn [l_stream l_trace l_drain set_frames_written frames_written play record
             fd frame_size set_buf].
      fold s. split; [exact XG|]. exists (EvDataCb (bytes_of rb) (nfr s) k :: evs).
      split; [now rewrite XE, <- app_assoc|].
      split; [|split; [|split]].
      + constructor.
        * cbn. split; [now apply same_shape_bytes | reflexivity].
        * now apply device_io_asks_for.
      + cbn [frames_accepted fold_right frames_in]. fold (frames_accepted (frame_size (play s)) evs).
        rewrite Z.add_0_l. exact XF.
      + intros Fd Dr. apply Z.eqb_eq in Fd as Fd'. rewrite Fd' in *.
        cbn [negb andb] in *. rewrite andb_true_r in SH. rewrite SH.
        destruct (XW eq_refl) as (_ & NW & FW).
        split; [exact Dr|]. split.
        * rewrite Dr. cbn [andb]. destruct ST as [-> | ->]; discriminate.
        * split; [|exact FW]. constructor; [reflexivity|exact NW].
      + intros Fd. apply Z.eqb_eq in Fd as Fd'. rewrite Fd' in *.
        cbn [negb] in *. destruct (XR eq_refl) as (_ & NR & RR).
        split; [constructor; [reflexivity|exact NR]|].
        rewrite RR. rewrite (RE Fd). destruct (record s) as [n f [b|] i fs fl];
          reflexivity. }
  destruct ((if k <? nfr s then true else l_drain l) && negb (is_error (x_state x)));
    injection H as <- <-; exact K.
Qed.

Lemma io_loop_kept (ifuel fuel : nat) :
  forall l r, io_loop env ifuel fuel l = Some r -> run_kept l (snd r) (fst r).
Proof.
  induction fuel as [|fuel IH]; intros l r H; cbn [io_loop] in H; [discriminate|].
  destruct (io_iteration env ifuel l) as [[st l1]|] eqn:I; cbn [obind] in H;
    [|discriminate].
  apply io_iteration_kept in I. cbn [fst snd] in H.
  destruct (cubeb_state_eqb st CUBEB_STATE_STARTED).
  - eapply run_kept_trans; [exact I|]. now apply IH.
  - injection H as <-. exact I.
Qed.

End KeptRun.

Lemma oss_io_routine_kept (env : io_env) (ifuel fuel : nat) (s s' : cubeb_stream)
  (st : cubeb_state) (tr : list event) :
  oss_io_routine env ifuel fuel s = Some (st, s', tr) ->
  exists l',
    run_kept (loop_start s) l' st
    /\ s' = l_stream l'
    /\ tr = l_trace l' ++ [EvStateCb st].
Proof.
  unfold oss_io_routine, io_run. intros H.
  destruct (io_loop env ifuel fuel (loop_start s)) as [r|] eqn:L;
    cbn [obind] in H; [|discriminate].
  injection H as <- <- <-. exists (snd r).
  split; [now apply io_loop_kept in L|]. split; reflexivity.
Qed.

Lemma oss_io_routine_notifies_start_and_end_witness :
  exists st s' tr,
    oss_io_routine two_block_env 4 3 (duplex16_stream true) = Some (st, s', tr)
    /\ st <> CUBEB_STATE_STARTED
    /\ exists evs,
         tr = EvStateCb CUBEB_STATE_STARTED :: evs ++ [EvStateCb st] /\ quiet evs.
Proof.
  do 3 eexists. split; [vm_compute; reflexivity|].
  eapply (oss_io_routine_notifies_start_and_end two_block_env 4 3
            (duplex16_stream true)).
  vm_compute. reflexivity.
Defined.

(** X14.  A run of the I/O routine changes nothing in the stream but
    [frames_written] and the contents of the two buffers: [running],
    [volume], [blocks_written], the block size, and of each direction
    the name, the handle, the negotiated format, the frame size and the
    presence and length of the buffer are on return what they were. *)
Theorem oss_io_routine_keeps_layout (env : io_env) (ifuel fuel : nat)
  (s s' : cubeb_stream) (st : cubeb_state) (tr : list event) :
  oss_io_routine env ifuel fuel s = Some (st, s', tr) ->
  same_layout s s'.
Proof.
  intros H. destruct (oss_io_routine_kept _ _ _ _ _ _ _ H) as (l' & K & -> & _).
  apply K.
Qed.

Lemma oss_io_routine_keeps_layout_witness :
  exists st s' tr,
    oss_io_routine two_block_env 4 3 (duplex16_stream true) = Some (st, s', tr)
    /\ buf (play s') <> buf (play (duplex16_stream true))
    /\ same_layout (duplex16_stream true) s'.
Proof.
  do 3 eexists. split; [vm_compute; reflexivity|].
  split; [vm_compute; discriminate|].
  eapply (oss_io_routine_keeps_layout two_block_env 4 3 (duplex16_stream true)).
  vm_compute. reflexivity.
Defined.

(** X15.  The position counts what the device took: when the routine
    returns, [frames_written] has grown, modulo 2^64, by the whole
    frames in the bytes that each [write] of the run accepted, and by
    nothing else. *)
Theorem oss_io_routine_counts_accepted_frames (env : io_env) (ifuel fuel : nat)
  (s s' : cubeb_stream) (st : cubeb_state) (tr : list event) :
  0 <= frames_written s < 2 ^ 64 ->
  oss_io_routine env ifuel fuel s = Some (st, s', tr) ->
  frames_written s'
  = u64 (frames_written s + frames_accepted (frame_size (play s)) tr).
Proof.
  intros R H. destruct (oss_io_routine_kept _ _ _ _ _ _ _ H) as (l' & K & -> & ->).
  destruct K as (_ & G & evs & E & _ & F & _).
  cbn [loop_start l_stream l_trace] in *.
  rewrite E, !frames_accepted_app. cbn [app frames_accepted fold_right frames_in].
  fold (frames_accepted (frame_size (play s)) evs).
  rewrite !Z.add_0_l, !Z.add_0_r, <- F.
  symmetry. apply u64_small. now apply G.
Qed.

Lemma oss_io_routine_counts_accepted_frames_witness :
  exists st s' tr,
    0 <= frames_written (duplex16_stream true) < 2 ^ 64
    /\ oss_io_routine two_block_env 4 3 (duplex16_stream true) = Some (st, s', tr)
    /\ frames_written s' = 4
    /\ frames_written s'
       = u64 (frames_written (duplex16_stream true)
              + frames_accepted (frame_size (play (duplex16_stream true))) tr).
Proof.
  do 3 eexists. split; [cbn; lia|]. split; [vm_compute; reflexivity|].
  split; [reflexivity|].
  eapply (oss_io_routine_counts_accepted_frames two_block_env 4 3
            (duplex16_stream true)).
  - cbn. lia.
  - vm_compute. reflexivity.
Defined.

(** X16.  A stream without a playback handle never writes to a device,
    never ends in [CUBEB_STATE_DRAINED] and keeps its position; a
    stream without a record handle never reads from a device and keeps
    its record side untouched. *)
Theorem oss_io_routine_one_direction (env : io_env) (ifuel fuel : nat)
  (s s' : cubeb_stream) (st : cubeb_state) (tr : list event) :
  oss_io_routine env ifuel fuel s = Some (st, s', tr) ->
  (fd (play s) = -1 ->
   st <> CUBEB_STATE_DRAINED
   /\ Forall (fun e => is_write e = false) tr
   /\ frames_written s' = frames_written s)
  /\ (fd (record s) = -1 ->
      Forall (fun e => is_read e = false) tr
      /\ record s' = record s).
Proof.
  intros H. destruct (oss_io_routine_kept _ _ _ _ _ _ _ H) as (l' & K & -> & ->).
  destruct K as (_ & _ & evs & E & _ & _ & P & R).
  cbn [loop_start l_stream l_trace l_drain] in *. rewrite E. split.
  - intros Fd. destruct (P Fd eq_refl) as (_ & N & W & F).
    split; [exact N|]. split; [|exact F].
    constructor; [reflexivity|]. apply Forall_app. split; [exact W|].
    repeat constructor.
  - intros Fd. destruct (R Fd) as (N & F). split; [|exact F].
    constructor; [reflexivity|]. apply Forall_app. split; [exact N|].
    repeat constructor.
Qed.

Lemma oss_io_routine_one_direction_witness :
  exists st s' tr,
    oss_io_routine two_block_env 4 3 (record16_stream true) = Some (st, s', tr)
    /\ fd (play (record16_stream true)) = -1
    /\ bytes_read tr <> []
    /\ ((fd (play (record16_stream true)) = -1 ->
         st <> CUBEB_STATE_DRAINED
         /\ Forall (fun e => is_write e = false) tr
         /\ frames_written s' = frames_written (record16_stream true))
        /\ (fd (record (record16_stream true)) = -1 ->
            Forall (fun e => is_read e = false) tr
            /\ record s' = record (record16_stream true))).
Proof.
  do 3 eexists. split; [vm_compute; reflexivity|]. split; [reflexivity|].
  split; [vm_compute; discriminate|].
  eapply (oss_io_routine_one_direction two_block_env 4 3 (record16_stream true)).
  vm_compute. reflexivity.
Defined.

(** X17.  Every call of the data callback asks for exactly the block
    size [nfr] of the stream and hands over an input of the length of
    the record buffer, in every iteration of a run. *)
Theorem oss_io_routine_asks_for_full_blocks (env : io_env) (ifuel fuel : nat)
  (s s' : cubeb_stream) (st : cubeb_state) (tr : list event) :
  oss_io_routine env ifuel fuel s = Some (st, s', tr) ->
  Forall (asks_for (length (bytes_of (buf (record s)))) (nfr s)) tr.
Proof.
  intros H. destruct (oss_io_routine_kept _ _ _ _ _ _ _ H) as (l' & K & -> & ->).
  destruct K as (_ & _ & evs & E & A & _).
  cbn [loop_start l_stream l_trace] in *. rewrite E.
  constructor; [exact I|]. apply Forall_app. split; [exact A|].
  repeat constructor.
Qed.

Lemma oss_io_routine_asks_for_full_blocks_witness :
  exists st s' tr,
    oss_io_routine two_block_env 4 3 (duplex16_stream true) = Some (st, s', tr)
    /\ length (callback_inputs tr) = 2%nat
    /\ Forall (asks_for (length (bytes_of (buf (record (duplex16_stream true)))))
                 (nfr (duplex16_stream true))) tr.
Proof.
  do 3 eexists. split; [vm_compute; reflexivity|]. split; [reflexivity|].
  eapply (oss_io_routine_asks_for_full_blocks two_block_env 4 3
            (duplex16_stream true)).
  vm_compute. reflexivity.
Defined.

(** X18.  A routine that finds [running] cleared when it first looks, or
    a stream with neither direction open, calls the data callback and
    the device not at all: it notifies [CUBEB_STATE_STARTED] and then
    [CUBEB_STATE_STOPPED], and leaves the stream as it was. *)
Theorem oss_io_routine_idle (env : io_env) (ifuel fuel : nat) (s : cubeb_stream) :
  io_running env 0 = false \/ (fd (play s) = -1 /\ fd (record s) = -1) ->
  oss_io_routine env ifuel (S fuel) s
  = Some (CUBEB_STATE_STOPPED, s,
          [EvStateCb CUBEB_STATE_STARTED; EvStateCb CUBEB_STATE_STOPPED]).
Proof.
  intros H. unfold oss_io_routine, io_run. cbn [io_loop].
  unfold io_iteration. cbn [loop_start l_stream l_iter].
  destruct H as [R|[P R]].
  - rewrite R. reflexivity.
  - rewrite P, R. destruct (negb (io_running env 0)); reflexivity.
Qed.

Lemma oss_io_routine_idle_witness :
  (io_running two_block_env 0 = false
   \/ (fd (play closed_stream) = -1 /\ fd (record closed_stream) = -1))
  /\ oss_io_routine two_block_env 0 1 closed_stream
     = Some (CUBEB_STATE_STOPPED, closed_stream,
             [EvStateCb CUBEB_STATE_STARTED; EvStateCb CUBEB_STATE_STOPPED]).
Proof.
  assert (H : io_running two_block_env 0 = false
              \/ (fd (play closed_stream) = -1 /\ fd (record closed_stream) = -1))
    by (right; split; reflexivity).
  split; [exact H|].
  exact (oss_io_routine_idle two_block_env 0 0 closed_stream H).
Defined.

Section CallbackError.

Variable env : io_env.

(** An iteration either sees no error from the callback, or ends with
    it, in [CUBEB_STATE_ERROR]. *)
Lemma io_iteration_cb_error (ifuel : nat) (l l' : loop_state) (st : cubeb_state) :
  io_iteration env ifuel l = Some (st, l') ->
  exists evs,
    l_trace l' = l_trace l ++ evs
    /\ (Forall (fun e => is_cb_error e = false) evs
        \/ (st = CUBEB_STATE_ERROR
            /\ exists input n, evs = [EvDataCb input n CUBEB_ERROR])).
Proof.
  unfold io_iteration. intros H.
  assert (Q0 : exists evs,
             l_trace l = l_trace l ++ evs
             /\ (Forall (fun e => is_cb_error e = false) evs
                 \/ (CUBEB_STATE_STOPPED = CUBEB_STATE_ERROR
                     /\ exists input n, evs = [EvDataCb input n CUBEB_ERROR]))).
  { exists []. rewrite app_nil_r. split; [reflexivity|]. left. constructor. }
  destruct (negb (io_running env (l_iter l))); [injection H as <- <-; exact Q0|].
  destruct (_ && _); [injection H as <- <-; exact Q0|].
  clear Q0.
  destruct (convert_record (l_stream l)) as [rb|]; cbn [obind] in H; [|discriminate].
  destruct (io_data_cb env _ _ _) as [k out].
  destruct (k =? CUBEB_ERROR) eqn:KE.
  { injection H as <- <-. cbn [l_trace]. eexists. split; [reflexivity|].
    right. split; [reflexivity|]. apply Z.eqb_eq in KE. subst k. eauto. }
  match type of H with
  | obind ?c _ = _ => destruct c as [pb|]; cbn [obind] in H; [|discriminate]
  end.
  destruct (_ && _).
  { injection H as <- <-. cbn [l_trace]. eexists. split; [reflexivity|].
    left. constructor; [exact KE|constructor]. }
  match type of H with
  | obind ?c _ = _ => destruct c as [x|] eqn:X; cbn [obind] in H; [|discriminate]
  end.
  apply retry_loop_kept in X.
  destruct (X ltac:(cbn; lia) ltac:(cbn; lia))
    as (_ & _ & _ & _ & _ & evs & XE & XD & _).
  cbn [x_events app] in XE.
  assert (Q1 : forall st' : cubeb_state,
             exists evs',
               (l_trace l ++ [EvDataCb (bytes_of rb)
                                (nfr (set_record (l_stream l)
                                        (set_buf (record (l_stream l)) rb))) k])
               ++ x_events x = l_trace l ++ evs'
               /\ (Forall (fun e => is_cb_error e = false) evs'
                   \/ (st' = CUBEB_STATE_ERROR
                       /\ exists input n, evs' = [EvDataCb input n CUBEB_ERROR]))).
  { intros st'. eexists. rewrite <- app_assoc. split; [reflexivity|]. left.
    rewrite XE. constructor; [exact KE|].
    revert XD. apply Forall_impl. intros e. destruct e; cbn; try discriminate; auto. }
  destruct (_ && _); injection H as <- <-; apply Q1.
Qed.

Lemma io_loop_cb_error (ifuel fuel : nat) :
  forall l r,
    io_loop env ifuel fuel l = Some r ->
    exists evs,
      l_trace (snd r) = l_trace l ++ evs
      /\ (Forall (fun e => is_cb_error e = false) evs
          \/ (fst r = CUBEB_STATE_ERROR
              /\ exists pre input n,
                   evs = pre ++ [EvDataCb input n CUBEB_ERROR]
                   /\ Forall (fun e => is_cb_error e = false) pre)).
Proof.
  induction fuel as [|fuel IH]; intros l r H; cbn [io_loop] in H; [discriminate|].
  destruct (io_iteration env ifuel l) as [[st l1]|] eqn:I; cbn [obind] in H;
    [|discriminate].
  destruct (io_iteration_cb_error _ _ _ _ I) as (e1 & E1 & C1).
  cbn [fst snd] in H.
  destruct (cubeb_state_eqb st CUBEB_STATE_STARTED) eqn:S.
  - destruct C1 as [C1|[C1 _]]; [|subst st; discriminate].
    destruct (IH _ _ H) as (e2 & E2 & C2).
    exists (e1 ++ e2). split; [now rewrite E2, E1, app_assoc|].
    destruct C2 as [C2|(C2 & pre & input & n & -> & P)].
    + left. apply Forall_app. now split.
    + right. split; [exact C2|]. exists (e1 ++ pre), input, n.
      split; [now rewrite app_assoc|]. apply Forall_app. now split.
  - injection H as <-. cbn [fst snd]. exists e1. split; [exact E1|].
    destruct C1 as [C1|(C1 & input & n & ->)]; [now left|].
    right. split; [exact C1|]. exists [], input, n. split; [reflexivity|constructor].
Qed.

End CallbackError.

(** X19.  In a run of the I/O routine either the data callback never
    returns [CUBEB_ERROR], or the first call that does is the last thing
    the routine does before it reports [CUBEB_STATE_ERROR] and returns:
    no device transfer and no further callback follows it. *)
Theorem oss_io_routine_stops_at_callback_error (env : io_env) (ifuel fuel : nat)
  (s s' : cubeb_stream) (st : cubeb_state) (tr : list event) :
  oss_io_routine env ifuel fuel s = Some (st, s', tr) ->
  Forall (fun e => is_cb_error e = false) tr
  \/ (st = CUBEB_STATE_ERROR
      /\ exists pre input n,
           tr = pre ++ [EvDataCb input n CUBEB_ERROR; EvStateCb CUBEB_STATE_ERROR]
           /\ Forall (fun e => is_cb_error e = false) pre).
Proof.
  unfold oss_io_routine, io_run. intros H.
  destruct (io_loop env ifuel fuel (loop_start s)) as [r|] eqn:L;
    cbn [obind] in H; [|discriminate].
  injection H as <- _ <-.
  destruct (io_loop_cb_error _ _ _ _ _ L) as (evs & E & C).
  cbn [loop_start l_trace] in E. rewrite E.
  destruct C as [C|(C & pre & input & n & -> & P)].
  - left. constructor; [reflexivity|]. apply Forall_app. split; [exact C|].
    repeat constructor.
  - right. split; [exact C|].
    exists (EvStateCb CUBEB_STATE_STARTED :: pre), input, n. split.
    + rewrite C. cbn [app]. rewrite <- app_assoc. reflexivity.
    + constructor; [reflexivity|exact P].
Qed.

Lemma oss_io_routine_stops_at_callback_error_witness :
  exists st s' tr,
    oss_io_routine failing_cb_env 4 3 (duplex16_stream true) = Some (st, s', tr)
    /\ frames_written s' = 2
    /\ (Forall (fun e => is_cb_error e = false) tr
        \/ (st = CUBEB_STATE_ERROR
            /\ exists pre input n,
                 tr = pre ++ [EvDataCb input n CUBEB_ERROR;
                              EvStateCb CUBEB_STATE_ERROR]
                 /\ Forall (fun e => is_cb_error e = false) pre)).
Proof.
  do 3 eexists. split; [vm_compute; reflexivity|]. split; [reflexivity|].
  eapply (oss_io_routine_stops_at_callback_error failing_cb_env 4 3
            (duplex16_stream true)).
  vm_compute. reflexivity.
Defined.

(** ** Runs without undefined behaviour *)

Lemma ready_endpoint_kept (blk : Z) (e e' : oss_stream) :
  ready_endpoint blk e -> same_endpoint e e' -> ready_endpoint blk e'.
Proof.
  intros [F|(C & FS & R & b & B & L)] (_ & EF & EI & ES & EL & EB).
  - left. congruence.
  - right. unfold sample_bytes in *. rewrite EI, ES, EL.
    split; [exact C|]. split; [exact FS|]. split; [exact R|].
    unfold same_shape in EB. rewrite B in EB.
    destruct (buf e') as [b'|]; cbn in EB; [|discriminate].
    exists b'. split; [reflexivity|]. injection EB as EB. congruence.
Qed.

Lemma ready_kept (s s' : cubeb_stream) :
  ready s -> same_layout s s' -> 0 <= frames_written s' < 2 ^ 64 -> ready s'.
Proof.
  intros (N & _ & RP & RR & FP) L FW.
  pose proof L as (_ & _ & _ & _ & EN & EP & ER).
  rewrite <- EN in N, RP, RR.
  split; [exact N|]. split; [exact FW|].
  split; [exact (ready_endpoint_kept _ _ _ RP EP)|].
  split; [exact (ready_endpoint_kept _ _ _ RR ER)|].
  destruct EP as (_ & _ & _ & _ & EL & _). congruence.
Qed.

Lemma well_behaved_kept (env : io_env) (s s' : cubeb_stream) :
  well_behaved env s -> same_layout s s' -> well_behaved env s'.
Proof.
  intros (CB & V & GW & GR) (_ & _ & _ & _ & EN & EP & ER).
  destruct EP as (_ & PF & _ & PS & _ & _), ER as (_ & RF & _ & RS & _ & _).
  unfold well_behaved. rewrite EN, PF, PS, RF, RS.
  split; [exact CB|]. split; [exact V|]. split; [exact GW|exact GR].
Qed.

Section Definedness.

Variable env : io_env.

Lemma io_iteration_defined (ifuel : nat) (l : loop_state) :
  ready (l_stream l) -> well_behaved env (l_stream l) ->
  (Z.to_nat (2 * nfr (l_stream l)) <= ifuel)%nat ->
  exists st l',
    io_iteration env ifuel l = Some (st, l')
    /\ (st = CUBEB_STATE_STARTED ->
        l_iter l' = S (l_iter l) /\ io_running env (l_iter l) = true).
Proof.
  intros (N & FW & RP & RR & FP) (CB & VOL & GW & GR) Fuel.
  unfold io_iteration. set (s := l_stream l) in *.
  destruct (io_running env (l_iter l)) eqn:Run; cbn [negb].
  2: { do 2 eexists. split; [reflexivity|]. discriminate. }
  destruct ((fd (play s) =? -1) && (fd (record s) =? -1)) eqn:Both.
  { do 2 eexists. split; [reflexivity|]. discriminate. }
  assert (CR : exists rb,
             convert_record s = Some rb /\ same_shape rb (buf (record s))).
  { unfold convert_record. destruct (fd (record s) =? -1) eqn:Fr; cbn [negb andb].
    { eexists; split; reflexivity. }
    destruct (floating (record s)) eqn:Fl; [|eexists; split; reflexivity].
    apply Z.eqb_neq in Fr.
    destruct RR as [E|(C0 & FS & FR & b & B & Lb)]; [contradiction|].
    rewrite B. cbn [convert_buf].
    unfold sample_bytes in FS. rewrite Fl in FS.
    destruct (oss_linear32_to_float b (u32 (channels (info (record s)) * nfr s)))
      as [b'|] eqn:Cv.
    - cbn [obind]. eexists. split; [reflexivity|]. unfold same_shape. cbn. f_equal.
      apply (linear32_to_float_loop_converts _ _ _ Cv).
    - exfalso. revert Cv. apply linear32_to_float_loop_defined.
      set (p := channels (info (record s)) * nfr s) in *.
      assert (0 <= p) by (unfold p; nia).
      assert (Z.of_nat (length b) = 4 * p) by (unfold p; nia).
      pose proof (u32_range p). assert (u32 p <= p) by (apply Z.mod_le; lia).
      lia. }
  destruct CR as (rb & -> & RS). cbn [obind].
  cbn [set_record set_play set_buf nfr play record fd buf frame_size
         frames_written floating info].
  fold s.
  specialize (CB (l_iter l) (bytes_of rb)).
  destruct (io_data_cb env (l_iter l) (bytes_of rb) (nfr s)) as [k out].
  cbn [fst] in CB.
  destruct (k =? CUBEB_ERROR) eqn:KE.
  { do 2 eexists. split; [reflexivity|]. discriminate. }
  apply Z.eqb_neq in KE. destruct CB as [CB|CB]; [contradiction|].
  assert (CP : exists pb,
             (if negb (fd (play s) =? -1)
              then convert_play
                     (set_buf (play s)
                        (option_map (fun b => overwrite b out) (buf (play s))))
                     k (io_volume env (l_iter l))
              else Some (option_map (fun b => overwrite b out) (buf (play s))))
             = Some pb
             /\ same_shape pb (buf (play s))).
  { destruct (fd (play s) =? -1) eqn:Fp; cbn [negb].
    { eexists. split; [reflexivity|]. apply overwrite_shape. }
    apply Z.eqb_neq in Fp.
    destruct RP as [E|(C0 & FS & FR & b & B & Lb)]; [contradiction|].
    unfold convert_play. cbn [set_buf floating buf info]. rewrite FP, B.
    cbn [option_map convert_buf]. unfold oss_linear16_set_vol.
    destruct (VOL (l_iter l)) as (m & -> & Hm). cbn [obind].
    unfold sample_bytes in FS. rewrite FP in FS.
    destruct (linear16_set_vol_loop_scales m
                (Z.to_nat (u32 (channels (info (play s)) * k))) Hm
                (overwrite b out)) as (o & -> & Lo & _).
    - rewrite overwrite_length.
      set (p := channels (info (play s)) * k) in *.
      assert (0 <= p) by (unfold p; nia).
      assert (2 * p <= Z.of_nat (length b)) by (unfold p; nia).
      pose proof (u32_range p). assert (u32 p <= p) by (apply Z.mod_le; lia).
      lia.
    - cbn [obind]. eexists. split; [reflexivity|].
      unfold same_shape. cbn. rewrite Lo, overwrite_length. reflexivity. }
  destruct CP as (pb & -> & PS). cbn [obind].
  cbn [set_record set_play set_buf nfr play record fd buf frame_size
         frames_written floating info].
  destruct ((k <? nfr s) && (fd (play s) =? -1)) eqn:Short.
  { do 2 eexists. split; [reflexivity|]. discriminate. }
  match goal with
  | |- exists st l', obind (retry_loop env ?pfs ?rfs ?pbuf ifuel ?x0) _ = _ /\ _ =>
      destruct (retry_loop_terminates env pfs rfs pbuf ifuel x0) as [x X]
  end.
  - cbn [x_to_write x_write_ofs]. destruct (fd (play s) =? -1) eqn:Fp; cbn [negb].
    { now left. }
    right. apply Z.eqb_neq in Fp. destruct (GW Fp) as [G P].
    split; [exact G|]. split; [exact P|].
    destruct RP as [E|(C0 & FS & FR & b & B & Lb)]; [contradiction|].
    rewrite (same_shape_bytes _ _ PS), B. cbn [bytes_of].
    rewrite u64_small by lia. nia.
  - cbn [x_to_read x_read_ofs x_record]. destruct (fd (record s) =? -1) eqn:Fr;
      cbn [negb].
    { now left. }
    right. apply Z.eqb_neq in Fr. destruct (GR Fr) as [G P].
    split; [exact G|]. split; [exact P|].
    destruct RR as [E|(C0 & FS & FR & b & B & Lb)]; [contradiction|].
    rewrite (same_shape_bytes _ _ RS), B. cbn [bytes_of]. lia.
  - cbn [x_to_write]. destruct (negb _); [apply u64_range|lia].
  - cbn. lia.
  - cbn [x_to_write x_write_ofs]. destruct (fd (play s) =? -1) eqn:Fp; cbn [negb].
    { lia. }
    apply Z.eqb_neq in Fp.
    destruct RP as [E|(C0 & FS & FR & b & B & Lb)]; [contradiction|].
    rewrite u64_small by lia. nia.
  - cbn [x_to_read]. destruct (negb _); lia.
  - cbn. lia.
  - cbn [x_to_read x_read_ofs]. destruct (fd (record s) =? -1) eqn:Fr; cbn [negb].
    { lia. }
    apply Z.eqb_neq in Fr.
    destruct RR as [E|(C0 & FS & FR & b & B & Lb)]; [contradiction|]. nia.
  - cbn. exact FW.
  - reflexivity.
  - cbn [x_to_write x_to_read].
    assert (A : (if negb (fd (play s) =? -1) then u64 k else 0) <= nfr s).
    { destruct (negb (fd (play s) =? -1)); [rewrite u64_small by lia|]; lia. }
    assert (B : (if negb (fd (record s) =? -1) then nfr s else 0) <= nfr s).
    { destruct (negb (fd (record s) =? -1)); lia. }
    lia.
  - rewrite X. cbn [obind].
    match goal with
    | |- context [if ?c then Some (CUBEB_STATE_DRAINED, _) else _] => destruct c
    end;
      do 2 eexists; (split; [reflexivity|]); intros _; split; reflexivity.
Qed.

Lemma io_loop_defined (ifuel : nat) (n : nat) (fuel : nat) :
  io_running env n = false ->
  forall l,
    ready (l_stream l) -> well_behaved env (l_stream l) ->
    (Z.to_nat (2 * nfr (l_stream l)) <= ifuel)%nat ->
    (l_iter l <= n)%nat -> (n - l_iter l < fuel)%nat ->
    exists r,
      io_loop env ifuel fuel l = Some r /\ ready (l_stream (snd r)).
Proof.
  intros Stop. induction fuel as [|fuel IH]; intros l R W F I M; [lia|].
  cbn [io_loop].
  destruct (io_iteration_defined ifuel l R W F) as (st & l1 & E & C).
  rewrite E. cbn [obind fst snd].
  pose proof (io_iteration_kept _ _ _ _ _ E) as (L & G & _).
  assert (R1 : ready (l_stream l1)).
  { eapply ready_kept; [exact R|exact L|]. apply G. apply R. }
  destruct (cubeb_state_eqb st CUBEB_STATE_STARTED) eqn:S.
  - assert (st = CUBEB_STATE_STARTED) as -> by (destruct st; try discriminate; reflexivity).
    destruct (C eq_refl) as [It Run].
    assert (l_iter l <> n) by (intros E'; rewrite E' in Run; congruence).
    apply IH; try assumption.
    + eapply well_behaved_kept; eassumption.
    + destruct L as (_ & _ & _ & _ & -> & _). exact F.
    + lia.
    + lia.
  - eexists. split; [reflexivity|]. exact R1.
Qed.

End Definedness.

(** X20.  On a stream with 16-bit playback laid out as construction
    leaves it, with an application that returns [CUBEB_ERROR] or at
    most [nfr] frames, volumes between 0.0 and 1.0 in 16-bit terms,
    devices that report no error and move whole frames and at least one
    byte per call, and a control thread that clears [running] by
    iteration [n], the I/O routine has no undefined behaviour and
    returns: every retry loop ends within [2 * nfr] rounds and the
    outer loop within [n + 1] iterations, the final state is not
    [CUBEB_STATE_STARTED], and the stream is left laid out as before. *)
Theorem oss_io_routine_runs_to_completion (env : io_env) (s : cubeb_stream)
  (n ifuel fuel : nat) :
  ready s -> well_behaved env s ->
  io_running env n = false ->
  (Z.to_nat (2 * nfr s) <= ifuel)%nat -> (n < fuel)%nat ->
  exists st s' tr,
    oss_io_routine env ifuel fuel s = Some (st, s', tr)
    /\ st <> CUBEB_STATE_STARTED
    /\ ready s'.
Proof.
  intros R W Stop F M. unfold oss_io_routine, io_run.
  destruct (io_loop_defined env ifuel n fuel Stop (loop_start s) R W F)
    as (r & E & R'); cbn [loop_start l_iter]; try lia.
  rewrite E. cbn [obind]. do 3 eexists. split; [reflexivity|].
  split; [|exact R'].
  destruct (io_loop_quiet _ _ _ _ _ E) as [Q _].
  intros C. rewrite C in Q. discriminate.
Qed.

Lemma two_block_env_well_behaved :
  well_behaved two_block_env (duplex16_stream true).
Proof.
  split; [|split; [|split]].
  - intros i input. right. cbn. lia.
  - intros i. exists 32768. split; [vm_compute; reflexivity|lia].
  - intros _. split.
    + split; [cbn; lia|]. intros k n. cbn. split; [lia|reflexivity].
    + intros k n _. cbn. lia.
  - intros _. split.
    + split; [cbn; lia|]. intros k n. eexists. split; [reflexivity|]. reflexivity.
    + intros k n _. cbn. discriminate.
Qed.

Lemma duplex16_stream_ready : ready (duplex16_stream true).
Proof.
  split; [cbn; lia|]. split; [cbn; lia|].
  split; [|split; [|reflexivity]]; right; cbn.
  - split; [lia|]. split; [reflexivity|]. split; [lia|]. eexists. split; reflexivity.
  - split; [lia|]. split; [reflexivity|]. split; [lia|]. eexists. split; reflexivity.
Qed.

Lemma oss_io_routine_runs_to_completion_witness :
  ready (duplex16_stream true)
  /\ well_behaved two_block_env (duplex16_stream true)
  /\ io_running two_block_env 2 = false
  /\ (Z.to_nat (2 * nfr (duplex16_stream true)) <= 4)%nat /\ (2 < 3)%nat
  /\ exists st s' tr,
       oss_io_routine two_block_env 4 3 (duplex16_stream true) = Some (st, s', tr)
       /\ st <> CUBEB_STATE_STARTED
       /\ ready s'.
Proof.
  assert (F : (Z.to_nat (2 * nfr (duplex16_stream true)) <= 4)%nat)
    by (vm_compute; lia).
  assert (M : (2 < 3)%nat) by lia.
  split; [exact duplex16_stream_ready|].
  split; [exact two_block_env_well_behaved|].
  split; [reflexivity|]. split; [exact F|]. split; [exact M|].
  exact (oss_io_routine_runs_to_completion two_block_env (duplex16_stream true)
           2 4 3 duplex16_stream_ready two_block_env_well_behaved eq_refl F M).
Defined.

(** X21.  What [oss_stream_init] hands out is ready for the I/O routine
    in the sense of X20, provided the negotiated channel count of each
    open direction is positive and playback, if open, is not in float
    samples: each open direction then has a positive frame size of one
    sample per channel below 2^32 and a buffer of exactly [nfr] frames,
    and the position is 0. *)
Theorem oss_stream_init_ready (env : init_env)
  (input_device : option string) (input_stream_params : option cubeb_stream_params)
  (output_device : option string) (output_stream_params : option cubeb_stream_params)
  (r : init_result) (s : cubeb_stream) :
  oss_stream_init env input_device input_stream_params
    output_device output_stream_params = Some r ->
  i_stream r = Some s ->
  (fd (play s) <> -1 -> 0 < channels (info (play s)) /\ floating (play s) = false) ->
  (fd (record s) <> -1 -> 0 < channels (info (record s))) ->
  ready s.
Proof.
  intros H Hs Hp Hr.
  destruct (oss_stream_init_success _ _ _ _ _ _ _ H Hs)
    as (_ & _ & (_ & _ & _ & FW & _) & NR & NP & CP & CR & N & AP & AR & _).
  pose proof (negotiated_format _ _ _ _ _ NR CR) as FR.
  pose proof (negotiated_format _ _ _ _ _ NP CP) as FP.
  assert (E : forall p e,
             direction_format env p e -> allocated (nfr s) e ->
             (p = None -> fd e = -1) ->
             (fd e <> -1 -> 0 < channels (info e)) ->
             ready_endpoint (nfr s) e).
  { intros p e D A Cl C. destruct p as [q|]; [|left; now apply Cl].
    destruct D as (_ & _ & _ & _ & I & F).
    unfold allocated in A.
    destruct (fd e =? -1) eqn:Fd; [left; now apply Z.eqb_eq|]. right.
    apply Z.eqb_neq in Fd. specialize (C Fd).
    assert (SB : 2 <= sample_bytes e <= 4)
      by (unfold sample_bytes; destruct (floating e); lia).
    unfold in_int32, INT32_MIN, INT32_MAX in I. apply andb_true_iff in I.
    destruct I as [_ I]. apply Z.leb_le in I.
    assert (P : 0 < channels (info e) * sample_bytes e) by nia.
    rewrite u32_small in F by lia.
    split; [lia|]. split; [exact F|]. split; [lia|].
    eexists. split; [exact A|]. unfold zeros. rewrite repeat_length. nia. }
  split; [exact N|]. split; [rewrite FW; lia|].
  split; [|split].
  - apply (E output_stream_params); try assumption.
    + intros ->. now destruct NP as (_ & ? & _).
    + intros Fd. now apply Hp.
  - apply (E input_stream_params); try assumption.
    intros ->. now destruct NR as (_ & ? & _).
  - destruct (Z.eq_dec (fd (play s)) (-1)) as [Fd|Fd]; [|now apply Hp].
    destruct output_stream_params as [q|].
    + now destruct NP as (_ & _ & ? & _).
    + now destruct NP as (_ & _ & _ & ?).
Qed.

Lemma oss_stream_init_ready_witness :
  exists r s,
    oss_stream_init (good_env true (Some (queue 4 256)) (Some (queue 2 64)))
      None (Some params_float) None (Some params16) = Some r
    /\ i_stream r = Some s
    /\ (fd (play s) <> -1 -> 0 < channels (info (play s)) /\ floating (play s) = false)
    /\ (fd (record s) <> -1 -> 0 < channels (info (record s)))
    /\ ready s.
Proof.
  eexists. eexists. split; [vm_compute; reflexivity|]. split; [reflexivity|].
  assert (P : 4 <> -1 -> 0 < 2 /\ false = false) by (intros _; split; [lia|reflexivity]).
  assert (R : 3 <> -1 -> 0 < 2) by (intros _; lia).
  split; [exact P|]. split; [exact R|].
  eapply (oss_stream_init_ready
            (good_env true (Some (queue 4 256)) (Some (queue 2 64)))
            None (Some params_float) None (Some params16)).
  - vm_compute. reflexivity.
  - reflexivity.
  - exact P.
  - exact R.
Defined.

(** ** Volumes and their 16-bit multipliers *)

Lemma digits2_pos_bound (m : positive) : Zpos m < 2 ^ Zpos (digits2_pos m).
Proof.
  induction m as [m IH|m IH|]; cbn [digits2_pos].
  - rewrite Pos2Z.inj_succ, Z.pow_succ_r by lia. lia.
  - rewrite Pos2Z.inj_succ, Z.pow_succ_r by lia. lia.
  - cbn. lia.
Qed.

Lemma Zdigits2_shift (m : positive) (j : Z) :
  0 <= j ->
  exists p, Zpos m * 2 ^ j = Zpos p
            /\ Zpos (digits2_pos p) = Zpos (digits2_pos m) + j.
Proof.
  intros Hj. revert j Hj. apply natlike_ind.
  - exists m. split; lia.
  - intros j Hj (p & E & D). exists (xO p). split.
    + rewrite Z.pow_succ_r by lia. lia.
    + cbn [digits2_pos]. rewrite Pos2Z.inj_succ. lia.
Qed.

Lemma shr_even (p : positive) (n : nat) :
  forall q : positive,
    Zpos q = Zpos p * 2 ^ Z.of_nat n ->
    Nat.iter n shr_1 {| shr_m := Zpos q; shr_r := false; shr_s := false |}
    = {| shr_m := Zpos p; shr_r := false; shr_s := false |}.
Proof.
  induction n as [|n IH]; intros q E.
  - cbn in *. f_equal. lia.
  - rewrite Nat.iter_succ_r.
    rewrite Nat2Z.inj_succ, Z.pow_succ_r in E by lia.
    destruct q as [q|q|]; try lia.
    cbn [shr_1 orb]. apply IH. lia.
Qed.

Lemma iter_pos_nat {A : Type} (f : A -> A) (p : positive) :
  forall x, iter_pos f p x = Nat.iter (Pos.to_nat p) f x.
Proof.
  induction p as [p IH|p IH|]; intros x; cbn [iter_pos].
  - rewrite !IH, Pos2Nat.inj_xI.
    replace (S (2 * Pos.to_nat p)) with (Pos.to_nat p + (Pos.to_nat p + 1))%nat by lia.
    rewrite !Nat.iter_add. reflexivity.
  - rewrite !IH, Pos2Nat.inj_xO.
    replace (2 * Pos.to_nat p)%nat with (Pos.to_nat p + Pos.to_nat p)%nat by lia.
    rewrite Nat.iter_add. reflexivity.
  - reflexivity.
Qed.

(** A right shift that drops only zero bits is exact. *)
Lemma shr_exact (p q : positive) (ex n : Z) :
  0 <= n -> Zpos q = Zpos p * 2 ^ n ->
  shr {| shr_m := Zpos q; shr_r := false; shr_s := false |} ex n
  = ({| shr_m := Zpos p; shr_r := false; shr_s := false |}, ex + n).
Proof.
  intros Hn E. destruct n as [|n|n]; try lia.
  - cbn [shr]. rewrite Z.pow_0_r, Z.mul_1_r in E. injection E as ->.
    now rewrite Z.add_0_r.
  - cbn [shr]. f_equal. rewrite iter_pos_nat. apply shr_even.
    now rewrite positive_nat_Z.
Qed.

(** The product of a volume of at most 1.0 and 0x8000 is exact, and
    truncates to at most 0x8000. *)
Lemma multiplier16_finite (m : positive) (e : Z) :
  bounded 24 128 m e = true ->
  f32_ltb f32_one (S754_finite false m e) = false ->
  exists k, multiplier16 (S754_finite false m e) = Some k /\ 0 <= k <= 32768.
Proof.
  intros B L.
  unfold bounded, canonical_mantissa, fexp, emin in B.
  apply andb_true_iff in B. destruct B as [C _]. apply Z.eqb_eq in C.
  set (d := Zpos (digits2_pos m)) in *.
  assert (Dp : 0 < d) by (unfold d; lia).
  assert (Le : e < -23 \/ (e = -23 /\ Zpos m <= 8388608)).
  { unfold f32_ltb, SFltb, SFcompare, f32_one in L.
    destruct (Z.compare (-23) e) eqn:Ce.
    - apply Z.compare_eq in Ce. right. split; [lia|].
      destruct (Pos.compare_cont Eq 8388608 m) eqn:Cm; try discriminate.
      + apply Pos.compare_eq in Cm. lia.
      + change (Pos.compare_cont Eq 8388608 m) with (Pos.compare 8388608 m) in Cm.
        apply Pos.compare_gt_iff in Cm. lia.
    - discriminate.
    - apply Z.compare_gt_iff in Ce. left. lia. }
  pose proof (digits2_pos_bound m) as Mb. fold d in Mb.
  assert (Dm : d <= 24) by lia.
  assert (M24 : Zpos m < 2 ^ 24).
  { eapply Z.lt_le_trans; [exact Mb|]. apply Z.pow_le_mono_r; lia. }
  set (n := Z.max (d + 23 + (e + -8) - 24) (3 - 128 - 24) - (e + -8)).
  assert (Hn : 8 <= n <= 23) by (unfold n; lia).
  destruct (Zdigits2_shift m (23 - n) ltac:(lia)) as (p & Ep & Dp').
  fold d in Dp'.
  assert (Eq : Zpos (m * 8388608) = Zpos p * 2 ^ n).
  { rewrite <- Ep, <- Z.mul_assoc, <- Z.pow_add_r by lia.
    replace (23 - n + n) with 23 by lia. reflexivity. }
  assert (D23 : Zpos (digits2_pos (m * 8388608)) = d + 23).
  { destruct (Zdigits2_shift m 23 ltac:(lia)) as (q & Eq' & Dq).
    change (2 ^ 23) with 8388608 in Eq'.
    assert (q = (m * 8388608)%positive) as <- by lia. exact Dq. }
  assert (R : f32mul (S754_finite false m e) (f32_of_Z 32768)
              = S754_finite false p (e + -8 + n)).
  { change (f32_of_Z 32768) with (S754_finite false 8388608 (-8)).
    unfold f32mul, SFmul, binary_round_aux, shr_fexp, fexp, emin.
    cbn [xorb Zdigits2 shr_record_of_loc]. rewrite D23. fold n.
    rewrite (shr_exact p (m * 8388608) (e + -8) n ltac:(lia) Eq).
    cbn [shr_m loc_of_shr_record round_nearest_even shr_record_of_loc Zdigits2].
    rewrite Dp'.
    replace (Z.max (d + (23 - n) + (e + -8 + n) - 24) (3 - 128 - 24) - (e + -8 + n))
      with 0 by (unfold n; lia).
    cbn [shr shr_m].
    replace (e + -8 + n <=? 128 - 24) with true by (symmetry; apply Z.leb_le; lia).
    reflexivity. }
  unfold multiplier16. rewrite R. unfold float_to_int32, float_trunc.
  replace (0 <=? e + -8 + n) with false by (symmetry; apply Z.leb_gt; lia).
  cbn [obind].
  set (a := Zpos p / 2 ^ (- (e + -8 + n))).
  assert (A : 0 <= a <= 32768).
  { unfold a. rewrite <- Ep.
    replace (- (e + -8 + n)) with ((- e - 15) + (23 - n)) by lia.
    rewrite Z.pow_add_r by lia.
    rewrite Z.div_mul_cancel_r by (apply Z.pow_nonzero; lia).
    split; [apply Z.div_pos; [lia|apply Z.pow_pos_nonneg; lia]|].
    destruct Le as [Le|[Le Lm]].
    - assert (P : 2 ^ 9 <= 2 ^ (- e - 15)) by (apply Z.pow_le_mono_r; lia).
      assert (Zpos m / 2 ^ (- e - 15) < 32768 + 1); [|lia].
      apply Z.div_lt_upper_bound; [apply Z.pow_pos_nonneg; lia|].
      change (2 ^ 24) with 16777216 in M24. change (2 ^ 9) with 512 in P. nia.
    - subst e. change (2 ^ (- -23 - 15)) with 256.
      assert (Zpos m / 256 < 32768 + 1); [|lia].
      apply Z.div_lt_upper_bound; lia. }
  exists a. split; [|exact A].
  replace (in_int32 a) with true; [reflexivity|].
  symmetry. unfold in_int32, INT32_MIN, INT32_MAX.
  apply andb_true_iff. split; apply Z.leb_le; lia.
Qed.

(** Every volume between 0.0 and 1.0 has a multiplier between 0 and
    0x8000. *)
Lemma multiplier16_in_range (vol : float) :
  is_float vol = true -> is_nan vol = false ->
  f32_ltb vol f32_zero = false -> f32_ltb f32_one vol = false ->
  exists k, multiplier16 vol = Some k /\ 0 <= k <= 32768.
Proof.
  intros V N L0 L1. destruct vol as [s|s| |s m e]; try discriminate.
  - exists 0. split; [destruct s; reflexivity|lia].
  - destruct s; discriminate.
  - destruct s; [discriminate|]. now apply multiplier16_finite.
Qed.

(** ** Stream control, continued *)

(** X11.  [oss_stream_set_volume] stores a volume that is neither below
    0.0 nor above 1.0: 0.0 for a volume below 0.0, 1.0 for one above
    1.0, and the given volume otherwise (a NaN, which compares with
    nothing, is stored as it is).  It returns [CUBEB_OK], changes no
    other field of the stream, and setting the stored volume again
    changes nothing. *)
Theorem oss_stream_set_volume_clamps (s : cubeb_stream) (v : float) :
  exists v',
    oss_stream_set_volume s v
    = (set_volume s v', [EvMutexLock; EvMutexUnlock], CUBEB_OK)
    /\ f32_ltb v' f32_zero = false
    /\ f32_ltb f32_one v' = false
    /\ v' = (if f32_ltb v f32_zero then f32_zero
             else if f32_ltb f32_one v then f32_one else v)
    /\ oss_stream_set_volume (set_volume s v') v'
       = (set_volume s v', [EvMutexLock; EvMutexUnlock], CUBEB_OK)
    /\ set_volume (set_volume s v') (volume s) = s.
Proof.
  unfold oss_stream_set_volume.
  destruct (f32_ltb v f32_zero) eqn:L0; [|destruct (f32_ltb f32_one v) eqn:L1].
  - exists f32_zero. repeat split. now destruct s.
  - exists f32_one. repeat split. now destruct s.
  - exists v. rewrite L0, L1. repeat split; try assumption. now destruct s.
Qed.

(** X12.  Whatever [float] other than a NaN is passed to
    [oss_stream_set_volume], the stored volume has a 16-bit multiplier
    [vol * 0x8000] between 0 and 0x8000, so that
    [oss_linear16_set_vol] at the stored volume is defined on every
    buffer that holds the samples and scales each sample by that
    multiplier without overflow. *)
Theorem oss_stream_set_volume_bounds_multiplier (s : cubeb_stream) (v : float) :
  is_float v = true -> is_nan v = false ->
  exists k,
    multiplier16 (volume (fst (fst (oss_stream_set_volume s v)))) = Some k
    /\ 0 <= k <= 32768
    /\ forall buf sample_count,
         (2 * Z.to_nat sample_count <= length buf)%nat ->
         exists out,
           oss_linear16_set_vol buf sample_count
             (volume (fst (fst (oss_stream_set_volume s v)))) = Some out
           /\ length out = length buf
           /\ forall i, (i < Z.to_nat sample_count)%nat ->
                sample16_at out i = sample16_at buf i * k / 2 ^ 15.
Proof.
  intros V N. unfold oss_stream_set_volume. cbn [fst set_volume volume].
  assert (M : exists k,
             multiplier16 (if f32_ltb v f32_zero then f32_zero
                           else if f32_ltb f32_one v then f32_one else v) = Some k
             /\ 0 <= k <= 32768).
  { destruct (f32_ltb v f32_zero) eqn:L0; [|destruct (f32_ltb f32_one v) eqn:L1].
    - exists 0. split; [reflexivity|lia].
    - exists 32768. split; [reflexivity|lia].
    - now apply multiplier16_in_range. }
  destruct M as (k & M & R). exists k. split; [exact M|]. split; [exact R|].
  intros buf sample_count L. unfold oss_linear16_set_vol.
  unfold multiplier16 in M. rewrite M. cbn [obind].
  destruct (linear16_set_vol_loop_scales k (Z.to_nat sample_count) R buf L)
    as (out & E & Lo & _ & Sm).
  exists out. repeat split; assumption.
Qed.

Lemma oss_stream_set_volume_bounds_multiplier_witness :
  is_float f32_three_quarters = true /\ is_nan f32_three_quarters = false
  /\ multiplier16 (volume (fst (fst (oss_stream_set_volume (play16_stream false)
                                       f32_three_quarters)))) = Some 24576
  /\ multiplier16 (volume (fst (fst (oss_stream_set_volume (play16_stream false)
                                       f32_minus_two)))) = Some 0
  /\ exists k,
       multiplier16 (volume (fst (fst (oss_stream_set_volume (play16_stream false)
                                         f32_three_quarters)))) = Some k
       /\ 0 <= k <= 32768
       /\ forall buf sample_count,
            (2 * Z.to_nat sample_count <= length buf)%nat ->
            exists out,
              oss_linear16_set_vol buf sample_count
                (volume (fst (fst (oss_stream_set_volume (play16_stream false)
                                     f32_three_quarters)))) = Some out
              /\ length out = length buf
              /\ forall i, (i < Z.to_nat sample_count)%nat ->
                   sample16_at out i = sample16_at buf i * k / 2 ^ 15.
Proof.
  split; [reflexivity|]. split; [reflexivity|].
  split; [vm_compute; reflexivity|]. split; [vm_compute; reflexivity|].
  exact (oss_stream_set_volume_bounds_multiplier (play16_stream false)
           f32_three_quarters eq_refl eq_refl).
Defined.



(** X22.  For a stream that [oss_stream_init] handed out,
    [oss_get_current_device] reports, when its allocations succeed, the
    device name of each direction for which parameters were given (the
    requested name, or [/dev/dsp], cut to 31 characters) and a null
    name for each other direction; when the allocation of the result
    fails it returns [CUBEB_ERROR] and no device. *)
Theorem oss_get_current_device_names (env : init_env)
  (input_device : option string) (input_stream_params : option cubeb_stream_params)
  (output_device : option string) (output_stream_params : option cubeb_stream_params)
  (r : init_result) (s : cubeb_stream) (strdup : string -> option string) :
  oss_stream_init env input_device input_stream_params
    output_device output_stream_params = Some r ->
  i_stream r = Some s ->
  (forall n, strdup n = Some n) ->
  oss_get_current_device true strdup s
  = (CUBEB_OK,
     Some {| output_name := match output_stream_params with
                            | Some _ => Some (resolved_name output_device)
                            | None => None
                            end;
             input_name := match input_stream_params with
                           | Some _ => Some (resolved_name input_device)
                           | None => None
                           end |})
  /\ oss_get_current_device false strdup s = (CUBEB_ERROR, None).
Proof.
  intros H Hs D.
  destruct (oss_stream_init_success _ _ _ _ _ _ _ H Hs)
    as (_ & _ & _ & [NR R] & [NP P] & _).
  split; [|reflexivity].
  unfold oss_get_current_device. cbn [negb]. rewrite !D, NR, NP.
  destruct input_stream_params as [qi|]; destruct output_stream_params as [qo|];
    repeat match goal with
      | H : _ /\ _ |- _ => destruct H
      end;
    repeat match goal with
      | H : fd ?e <> -1 |- _ => apply Z.eqb_neq in H; rewrite H
      | H : fd ?e = -1 |- _ => rewrite H
      end;
    reflexivity.
Qed.

Lemma oss_get_current_device_names_witness :
  exists r s,
    oss_stream_init (good_env true (Some (queue 4 256)) None)
      None None (Some "/dev/dsp2"%string) (Some params16) = Some r
    /\ i_stream r = Some s
    /\ (forall n : string, Some n = Some n)
    /\ oss_get_current_device true (fun n => Some n) s
       = (CUBEB_OK,
          Some {| output_name := Some (resolved_name (Some "/dev/dsp2"%string));
                  input_name := None |})
    /\ oss_get_current_device false (fun n => Some n) s = (CUBEB_ERROR, None).
Proof.
  eexists. eexists. split; [vm_compute; reflexivity|]. split; [reflexivity|].
  split; [reflexivity|].
  eapply (oss_get_current_device_names (good_env true (Some (queue 4 256)) None)
            None None (Some "/dev/dsp2"%string) (Some params16)).
  - vm_compute. reflexivity.
  - reflexivity.
  - reflexivity.
Defined.

(** ** The way of the recorded samples *)

Lemma feed_app (a b : list event) :
  forall pending,
    feed pending (a ++ b)
    = (fst (feed pending a) ++ fst (feed (snd (feed pending a)) b),
       snd (feed (snd (feed pending a)) b)).
Proof.
  induction a as [|e a IH]; intros pending; cbn [app feed].
  - cbn [fst snd app]. now destruct (feed pending b).
  - destruct e; try apply IH.
    rewrite (IH []). destruct (feed [] a) as [blocks rest]. reflexivity.
Qed.

Lemma feed_device_io (evs : list event) :
  Forall (fun e => is_device_io e = true) evs ->
  forall pending, feed pending evs = ([], pending ++ bytes_read evs).
Proof.
  induction 1 as [|e evs He _ IH]; intros pending; cbn [feed].
  - now rewrite app_nil_r.
  - destruct e; try discriminate.
    + rewrite IH. reflexivity.
    + rewrite IH. unfold bytes_read. cbn [flat_map read_data].
      now rewrite app_assoc.
Qed.

Lemma callback_inputs_device_io (evs : list event) :
  Forall (fun e => is_device_io e = true) evs -> callback_inputs evs = [].
Proof.
  induction 1 as [|e evs He _ IH]; [reflexivity|].
  destruct e; try discriminate; exact IH.
Qed.

Lemma firstn_store_at (b : list byte) (ofs : Z) (data : list byte) :
  0 <= ofs <= Z.of_nat (length b) ->
  firstn (Z.to_nat (ofs + Z.of_nat (length data))) (store_at b ofs data)
  = firstn (Z.to_nat ofs) b ++ data.
Proof.
  intros H. unfold store_at. rewrite app_assoc.
  rewrite firstn_app.
  replace (Z.to_nat (ofs + Z.of_nat (length data))
           - length (firstn (Z.to_nat ofs) b ++ data))%nat with 0%nat
    by (rewrite length_app, length_firstn; lia).
  cbn [firstn]. rewrite app_nil_r. apply firstn_all2.
  rewrite length_app, length_firstn. lia.
Qed.

Section RecordedSamples.

Variable env : io_env.

Lemma write_step_filled (pfs : Z) (pb : list byte) (x w : xfer) (evs : list event) :
  write_step env pfs pb x = Some w ->
  filled x evs ->
  exists e1, x_events w = x_events x ++ e1 /\ filled w (evs ++ e1).
Proof.
  unfold write_step, filled. intros H F.
  destruct (0 <? x_to_write x).
  - destruct (negb _); [discriminate|].
    destruct (_ <? 0).
    + injection H as <-. exists []. cbn. now rewrite !app_nil_r.
    + destruct (pfs =? 0); [discriminate|].
      injection H as <-. eexists. cbn [x_events x_read_ofs x_record].
      split; [reflexivity|].
      rewrite bytes_read_app. unfold bytes_read at 2. cbn. now rewrite app_nil_r.
  - injection H as <-. exists []. now rewrite !app_nil_r.
Qed.

Lemma read_step_filled (rfs : Z) (x r : xfer) (evs : list event) :
  Z.of_nat (length (x_record x)) < 2 ^ 64 ->
  read_step env rfs x = Some r ->
  filled x evs ->
  length (x_record r) = length (x_record x)
  /\ exists e1, x_events r = x_events x ++ e1 /\ filled r (evs ++ e1).
Proof.
  unfold read_step, filled. intros Hl H [Ho F].
  destruct (0 <? x_to_read x).
  - destruct (in_bounds (x_read_ofs x) (u64 (x_to_read x * rfs)) (x_record x)) eqn:B;
      cbn [negb] in H; [|discriminate].
    unfold in_bounds in B. apply Z.leb_le in B.
    pose proof (u64_range (x_to_read x * rfs)) as Ub.
    destruct (io_read env _ _) as [delivered|].
    + destruct (rfs =? 0); [discriminate|].
      injection H as <-. cbn [x_events x_read_ofs x_record].
      set (data := firstn (Z.to_nat (u64 (x_to_read x * rfs))) delivered) in *.
      assert (Ld : Z.of_nat (length data) <= u64 (x_to_read x * rfs)).
      { unfold data. rewrite length_firstn. lia. }
      assert (Sl : length (store_at (x_record x) (x_read_ofs x) data)
                   = length (x_record x)).
      { apply store_at_length; lia. }
      split; [exact Sl|]. eexists. split; [reflexivity|].
      rewrite u64_small by lia. rewrite Sl. split; [lia|].
      rewrite firstn_store_at by lia. rewrite F, bytes_read_app.
      unfold bytes_read at 3. cbn. now rewrite app_nil_r.
    + injection H as <-. split; [reflexivity|]. exists [].
      cbn. now rewrite !app_nil_r.
  - injection H as <-. split; [reflexivity|]. exists []. now rewrite !app_nil_r.
Qed.

Lemma retry_loop_filled (pfs rfs : Z) (pb : list byte) (fuel : nat) :
  forall x x' evs,
    Z.of_nat (length (x_record x)) < 2 ^ 64 ->
    retry_loop env pfs rfs pb fuel x = Some x' ->
    filled x evs ->
    exists e1, x_events x' = x_events x ++ e1 /\ filled x' (evs ++ e1).
Proof.
  induction fuel as [|fuel IH]; intros x x' evs Hl H F; cbn [retry_loop] in H;
    destruct ((0 <? x_to_write x) || (0 <? x_to_read x));
    try discriminate;
    try (injection H as <-; exists []; now rewrite !app_nil_r).
  destruct (write_step env pfs pb x) as [w|] eqn:W; cbn [obind] in H; [|discriminate].
  assert (Rw : x_record w = x_record x).
  { unfold write_step in W. destruct (0 <? x_to_write x).
    - destruct (negb _); [discriminate|]. destruct (_ <? 0).
      + now injection W as <-.
      + destruct (pfs =? 0); [discriminate|]. now injection W as <-.
    - now injection W as <-. }
  destruct (write_step_filled _ _ _ _ _ W F) as (e1 & E1 & F1).
  destruct (is_error (x_state w)).
  { injection H as <-. eauto. }
  destruct (read_step env rfs w) as [r|] eqn:R; cbn [obind] in H; [|discriminate].
  destruct (read_step_filled _ _ _ _ ltac:(now rewrite Rw) R F1)
    as (Lr & e2 & E2 & F2).
  destruct (is_error (x_state r)).
  { injection H as <-. exists (e1 ++ e2). rewrite E2, E1, !app_assoc. auto. }
  destruct (IH r x' _ ltac:(now rewrite Lr, Rw) H F2) as (e3 & E3 & F3).
  exists (e1 ++ e2 ++ e3). rewrite E3, E2, E1, !app_assoc.
  split; [reflexivity|]. exact F3.
Qed.

End RecordedSamples.

Lemma record_view_layout (s s' : cubeb_stream) (raw : list byte) :
  same_layout s s' -> record_view s' raw = record_view s raw.
Proof.
  intros (_ & _ & _ & _ & N & _ & (_ & _ & I & _ & F & _)).
  unfold record_view. now rewrite N, I, F.
Qed.

Section RecordedRun.

Variable env : io_env.
Variable s0 : cubeb_stream.

Local Abbreviation accounted := (accounted_for s0).

Lemma accounted_callback (tr evs : list event) (b b' : list byte) (n k : Z) :
  accounted tr b ->
  record_view s0 b = Some b' ->
  Forall (fun e => is_device_io e = true) evs ->
  accounted ((tr ++ [EvDataCb b' n k]) ++ evs) (bytes_read evs).
Proof.
  intros (blocks & F & A) V D. exists (blocks ++ [b]).
  rewrite <- app_assoc. split.
  - rewrite feed_app, F. cbn [fst snd app feed].
    rewrite (feed_device_io evs D). reflexivity.
  - rewrite callback_inputs_app. cbn [app callback_inputs].
    rewrite (callback_inputs_device_io evs D).
    apply Forall2_app; [exact A|]. constructor; [exact V|constructor].
Qed.

Lemma io_iteration_accounted (ifuel : nat) (l l' : loop_state) (st : cubeb_state) :
  io_iteration env ifuel l = Some (st, l') ->
  same_layout s0 (l_stream l) ->
  ready (l_stream l) -> well_behaved env (l_stream l) ->
  fd (record (l_stream l)) <> -1 ->
  accounted (l_trace l) (bytes_of (buf (record (l_stream l)))) ->
  exists rest,
    accounted (l_trace l') rest
    /\ (st = CUBEB_STATE_STARTED -> rest = bytes_of (buf (record (l_stream l')))).
Proof.
  intros H L0 (N & FW & RP & RR & FP) (CB & VOL & GW & GR) Fr A.
  pose proof H as K. apply io_iteration_kept in K.
  unfold io_iteration in H. set (s := l_stream l) in *.
  destruct (negb (io_running env (l_iter l))).
  { injection H as <- <-. eexists. split; [exact A|discriminate]. }
  destruct ((fd (play s) =? -1) && (fd (record s) =? -1)).
  { injection H as <- <-. eexists. split; [exact A|discriminate]. }
  destruct RR as [E|(C0 & FS & FR & b & B & Lb)]; [contradiction|].
  apply Z.eqb_neq in Fr as Fr'.
  destruct (convert_record s) as [rb|] eqn:CRe; cbn [obind] in H; [|discriminate].
  assert (CR : exists b',
             rb = Some b' /\ record_view s0 b = Some b' /\ length b' = length b).
  { unfold convert_record in CRe. rewrite Fr', B in CRe. cbn [negb andb] in CRe.
    rewrite <- (record_view_layout s0 s b L0). unfold record_view. fold s.
    destruct (floating (record s)).
    - cbn [convert_buf] in CRe.
      destruct (oss_linear32_to_float b _) as [b'|] eqn:Cv; cbn [obind] in CRe;
        [|discriminate].
      injection CRe as <-. exists b'. split; [reflexivity|]. split; [reflexivity|].
      apply (linear32_to_float_loop_converts _ _ _ Cv).
    - injection CRe as <-. exists b. repeat split. }
  destruct CR as (b' & -> & V & Lb').
  rewrite B in A. cbn [bytes_of] in A.
  cbn [set_record set_play set_buf nfr play record fd buf frame_size
         frames_written floating info bytes_of] in H.
  fold s in H.
  specialize (CB (l_iter l) b').
  destruct (io_data_cb env (l_iter l) b' (nfr s)) as [k out].
  cbn [fst] in CB.
  destruct (k =? CUBEB_ERROR) eqn:KE.
  { injection H as <- <-. cbn [l_trace]. eexists. split; [|discriminate].
    rewrite <- (app_nil_r (_ ++ [_])).
    apply (accounted_callback _ [] b b'); try assumption. constructor. }
  apply Z.eqb_neq in KE. destruct CB as [CB|CB]; [contradiction|].
  match type of H with
  | obind ?c _ = _ => destruct c as [pb|] eqn:CP; cbn [obind] in H; [|discriminate]
  end.
  assert (PS : same_shape pb (buf (play s))).
  { destruct (negb (fd (play s) =? -1)).
    - apply convert_play_shape in CP. cbn [set_buf buf] in CP.
      eapply same_shape_trans; [exact CP|]. apply overwrite_shape.
    - injection CP as <-. apply overwrite_shape. }
  cbn [set_record set_play set_buf nfr play record fd buf frame_size
         frames_written floating info bytes_of] in H.
  destruct ((k <? nfr s) && (fd (play s) =? -1)) eqn:SH.
  { injection H as <- <-. cbn [l_trace]. eexists. split; [|discriminate].
    rewrite <- (app_nil_r (_ ++ [_])).
    apply (accounted_callback _ [] b b'); try assumption. constructor. }
  match type of H with
  | obind ?c _ = _ => destruct c as [x|] eqn:X; cbn [obind] in H; [|discriminate]
  end.
  pose proof (retry_loop_kept _ _ _ _ _ _ _ X) as XK.
  destruct (XK ltac:(cbn; lia) ltac:(cbn; lia))
    as (_ & _ & XL & _ & _ & evs & XE & XD & _).
  cbn [x_events x_record app] in XE, XL.
  assert (Acc : accounted ((l_trace l ++ [EvDataCb b' (nfr s) k]) ++ x_events x)
                  (bytes_read (x_events x))).
  { rewrite XE. apply (accounted_callback _ evs b b'); assumption. }
  assert (Full : x_state x = CUBEB_STATE_STARTED -> bytes_read (x_events x) = x_record x).
  { intros St.
    assert (Hl : Z.of_nat (length b') < 2 ^ 64) by (rewrite Lb', Lb; nia).
    pose proof (fun Hl' => retry_loop_filled env _ _ _ _ _ _ [] Hl' X) as RF.
    cbn [x_record] in RF.
    destruct (RF Hl) as (e1 & E1 & F1).
    { split; cbn; [lia|reflexivity]. }
    cbn [x_events app] in E1, F1. rewrite <- E1 in F1. destruct F1 as [_ F1].
    rewrite <- F1.
    assert (O : x_read_ofs x = Z.of_nat (length (x_record x)));
      [|rewrite O, Nat2Z.id; apply firstn_all].
    rewrite XL, Lb', Lb.
    apply retry_loop_sound in X.
    - destruct X as (_ & _ & _ & _ & O & _). rewrite O. cbn [x_read_ofs x_to_read].
      rewrite Fr'. cbn [negb]. lia.
    - cbn [x_to_write]. destruct (fd (play s) =? -1) eqn:Fp; cbn [negb]; [now left|].
      right. apply Z.eqb_neq in Fp. now apply GW.
    - right. now apply GR.
    - cbn [x_to_write]. destruct (negb (fd (play s) =? -1)); [apply u64_range|lia].
    - cbn. lia.
    - cbn [x_to_write x_write_ofs].
      destruct (fd (play s) =? -1) eqn:Fp; cbn [negb]; [lia|].
      apply Z.eqb_neq in Fp.
      destruct RP as [E|(P0 & PFS & PFR & pb0 & PB & PLb)]; [contradiction|].
      rewrite u64_small by lia. nia.
    - cbn [x_to_read]. destruct (negb (fd (record s) =? -1)); lia.
    - cbn. lia.
    - cbn [x_to_read x_read_ofs]. destruct (negb (fd (record s) =? -1)); nia.
    - exact FW.
    - reflexivity. }
  match type of H with
  | (if ?c then _ else _) = _ => destruct c eqn:Dr
  end; injection H as <- <-; cbn [l_trace l_stream]; eexists.
  - split; [exact Acc|discriminate].
  - split; [exact Acc|]. intros St. rewrite (Full St). reflexivity.
Qed.

Lemma io_loop_accounted (ifuel fuel : nat) :
  forall l r,
    io_loop env ifuel fuel l = Some r ->
    same_layout s0 (l_stream l) ->
    ready (l_stream l) -> well_behaved env (l_stream l) ->
    fd (record (l_stream l)) <> -1 ->
    accounted (l_trace l) (bytes_of (buf (record (l_stream l)))) ->
    exists rest, accounted (l_trace (snd r)) rest.
Proof.
  induction fuel as [|fuel IH]; intros l r H L0 R W Fr A; cbn [io_loop] in H;
    [discriminate|].
  destruct (io_iteration env ifuel l) as [[st l1]|] eqn:I; cbn [obind] in H;
    [|discriminate].
  destruct (io_iteration_accounted _ _ _ _ I L0 R W Fr A) as (rest & A1 & C).
  pose proof (io_iteration_kept _ _ _ _ _ I) as (L & G & _).
  cbn [fst snd] in H.
  destruct (cubeb_state_eqb st CUBEB_STATE_STARTED) eqn:S.
  - assert (st = CUBEB_STATE_STARTED) as -> by (destruct st; try discriminate; reflexivity).
    apply (IH l1 r H).
    + eapply same_layout_trans; eassumption.
    + eapply ready_kept; [exact R|exact L|]. apply G. apply R.
    + eapply well_behaved_kept; eassumption.
    + destruct L as (_ & _ & _ & _ & _ & _ & (_ & -> & _)). exact Fr.
    + rewrite <- (C eq_refl). exact A1.
  - injection H as <-. eauto.
Qed.

End RecordedRun.

(** X24.  Recorded samples reach the application unchanged, in order,
    one block late: on a stream ready for the I/O routine (X20) with an
    open record handle and well-behaved surroundings, the first data
    callback of a run is given the record buffer as it stood, and every
    later one exactly the bytes that the [read] calls delivered since
    the callback before it; on a float stream each of these blocks is
    passed through [oss_linear32_to_float] first, and is otherwise
    handed over as it is. *)
Theorem oss_io_routine_delivers_recorded_samples (env : io_env) (ifuel fuel : nat)
  (s s' : cubeb_stream) (st : cubeb_state) (tr : list event) :
  ready s -> well_behaved env s -> fd (record s) <> -1 ->
  oss_io_routine env ifuel fuel s = Some (st, s', tr) ->
  Forall2 (fun raw input => record_view s raw = Some input)
    (fst (feed (bytes_of (buf (record s))) tr)) (callback_inputs tr).
Proof.
  intros R W Fr H. unfold oss_io_routine, io_run in H.
  destruct (io_loop env ifuel fuel (loop_start s)) as [r|] eqn:L;
    cbn [obind] in H; [|discriminate].
  injection H as _ _ <-.
  destruct (io_loop_accounted env s ifuel fuel _ _ L) as (rest & blocks & F & A);
    try assumption.
  - apply same_layout_refl.
  - exists []. split; [reflexivity|constructor].
  - rewrite feed_app, F, callback_inputs_app. cbn [fst snd feed callback_inputs].
    now rewrite !app_nil_r.
Qed.

Lemma oss_io_routine_delivers_recorded_samples_witness :
  exists st s' tr,
    ready float_record_stream /\ well_behaved float_record_env float_record_stream
    /\ fd (record float_record_stream) <> -1
    /\ oss_io_routine float_record_env 4 3 float_record_stream = Some (st, s', tr)
    /\ fst (feed (bytes_of (buf (record float_record_stream))) tr)
       = [repeat 0 8; [0; 0; 0; 64; 0; 0; 0; 64]]
    /\ callback_inputs tr = [repeat 0 8; [0; 0; 0; 63; 0; 0; 0; 63]]
    /\ Forall2 (fun raw input => record_view float_record_stream raw = Some input)
         (fst (feed (bytes_of (buf (record float_record_stream))) tr))
         (callback_inputs tr).
Proof.
  assert (R : ready float_record_stream).
  { split; [cbn; lia|]. split; [cbn; lia|].
    split; [|split; [|reflexivity]]; right; cbn.
    - split; [lia|]. split; [reflexivity|]. split; [lia|]. eexists. split; reflexivity.
    - split; [lia|]. split; [reflexivity|]. split; [lia|]. eexists. split; reflexivity. }
  assert (W : well_behaved float_record_env float_record_stream).
  { split; [|split; [|split]].
    - intros i input. right. cbn. lia.
    - intros i. exists 32768. split; [vm_compute; reflexivity|lia].
    - intros _. split.
      + split; [cbn; lia|]. intros k n. cbn. split; [lia|reflexivity].
      + intros k n _. cbn. lia.
    - intros _. split.
      + split; [cbn; lia|]. intros k n. eexists. split; [reflexivity|]. reflexivity.
      + intros k n _. cbn. discriminate. }
  assert (F : fd (record float_record_stream) <> -1) by (cbn; lia).
  do 3 eexists. split; [exact R|]. split; [exact W|]. split; [exact F|].
  split; [vm_compute; reflexivity|].
  split; [vm_compute; reflexivity|]. split; [vm_compute; reflexivity|].
  eapply (oss_io_routine_delivers_recorded_samples float_record_env 4 3
            float_record_stream _ _ _ R W F).
  vm_compute. reflexivity.
Defined.

(** ** Latencies *)

(** X25.  [oss_get_min_latency] returns [CUBEB_OK] and 40 ms worth of
    frames: for every rate up to 107374182 Hz the result is the rate
    divided by 25, rounded down, and for no rate does it exceed
    4294967 frames. *)
Theorem oss_get_min_latency_is_40ms (params : cubeb_stream_params) :
  0 <= p_rate params < 2 ^ 32 ->
  fst (oss_get_min_latency params) = CUBEB_OK
  /\ 0 <= snd (oss_get_min_latency params) <= 4294967
  /\ (p_rate params <= 107374182 ->
      snd (oss_get_min_latency params) = p_rate params / 25).
Proof.
  intros R. unfold oss_get_min_latency, OSS_LATENCY_MS. cbn [fst snd].
  pose proof (u32_range (40 * p_rate params)) as U.
  split; [reflexivity|]. split; [split|].
  - apply Z.div_pos; lia.
  - assert (u32 (40 * p_rate params) / 1000 < 4294967 + 1); [|lia].
    apply Z.div_lt_upper_bound; lia.
  - intros L. rewrite u32_small by lia.
    replace (40 * p_rate params) with (p_rate params * 40) by lia.
    change 1000 with (25 * 40). rewrite Z.div_mul_cancel_r by lia. reflexivity.
Qed.

Lemma oss_get_min_latency_is_40ms_witness :
  0 <= p_rate params16 < 2 ^ 32
  /\ snd (oss_get_min_latency params16) = 1920
  /\ fst (oss_get_min_latency params16) = CUBEB_OK
  /\ 0 <= snd (oss_get_min_latency params16) <= 4294967
  /\ (p_rate params16 <= 107374182 ->
      snd (oss_get_min_latency params16) = p_rate params16 / 25).
Proof.
  assert (R : 0 <= p_rate params16 < 2 ^ 32) by (cbn; lia).
  split; [exact R|]. split; [reflexivity|].
  exact (oss_get_min_latency_is_40ms params16 R).
Defined.

(** X26.  On a stream laid out as construction leaves it,
    [oss_stream_get_latency] never divides by zero.  With playback open
    and a successful query it returns [CUBEB_OK] and the queued bytes
    in whole frames; when the query fails, as it does on a stream
    without a playback handle on a system that rejects the descriptor
    -1, it returns [CUBEB_ERROR] and stores nothing. *)
Theorem oss_stream_get_latency_defined (getodelay : Z -> option Z)
  (s : cubeb_stream) :
  ready s -> getodelay (-1) = None ->
  exists ret latency,
    oss_stream_get_latency getodelay s = Some (ret, latency)
    /\ (getodelay (fd (play s)) = None -> ret = CUBEB_ERROR /\ latency = None)
    /\ (fd (play s) = -1 -> ret = CUBEB_ERROR /\ latency = None)
    /\ (forall delay,
          getodelay (fd (play s)) = Some delay -> 0 <= delay < 2 ^ 32 ->
          exists frames,
            ret = CUBEB_OK /\ latency = Some frames
            /\ frames * frame_size (play s) <= delay
               < (frames + 1) * frame_size (play s)).
Proof.
  intros (_ & _ & RP & _) Bad. unfold oss_stream_get_latency.
  destruct (getodelay (fd (play s))) as [delay|] eqn:G.
  - destruct RP as [E|(_ & _ & FR & _)]; [rewrite E in G; congruence|].
    destruct (frame_size (play s) =? 0) eqn:Z0; [apply Z.eqb_eq in Z0; lia|].
    do 2 eexists. split; [reflexivity|]. split; [discriminate|].
    split; [intros E; rewrite E in G; congruence|].
    intros d D Rd. injection D as <-. eexists. split; [reflexivity|].
    split; [reflexivity|]. rewrite u32_small by lia.
    pose proof (Z.div_mod delay (frame_size (play s)) ltac:(lia)) as DM.
    pose proof (Z.mod_pos_bound delay (frame_size (play s)) ltac:(lia)) as MB.
    nia.
  - do 2 eexists. split; [reflexivity|]. split; [auto|]. split; [auto|].
    intros d D. discriminate.
Qed.

Lemma oss_stream_get_latency_defined_witness :
  ready (duplex16_stream true) /\ queued_1000 (-1) = None
  /\ oss_stream_get_latency queued_1000 (duplex16_stream true)
     = Some (CUBEB_OK, Some 250)
  /\ exists ret latency,
       oss_stream_get_latency queued_1000 (duplex16_stream true)
       = Some (ret, latency)
       /\ (queued_1000 (fd (play (duplex16_stream true))) = None ->
           ret = CUBEB_ERROR /\ latency = None)
       /\ (fd (play (duplex16_stream true)) = -1 ->
           ret = CUBEB_ERROR /\ latency = None)
       /\ (forall delay,
             queued_1000 (fd (play (duplex16_stream true))) = Some delay ->
             0 <= delay < 2 ^ 32 ->
             exists frames,
               ret = CUBEB_OK /\ latency = Some frames
               /\ frames * frame_size (play (duplex16_stream true)) <= delay
                  < (frames + 1) * frame_size (play (duplex16_stream true))).
Proof.
  split; [exact duplex16_stream_ready|]. split; [reflexivity|].
  split; [reflexivity|].
  exact (oss_stream_get_latency_defined queued_1000 (duplex16_stream true)
           duplex16_stream_ready eq_refl).
Defined.

(** ** Device enumeration *)

Lemma enum_held_after_app (h : list enum_resource) (a b : list enum_event) :
  enum_held_after h (a ++ b) = enum_held_after (enum_held_after h a) b.
Proof.
  revert h. induction a as [|e a IH]; intros h; [reflexivity|].
  cbn [app enum_held_after]. apply IH.
Qed.

Lemma enum_resource_eqb_eq (a b : enum_resource) :
  enum_resource_eqb a b = true <-> a = b.
Proof.
  destruct a, b; cbn; split; intros H; try discriminate; try reflexivity.
  - apply Z.eqb_eq in H. now subst.
  - injection H as ->. apply Z.eqb_refl.
  - apply andb_true_iff in H. destruct H as [H1 H2].
    apply Z.eqb_eq in H1. apply Nat.eqb_eq in H2. now subst.
  - injection H as -> ->. now rewrite Z.eqb_refl, Nat.eqb_refl.
Qed.

Lemma enum_remove_one_middle (r : enum_resource) (l1 l2 : list enum_resource) :
  ~ In r l1 -> enum_remove_one r (l1 ++ r :: l2) = l1 ++ l2.
Proof.
  induction l1 as [|x l1 IH]; intros N; cbn [app enum_remove_one].
  - now rewrite (proj2 (enum_resource_eqb_eq r r) eq_refl).
  - destruct (enum_resource_eqb r x) eqn:E.
    + apply enum_resource_eqb_eq in E. subst. exfalso. apply N. now left.
    + f_equal. apply IH. intros I. apply N. now right.
Qed.

Lemma release_event_releases (r : enum_resource) :
  enum_acquired (release_event r) = None
  /\ enum_released (release_event r) = Some r.
Proof. destruct r; split; reflexivity. Qed.

(** Releasing, oldest first, what was acquired leaves what was there
    before. *)
Lemma enum_released_in_order (l rest : list enum_resource) :
  NoDup l ->
  enum_held_after (rev l ++ rest) (map release_event l) = rest.
Proof.
  revert rest. induction l as [|x l IH]; intros rest N; [reflexivity|].
  inversion N as [|? ? Nx Nl]; subst.
  cbn [map enum_held_after rev].
  destruct (release_event_releases x) as [-> ->].
  rewrite <- app_assoc. cbn [app].
  rewrite enum_remove_one_middle by (rewrite <- in_rev; exact Nx).
  now apply IH.
Qed.

Lemma free_strings_events (cdi : cubeb_device_info) :
  snd (oss_free_cubeb_device_info_strings cdi) = map release_event (strings_of cdi).
Proof.
  unfold oss_free_cubeb_device_info_strings, strings_of, free_string.
  cbn [snd flat_map].
  destruct (device_id cdi), (friendly_name cdi), (group_id cdi); reflexivity.
Qed.

Lemma collection_destroy_events (devices : list cubeb_device_info) :
  snd (oss_device_collection_destroy devices)
  = map release_event (flat_map strings_of devices) ++ [EnFree].
Proof.
  unfold oss_device_collection_destroy. cbn [snd]. f_equal.
  induction devices as [|cdi devices IH]; [reflexivity|].
  cbn [flat_map]. now rewrite map_app, IH, free_strings_events.
Qed.

Lemma indices_range (count : nat) :
  forall from x, In x (indices from count) -> from <= x < from + Z.of_nat count.
Proof.
  induction count as [|count IH]; intros from x H; cbn [indices] in H; [contradiction|].
  destruct H as [<-|H]; [lia|]. apply IH in H. lia.
Qed.

Lemma indices_NoDup (count : nat) : forall from, NoDup (indices from count).
Proof.
  induction count as [|count IH]; intros from; cbn [indices]; constructor.
  - intros H. apply indices_range in H. lia.
  - apply IH.
Qed.

Lemma entry_strings_NoDup (l : list Z) :
  NoDup l -> NoDup (flat_map entry_strings l).
Proof.
  induction 1 as [|i l Ni _ IH]; cbn [flat_map]; [constructor|].
  assert (Out : forall j, ~ In (EnString i j) (flat_map entry_strings l)).
  { intros j H. apply in_flat_map in H. destruct H as (d & Hd & H).
    cbn in H. destruct H as [H|[H|[H|[]]]]; injection H as -> _; contradiction. }
  unfold entry_strings at 1. cbn [app].
  constructor; [|constructor; [|constructor; [|exact IH]]].
  - intros [H|[H|H]]; try discriminate. now apply Out in H.
  - intros [H|H]; try discriminate. now apply Out in H.
  - apply Out.
Qed.

Lemma enum_remove_one_past_strings (r : enum_resource)
  (l rest : list enum_resource) :
  is_enum_string r = false ->
  Forall (fun x => is_enum_string x = true) l ->
  enum_remove_one r (l ++ rest) = l ++ enum_remove_one r rest.
Proof.
  intros Hr. induction 1 as [|x l Hx _ IH]; [reflexivity|].
  cbn [app enum_remove_one].
  destruct (enum_resource_eqb r x) eqn:E.
  - apply enum_resource_eqb_eq in E. subst. congruence.
  - now rewrite IH.
Qed.

Section EnumerationFacts.

Variables DSP_CAP_DUPLEX DSP_CAP_INPUT DSP_CAP_OUTPUT : Z.
Variable NDEBUG : bool.
Variable env : enum_env.
Variable requested : Z.

Local Abbreviation scan_device' :=
  (scan_device DSP_CAP_DUPLEX DSP_CAP_INPUT DSP_CAP_OUTPUT NDEBUG env requested).
Local Abbreviation listed' :=
  (listed DSP_CAP_DUPLEX DSP_CAP_INPUT DSP_CAP_OUTPUT env requested).

(** What the body of the loop does: it stores a filled entry and keeps
    its three strings exactly for a listed device, and otherwise keeps
    nothing. *)
Lemma scan_device_cases (numaudios i : Z) :
  match scan_device' numaudios i with
  | ScanTake cdi ev =>
      listed' i = true /\ describes env requested i cdi
      /\ strings_of cdi = entry_strings i
      /\ forall h, enum_held_after h ev = rev (entry_strings i) ++ h
  | ScanSkip ev =>
      listed' i = false /\ forall h, enum_held_after h ev = h
  | ScanFail | ScanAbort => True
  end.
Proof.
  unfold scan_device, listed.
  destruct (en_audioinfo env i) as [ai|] eqn:A; [|exact I].
  destruct (negb NDEBUG && negb (ai_dev ai <? numaudios)); [exact I|].
  destruct (ai_enabled ai =? 0); cbn [negb andb]; [split; reflexivity|].
  destruct (caps_admit _ _ _ (ai_caps ai) requested); cbn [negb andb];
    [|split; reflexivity].
  unfold strdup_for.
  destruct (en_intern env (ai_devnode ai)) as [d|] eqn:In;
    destruct (en_strdup env i 0); destruct (en_strdup env i 1);
    destruct (en_strdup env i 2); cbn [andb];
    try (split; [reflexivity|]; intros h;
         cbn [oss_free_cubeb_device_info_strings snd fst free_string app
                device_id friendly_name group_id hs_dev hs_call
                enum_held_after enum_acquired enum_released];
         repeat (rewrite ?Z.eqb_refl;
                 cbn [andb enum_remove_one enum_resource_eqb Nat.eqb]);
         reflexivity).
  split; [reflexivity|]. split; [|split; [reflexivity|intros h; reflexivity]].
  exists ai. cbn. rewrite In. repeat split; try reflexivity; try exact A.
  discriminate.
Qed.

Lemma scan_devices_spec (numaudios : Z) (count : nat) :
  forall i devices tr out tr',
    scan_devices DSP_CAP_DUPLEX DSP_CAP_INPUT DSP_CAP_OUTPUT NDEBUG env requested
      numaudios count i devices tr = (out, tr') ->
    exists new,
      (forall h,
         enum_held_after h tr'
         = rev (flat_map entry_strings (map entry_dev new)) ++ enum_held_after h tr)
      /\ flat_map strings_of new = flat_map entry_strings (map entry_dev new)
      /\ Forall (fun cdi => describes env requested (entry_dev cdi) cdi) new
      /\ (exists k, (k <= count)%nat
                    /\ map entry_dev new = filter listed' (indices i k)
                    /\ (out <> ScanFailed -> out <> ScanAborted -> k = count))
      /\ (forall devices', out = Scanned devices' -> devices' = devices ++ new).
Proof.
  induction count as [|count IH]; intros i devices tr out tr' H;
    cbn [scan_devices] in H.
  - injection H as <- <-. exists []. cbn [map flat_map rev app].
    split; [reflexivity|]. split; [reflexivity|]. split; [constructor|].
    split; [exists 0%nat; repeat split; lia|].
    intros devices' E. injection E as <-. now rewrite app_nil_r.
  - pose proof (scan_device_cases numaudios i) as C.
    destruct (scan_device' numaudios i) as [ev|cdi ev| |].
    + destruct C as [Li Hv].
      destruct (IH _ _ _ _ _ H) as (new & Hh & Hs & Hd & (k & Kc & Hf & Hk) & Ho).
      exists new. split.
      { intros h. rewrite Hh, enum_held_after_app, Hv. reflexivity. }
      split; [exact Hs|]. split; [exact Hd|]. split; [|exact Ho].
      exists (S k). split; [lia|]. split.
      * cbn [indices filter]. rewrite Li. exact Hf.
      * intros N1 N2. f_equal. now apply Hk.
    + destruct C as (Li & Dc & Sc & Hv).
      destruct (IH _ _ _ _ _ H) as (new & Hh & Hs & Hd & (k & Kc & Hf & Hk) & Ho).
      assert (Ei : entry_dev cdi = i) by (destruct Dc as (ai & _ & E & _); exact E).
      exists (cdi :: new). cbn [map flat_map]. rewrite Ei. split.
      { intros h. rewrite Hh, enum_held_after_app, Hv.
        rewrite rev_app_distr, <- app_assoc. reflexivity. }
      split; [now rewrite Sc, Hs|].
      split; [constructor; [now rewrite Ei|exact Hd]|]. split.
      * exists (S k). split; [lia|]. split.
        -- cbn [indices filter]. rewrite Li. now rewrite Hf.
        -- intros N1 N2. f_equal. now apply Hk.
      * intros devices' E. rewrite (Ho _ E), <- app_assoc. reflexivity.
    + injection H as <- <-. exists []. cbn [map flat_map rev app].
      split; [reflexivity|]. split; [reflexivity|]. split; [constructor|].
      split; [exists 0%nat; repeat split; [lia|congruence]|].
      intros devices' E. discriminate.
    + injection H as <- <-. exists []. cbn [map flat_map rev app].
      split; [reflexivity|]. split; [reflexivity|]. split; [constructor|].
      split; [exists 0%nat; repeat split; [lia|congruence]|].
      intros devices' E. discriminate.
Qed.

End EnumerationFacts.

(** X27.  When [oss_enumerate_devices] (in the build for systems other
    than FreeBSD) succeeds, the collection holds one entry for each
    device index below [numaudios], in increasing order, whose device
    is enabled, whose capabilities pass the [switch] for the requested
    type, and for which the interning and the three [strdup] calls
    succeeded, and no other entry; each entry carries the requested
    type, the interned device node, three copies of the device name,
    the limits the device reported, the preferred rate of 48000 Hz and
    the native 16-bit format; and the number of entries does not exceed
    the size of the array. *)
Theorem oss_enumerate_devices_selects
  (DSP_CAP_DUPLEX DSP_CAP_INPUT DSP_CAP_OUTPUT : Z) (NDEBUG : bool)
  (env : enum_env) (requested : Z) (ret : Z) (devices : list cubeb_device_info)
  (tr : list enum_event) :
  oss_enumerate_devices DSP_CAP_DUPLEX DSP_CAP_INPUT DSP_CAP_OUTPUT NDEBUG
    env requested = (Some (ret, Some devices), tr) ->
  exists numaudios,
    en_sysinfo env = Some numaudios
    /\ ret = CUBEB_OK
    /\ map entry_dev devices
       = filter (listed DSP_CAP_DUPLEX DSP_CAP_INPUT DSP_CAP_OUTPUT env requested)
           (indices 0 (Z.to_nat numaudios))
    /\ Forall (fun cdi => describes env requested (entry_dev cdi) cdi) devices
    /\ (length devices <= Z.to_nat numaudios)%nat.
Proof.
  unfold oss_enumerate_devices. intros H.
  destruct (en_open_mixer env =? -1); [discriminate|].
  destruct (en_sysinfo env) as [numaudios|]; [|discriminate].
  destruct (negb (en_calloc env numaudios)); [discriminate|].
  destruct (scan_devices _ _ _ _ _ _ _ _ _ _ _) as [out tr1] eqn:S.
  destruct out as [devices'| |]; try discriminate.
  injection H as <- <- <-.
  destruct (scan_devices_spec _ _ _ _ _ _ _ _ _ _ _ _ _ S)
    as (new & _ & _ & Hd & (k & _ & Hf & Hk) & Ho).
  rewrite (Ho _ eq_refl). cbn [app].
  rewrite (Hk ltac:(discriminate) ltac:(discriminate)) in Hf.
  exists numaudios. split; [reflexivity|]. split; [reflexivity|].
  split; [exact Hf|]. split; [exact Hd|].
  rewrite <- (length_map entry_dev), Hf.
  etransitivity; [apply filter_length_le|].
  clear. generalize 0. induction (Z.to_nat numaudios) as [|n IH]; intros z;
    cbn [indices length]; [lia|]. specialize (IH (z + 1)). lia.
Qed.

Lemma oss_enumerate_devices_selects_witness :
  exists ret devices tr,
    oss_enumerate_devices 256 65536 131072 false three_devices
      CUBEB_DEVICE_TYPE_OUTPUT = (Some (ret, Some devices), tr)
    /\ map entry_dev devices = [0]
    /\ exists numaudios,
         en_sysinfo three_devices = Some numaudios
         /\ ret = CUBEB_OK
         /\ map entry_dev devices
            = filter (listed 256 65536 131072 three_devices CUBEB_DEVICE_TYPE_OUTPUT)
                (indices 0 (Z.to_nat numaudios))
         /\ Forall (fun cdi => describes three_devices CUBEB_DEVICE_TYPE_OUTPUT
                                 (entry_dev cdi) cdi) devices
         /\ (length devices <= Z.to_nat numaudios)%nat.
Proof.
  do 3 eexists. split; [vm_compute; reflexivity|]. split; [reflexivity|].
  eapply (oss_enumerate_devices_selects 256 65536 131072 false three_devices
            CUBEB_DEVICE_TYPE_OUTPUT).
  vm_compute. reflexivity.
Defined.

(** X28.  [oss_enumerate_devices] closes the mixer on every return on
    which it had opened it, and on a failing return it has also freed
    the array.  On success what is left allocated is the array and the
    three strings of each entry, and [oss_device_collection_destroy]
    frees all of that and returns 0: enumerating and then destroying
    the collection leaks nothing. *)
Theorem oss_enumerate_devices_balance
  (DSP_CAP_DUPLEX DSP_CAP_INPUT DSP_CAP_OUTPUT : Z) (NDEBUG : bool)
  (env : enum_env) (requested : Z) (ret : Z)
  (collection : option (list cubeb_device_info)) (tr : list enum_event) :
  oss_enumerate_devices DSP_CAP_DUPLEX DSP_CAP_INPUT DSP_CAP_OUTPUT NDEBUG
    env requested = (Some (ret, collection), tr) ->
  match collection with
  | Some devices =>
      ret = CUBEB_OK
      /\ enum_held_after [] tr = rev (flat_map strings_of devices) ++ [EnArray]
      /\ fst (oss_device_collection_destroy devices) = 0
      /\ enum_held_after [] (tr ++ snd (oss_device_collection_destroy devices)) = []
  | None =>
      ret = CUBEB_ERROR
      /\ Forall (fun r => is_enum_string r = true) (enum_held_after [] tr)
  end.
Proof.
  unfold oss_enumerate_devices. intros H.
  destruct (en_open_mixer env =? -1) eqn:M.
  { injection H as <- <- <-. split; [reflexivity|constructor]. }
  set (d := en_open_mixer env) in *.
  destruct (en_sysinfo env) as [numaudios|].
  2: { injection H as <- <- <-. split; [reflexivity|].
       cbn. rewrite Z.eqb_refl. constructor. }
  destruct (negb (en_calloc env numaudios)).
  { injection H as <- <- <-. split; [reflexivity|].
    cbn. rewrite Z.eqb_refl. constructor. }
  destruct (scan_devices _ _ _ _ _ _ _ _ _ _ _) as [out tr1] eqn:S.
  destruct (scan_devices_spec _ _ _ _ _ _ _ _ _ _ _ _ _ S)
    as (new & Hh & Hs & _ & (k & _ & Hf & _) & Ho).
  assert (Str : forall l, Forall (fun r => is_enum_string r = true)
                            (rev (flat_map entry_strings l))).
  { intros l. apply Forall_rev. induction l; cbn; repeat constructor. assumption. }
  assert (Held : forall r rest,
             is_enum_string r = false ->
             enum_remove_one r
               (rev (flat_map entry_strings (map entry_dev new)) ++ rest)
             = rev (flat_map entry_strings (map entry_dev new))
                 ++ enum_remove_one r rest).
  { intros r rest Hr. apply enum_remove_one_past_strings; [exact Hr|apply Str]. }
  destruct out as [devices'| |]; try discriminate.
  - injection H as <- <- <-. rewrite (Ho _ eq_refl). cbn [app].
    assert (E : enum_held_after [] (tr1 ++ [EnClose d])
                = rev (flat_map strings_of new) ++ [EnArray]).
    { rewrite enum_held_after_app, Hh, Hs. cbn [enum_held_after enum_acquired
        enum_released app]. rewrite Held by reflexivity.
      cbn. now rewrite Z.eqb_refl. }
    split; [reflexivity|]. split; [exact E|]. split; [reflexivity|].
    rewrite enum_held_after_app, E, collection_destroy_events,
      enum_held_after_app.
    rewrite enum_released_in_order; [reflexivity|].
    rewrite Hs, Hf. apply entry_strings_NoDup, NoDup_filter, indices_NoDup.
  - injection H as <- <- <-. split; [reflexivity|].
    rewrite enum_held_after_app, Hh.
    cbn [enum_held_after enum_acquired enum_released app].
    rewrite Held by reflexivity.
    cbn [enum_remove_one enum_resource_eqb]. rewrite Z.eqb_refl.
    rewrite Held by reflexivity. cbn [enum_remove_one enum_resource_eqb].
    rewrite app_nil_r. apply Str.
Qed.

Lemma oss_enumerate_devices_balance_witness :
  exists devices tr,
    oss_enumerate_devices 256 65536 131072 false three_devices
      CUBEB_DEVICE_TYPE_OUTPUT = (Some (CUBEB_OK, Some devices), tr)
    /\ enum_held_after [] tr
       = [EnString 0 2; EnString 0 1; EnString 0 0; EnArray]
    /\ (CUBEB_OK = CUBEB_OK
        /\ enum_held_after [] tr = rev (flat_map strings_of devices) ++ [EnArray]
        /\ fst (oss_device_collection_destroy devices) = 0
        /\ enum_held_after [] (tr ++ snd (oss_device_collection_destroy devices))
           = []).
Proof.
  do 2 eexists. split; [vm_compute; reflexivity|]. split; [reflexivity|].
  eapply (oss_enumerate_devices_balance 256 65536 131072 false three_devices
            CUBEB_DEVICE_TYPE_OUTPUT CUBEB_OK (Some _)).
  vm_compute. reflexivity.
Defined.
